(** * Vehicle checklists: the persistence logic of the four screens

    The application keeps every checklist twice in the device's key-value
    store: a full record under [checklist_<id>] and an entry in the array
    stored under [vehicle_checklists].  This development embeds the event
    handlers that read and write those keys

      - [app/create-checklist.tsx]   ([onSubmit]),
      - [app/index.tsx]              ([loadChecklists], the Delete button
                                      of [handleDeleteChecklist] and what
                                      [renderChecklistItem] reads),
      - [app/checklist/[id].tsx]     ([loadChecklist], [saveChecklist],
                                      [addItem], [toggleItem], [addPhoto],
                                      [updatePhotoDescription], [deletePhoto]
                                      and the vehicle summary),
      - [app/vehicle-info/[id].tsx]  ([loadChecklist], the rows and
                                      [InfoRow]),

    over a small model of the JavaScript values they handle, and proves
    the properties of the specification about them, and further
    properties of the handlers. *)

From Stdlib Require Import ZArith Ascii String List Bool Lia.
From stdpp Require Import base option list strings pretty gmap.

Open Scope string_scope.
Open Scope Z_scope.

Set Warnings "-register-all".

(** ** JavaScript values and JSON texts *)

(** The values the screens hold in memory.  An object is the list of its
    own properties in insertion order; numbers are the integral ones (the
    screens compute none but lengths). *)
Inductive value : Type :=
  | VUndefined
  | VNull
  | VBool (b : bool)
  | VNumber (n : Z)
  | VString (s : string)
  | VArray (l : list value)
  | VObject (o : list (string * value)).

(** What [AsyncStorage] holds under a key: a JSON text, kept as the tree
    of what it denotes.  There is no [undefined] in JSON. *)
Inductive json : Type :=
  | JNull
  | JBool (b : bool)
  | JNumber (n : Z)
  | JString (s : string)
  | JArray (l : list json)
  | JObject (o : list (string * json)).

Abbreviation props := (list (string * value)).

Section json_induction.
Variable P : json -> Prop.
Hypothesis Hnull : P JNull.
Hypothesis Hbool : forall b, P (JBool b).
Hypothesis Hnumber : forall n, P (JNumber n).
Hypothesis Hstring : forall s, P (JString s).
Hypothesis Harray : forall l, Forall P l -> P (JArray l).
Hypothesis Hobject : forall o, Forall (fun kv => P (snd kv)) o -> P (JObject o).

Fixpoint json_nested_ind (j : json) : P j :=
  match j with
  | JNull => Hnull
  | JBool b => Hbool b
  | JNumber n => Hnumber n
  | JString s => Hstring s
  | JArray l =>
      Harray l ((fix go (l : list json) : Forall P l :=
                   match l with
                   | [] => @List.Forall_nil _ P
                   | x :: l' => @List.Forall_cons _ P x l' (json_nested_ind x) (go l')
                   end) l)
  | JObject o =>
      Hobject o ((fix go (o : list (string * json))
                    : Forall (fun kv => P (snd kv)) o :=
                    match o with
                    | [] => @List.Forall_nil _ _
                    | kv :: o' =>
                        @List.Forall_cons _ _ kv o' (json_nested_ind (snd kv)) (go o')
                    end) o)
  end.
End json_induction.

(** *** Own properties *)

(** [o.k] on the property list of an object: the first binding of [k]. *)
Fixpoint lookup_prop {A} (k : string) (o : list (string * A)) : option A :=
  match o with
  | [] => None
  | (k', x) :: o' => if String.eqb k' k then Some x else lookup_prop k o'
  end.

(** Every binding of [k] removed. *)
Fixpoint remove_prop {A} (k : string) (o : list (string * A)) : list (string * A) :=
  match o with
  | [] => []
  | (k', x) :: o' =>
      if String.eqb k' k then remove_prop k o' else (k', x) :: remove_prop k o'
  end.

(** [o.k = x]: an existing property keeps its place, a new one goes last. *)
Fixpoint set_prop {A} (k : string) (x : A) (o : list (string * A)) : list (string * A) :=
  match o with
  | [] => [(k, x)]
  | (k', y) :: o' =>
      if String.eqb k' k then (k, x) :: o' else (k', y) :: set_prop k x o'
  end.

(** An object literal [{ k1: x1, ..., ...o, ... }] assigns its properties
    from left to right. *)
Definition assign_props (o : props) (into : props) : props :=
  fold_left (fun acc kv => set_prop (fst kv) (snd kv) acc) o into.

(** *** JSON.stringify and JSON.parse *)

(** [JSON.stringify]: a property whose value is [undefined] is left out,
    an [undefined] array element becomes [null].  (A property list may
    bind a key twice, the first binding being the object's; a binding to
    [undefined] then also hides the later ones.  The objects built below
    bind every key once.) *)
Fixpoint JSON_stringify (v : value) : json :=
  match v with
  | VUndefined => JNull
  | VNull => JNull
  | VBool b => JBool b
  | VNumber n => JNumber n
  | VString s => JString s
  | VArray l => JArray (map JSON_stringify l)
  | VObject o =>
      JObject ((fix go (o : props) : list (string * json) :=
                  match o with
                  | [] => []
                  | (k, x) :: o' =>
                      match x with
                      | VUndefined => remove_prop k (go o')
                      | _ => (k, JSON_stringify x) :: go o'
                      end
                  end) o)
  end.

Fixpoint JSON_parse (j : json) : value :=
  match j with
  | JNull => VNull
  | JBool b => VBool b
  | JNumber n => VNumber n
  | JString s => VString s
  | JArray l => VArray (map JSON_parse l)
  | JObject o =>
      VObject ((fix go (o : list (string * json)) : props :=
                  match o with
                  | [] => []
                  | (k, x) :: o' => (k, JSON_parse x) :: go o'
                  end) o)
  end.

(** The property lists inside [JSON_stringify] and [JSON_parse], named. *)
Fixpoint stringify_props (o : props) : list (string * json) :=
  match o with
  | [] => []
  | (k, x) :: o' =>
      match x with
      | VUndefined => remove_prop k (stringify_props o')
      | _ => (k, JSON_stringify x) :: stringify_props o'
      end
  end.

Definition parse_props (o : list (string * json)) : props :=
  map (fun kv => (fst kv, JSON_parse (snd kv))) o.

(** What a value reads as after a trip through the store. *)
Definition stored (v : value) : value := JSON_parse (JSON_stringify v).

(** The same for the value of a property: an [undefined] one is absent
    afterwards, and reads as [undefined] again. *)
Definition stored_prop (v : value) : value :=
  match v with
  | VUndefined => VUndefined
  | _ => stored v
  end.

(** *** Operators *)

Definition truthy (v : value) : bool :=
  match v with
  | VUndefined | VNull => false
  | VBool b => b
  | VNumber n => negb (n =? 0)
  | VString s => negb (String.eqb s "")
  | VArray _ | VObject _ => true
  end.

(** [a || b] *)
Definition js_or (a b : value) : value := if truthy a then a else b.

(** [!a] *)
Definition js_not (a : value) : value := VBool (negb (truthy a)).

(** [v === s] for a string [s]. *)
Definition strict_eq_string (v : value) (s : string) : bool :=
  match v with
  | VString t => String.eqb t s
  | _ => false
  end.

Definition nullish (v : value) : bool :=
  match v with
  | VUndefined | VNull => true
  | _ => false
  end.

(** The characters of a string, as the one-character strings that
    indexing and iteration give. *)
Fixpoint chars (s : string) : list value :=
  match s with
  | EmptyString => []
  | String c s' => VString (String c EmptyString) :: chars s'
  end.

(** [v.k] for a [v] that is neither [undefined] nor [null]: an own
    property of an object, the [length] of a string or an array, and
    [undefined] otherwise.  The keys read by the screens are fixed names,
    none of them an index or a member of a prototype. *)
Definition read_prop (v : value) (k : string) : value :=
  match v with
  | VObject o => default VUndefined (lookup_prop k o)
  | VString s =>
      if String.eqb k "length" then VNumber (Z.of_nat (String.length s))
      else VUndefined
  | VArray l =>
      if String.eqb k "length" then VNumber (Z.of_nat (length l))
      else VUndefined
  | _ => VUndefined
  end.

(** [v?.k] *)
Definition optional_chain (v : value) (k : string) : value :=
  if nullish v then VUndefined else read_prop v k.

(** The index properties [0], [1], ... of an array or a string. *)
Definition index_props (l : list value) : props :=
  imap (fun i x => (pretty i, x)) l.

(** [{ ...v }]: the own enumerable properties of [v]. *)
Definition spread_props (v : value) : props :=
  match v with
  | VObject o => o
  | VArray l => index_props l
  | VString s => index_props (chars s)
  | _ => []
  end.

(** [{ ...v, k: x }] *)
Definition spread_with (v : value) (k : string) (x : value) : value :=
  VObject (set_prop k x (spread_props v)).

(** *** Exceptions *)

(** How the evaluation of an expression ends: with a value, or with a
    thrown [TypeError] (a property read on [undefined] or [null], a call
    of a method the receiver lacks, the spread of something that cannot
    be iterated). *)
Inductive completion (A : Type) : Type :=
  | Normal (a : A)
  | TypeError.
Arguments Normal {A} a.
Arguments TypeError {A}.

Definition completion_bind {A B} (c : completion A) (f : A -> completion B)
  : completion B :=
  match c with
  | Normal a => f a
  | TypeError => TypeError
  end.

(** [v.k] *)
Definition get_prop (v : value) (k : string) : completion value :=
  if nullish v then TypeError else Normal (read_prop v k).

(** [[...v]]: arrays and strings can be iterated. *)
Definition iterate (v : value) : completion (list value) :=
  match v with
  | VArray l => Normal l
  | VString s => Normal (chars s)
  | _ => TypeError
  end.

(** The receiver of [findIndex], [filter] and [map] has to be an array
    for the method to exist. *)
Definition array_receiver (v : value) : completion (list value) :=
  match v with
  | VArray l => Normal l
  | _ => TypeError
  end.

(** [l.findIndex(cb)]: the index of the first element [cb] accepts, [-1]
    when there is none.  The elements after it are not visited. *)
Fixpoint findIndex (cb : value -> completion bool) (l : list value) : completion Z :=
  match l with
  | [] => Normal (-1)
  | x :: l' =>
      completion_bind (cb x) (fun b =>
        if b then Normal 0
        else completion_bind (findIndex cb l') (fun i =>
               Normal (if i =? -1 then -1 else i + 1)))
  end.

(** [l.filter(cb)] *)
Fixpoint filter_array (cb : value -> completion bool) (l : list value)
  : completion (list value) :=
  match l with
  | [] => Normal []
  | x :: l' =>
      completion_bind (cb x) (fun b =>
        completion_bind (filter_array cb l') (fun r =>
          Normal (if b then x :: r else r)))
  end.

(** [l.map(cb)] *)
Fixpoint map_array (cb : value -> completion value) (l : list value)
  : completion (list value) :=
  match l with
  | [] => Normal []
  | x :: l' =>
      completion_bind (cb x) (fun y =>
        completion_bind (map_array cb l') (fun r => Normal (y :: r)))
  end.

(** [item => item.id === id] *)
Definition id_is (id : string) (item : value) : completion bool :=
  completion_bind (get_prop item "id") (fun x => Normal (strict_eq_string x id)).

(** [item => item.id !== id] *)
Definition id_is_not (id : string) (item : value) : completion bool :=
  completion_bind (get_prop item "id") (fun x => Normal (negb (strict_eq_string x id))).

(** *** Strings and dates *)

(** The white space and line terminators [String.prototype.trim] strips,
    among the code units below 256: TAB, LF, VT, FF, CR, SP and NBSP. *)
Definition is_white_space (c : ascii) : bool :=
  let n := nat_of_ascii c in
  ((9 <=? n) && (n <=? 13) || (n =? 32) || (n =? 160))%nat.

Fixpoint trim_start (s : string) : string :=
  match s with
  | EmptyString => EmptyString
  | String c s' => if is_white_space c then trim_start s' else s
  end.

Fixpoint trim_end (s : string) : string :=
  match s with
  | EmptyString => EmptyString
  | String c s' =>
      match trim_end s' with
      | EmptyString => if is_white_space c then EmptyString else String c EmptyString
      | r => String c r
      end
  end.

(** [s.trim()] *)
Definition trim (s : string) : string := trim_end (trim_start s).

(** A decimal numeral padded with zeros on the left to [width] digits. *)
Definition pad_start (width : nat) (n : Z) : string :=
  let s := pretty n in
  String.concat "" (replicate (width - String.length s) "0") +:+ s.

(** The civil date of a day number counted from 1970-01-01, in the
    proleptic Gregorian calendar: (year, month, day). *)
Definition civil_from_days (days : Z) : Z * Z * Z :=
  let z := days + 719468 in
  let era := z / 146097 in
  let doe := z - era * 146097 in
  let yoe := (doe - doe / 1460 + doe / 36524 - doe / 146096) / 365 in
  let doy := doe - (365 * yoe + yoe / 4 - yoe / 100) in
  let mp := (5 * doy + 2) / 153 in
  let d := doy - (153 * mp + 2) / 5 + 1 in
  let m := if mp <? 10 then mp + 3 else mp - 9 in
  let y := yoe + era * 400 + (if m <=? 2 then 1 else 0) in
  (y, m, d).

(** [new Date(t).toISOString()] for a time value [t] in milliseconds
    since the epoch: [YYYY-MM-DDTHH:mm:ss.sssZ], the year with a sign and
    six digits outside 0..9999. *)
Definition toISOString (t : Z) : string :=
  let '(y, m, d) := civil_from_days (t / 86400000) in
  let ms := t mod 86400000 in
  let year :=
    if (0 <=? y) && (y <=? 9999) then pad_start 4 y
    else (if y <? 0 then "-" else "+") +:+ pad_start 6 (Z.abs y) in
  year +:+ "-" +:+ pad_start 2 m +:+ "-" +:+ pad_start 2 d +:+ "T" +:+
  pad_start 2 (ms / 3600000) +:+ ":" +:+ pad_start 2 (ms / 60000 mod 60) +:+ ":" +:+
  pad_start 2 (ms / 1000 mod 60) +:+ "." +:+ pad_start 3 (ms mod 1000) +:+ "Z".

(** ** The device: key-value store, clock and screen *)

(** What a handler shows or where it navigates. *)
Inductive ui_event : Type :=
  | Alert (title message : string)
  | RouterBack
  | RouterReplace (path : string).

(** The store of [AsyncStorage], the system clock and what the user has
    been shown.  [clock n] is the time value, in milliseconds since the
    epoch, that the [n]-th reading of the clock returns; [reads] counts
    the readings made so far.  The calls of [AsyncStorage] are taken to
    resolve. *)
Record World : Type := mkWorld {
  storage : gmap string json;
  clock : nat -> Z;
  reads : nat;
  shown : list ui_event;
}.

(** A handler: it runs from a state of the device to a completion and the
    state it leaves; what it wrote before an exception stays written. *)
Definition M (A : Type) : Type := World -> completion A * World.

Definition ret {A} (a : A) : M A := fun w => (Normal a, w).

Definition bind {A B} (m : M A) (f : A -> M B) : M B :=
  fun w =>
    match m w with
    | (Normal a, w') => f a w'
    | (TypeError, w') => (TypeError, w')
    end.

Declare Scope handler_scope.
Delimit Scope handler_scope with handler.
Notation "x <- m ;; k" := (bind m (fun x => k))
  (at level 100, m at next level, right associativity) : handler_scope.
Notation "m ;;; k" := (bind m (fun _ => k))
  (at level 100, right associativity) : handler_scope.
Open Scope handler_scope.

(** The completion of an expression inside a handler. *)
Definition eval {A} (c : completion A) : M A := fun w => (c, w).

(** [try { body } catch (error) { handler }] *)
Definition try_catch {A} (body : M A) (handler : M A) : M A :=
  fun w =>
    match body w with
    | (Normal a, w') => (Normal a, w')
    | (TypeError, w') => handler w'
    end.

(** [await AsyncStorage.getItem(key)]: the text stored, or [null]. *)
Definition getItem (key : string) : M (option json) :=
  fun w => (Normal (storage w !! key), w).

(** [await AsyncStorage.setItem(key, text)] *)
Definition setItem (key : string) (text : json) : M unit :=
  fun w => (Normal tt, mkWorld (<[key := text]> (storage w)) (clock w) (reads w) (shown w)).

(** A reading of the clock. *)
Definition read_clock : M Z :=
  fun w => (Normal (clock w (reads w)), mkWorld (storage w) (clock w) (S (reads w)) (shown w)).

(** [Alert.alert(...)], [router.back()], [router.replace(...)] *)
Definition show (e : ui_event) : M unit :=
  fun w => (Normal tt, mkWorld (storage w) (clock w) (reads w) (shown w ++ [e])).

(** [Date.now().toString()] *)
Definition Date_now_toString : M string :=
  t <- read_clock ;; ret (pretty t).

(** [new Date().toISOString()] *)
Definition new_Date_toISOString : M string :=
  t <- read_clock ;; ret (toISOString t).

(** The two keys of the store. *)
Definition index_key : string := "vehicle_checklists".
Definition record_key (id : string) : string := "checklist_" +:+ id.

(** [existing ? JSON.parse(existing) : []] *)
Definition parse_or_empty (existing : option json) : value :=
  match existing with
  | Some text => JSON_parse text
  | None => VArray []
  end.

(** ** app/create-checklist.tsx *)

Module CreateChecklist.

Record VehicleInfo : Type := {
  make : string; model : string; series : string; year : string;
  bodyType : string; doors : string; assembly : string; licensing : string;
  purchaseDate : string; vin : string; buildDate : string; trimCode : string;
  optionCode : string; odometer : string; paintColor : string;
  engine : string; transmission : string; drive : string; layout : string;
  rimSize : string; tyreSize : string; weight : string; wheelbase : string;
  length : string; height : string; width : string;
}.

Record EngineInfo : Type := {
  engineNumber : string; engineCode : string; description : string;
  bore : string; stroke : string; compressionRatio : string;
  power : string; torque : string;
}.

Record FormData : Type := {
  title : string;
  vehicleInfo : VehicleInfo;
  engineInfo : EngineInfo;
}.

(** The object the form hands over for [data.vehicleInfo], its
    properties in the order of [defaultValues]. *)
Definition vehicleInfo_props (v : VehicleInfo) : props :=
  [ ("make", VString (make v)); ("model", VString (model v));
    ("series", VString (series v)); ("year", VString (year v));
    ("bodyType", VString (bodyType v)); ("doors", VString (doors v));
    ("assembly", VString (assembly v)); ("licensing", VString (licensing v));
    ("purchaseDate", VString (purchaseDate v)); ("vin", VString (vin v));
    ("buildDate", VString (buildDate v)); ("trimCode", VString (trimCode v));
    ("optionCode", VString (optionCode v)); ("odometer", VString (odometer v));
    ("paintColor", VString (paintColor v)); ("engine", VString (engine v));
    ("transmission", VString (transmission v)); ("drive", VString (drive v));
    ("layout", VString (layout v)); ("rimSize", VString (rimSize v));
    ("tyreSize", VString (tyreSize v)); ("weight", VString (weight v));
    ("wheelbase", VString (wheelbase v)); ("length", VString (length v));
    ("height", VString (height v)); ("width", VString (width v)) ].

Definition engineInfo_props (e : EngineInfo) : props :=
  [ ("engineNumber", VString (engineNumber e));
    ("engineCode", VString (engineCode e));
    ("description", VString (description e));
    ("bore", VString (bore e)); ("stroke", VString (stroke e));
    ("compressionRatio", VString (compressionRatio e));
    ("power", VString (power e)); ("torque", VString (torque e)) ].

(** [data.title || `${year} ${make} ${model}`] *)
Definition title_or_default (data : FormData) : value :=
  let v := vehicleInfo data in
  js_or (VString (title data))
        (VString (year v +:+ " " +:+ make v +:+ " " +:+ model v)).

(** [{ make: ..., model: ..., year: ..., ...data.vehicleInfo }] *)
Definition vehicle_info_literal (v : VehicleInfo) : value :=
  VObject (assign_props (vehicleInfo_props v)
             [ ("make", VString (make v)); ("model", VString (model v));
               ("year", VString (year v)) ]).

(** The object literal [newChecklist], given the three strings the
    clock supplied for it. *)
Definition newChecklist (checklistId created_at updated_at : string)
    (data : FormData) : value :=
  VObject
    [ ("id", VString checklistId);
      ("title", title_or_default data);
      ("vehicle_info", vehicle_info_literal (vehicleInfo data));
      ("engine_info", VObject (engineInfo_props (engineInfo data)));
      ("tasks", VArray []);
      ("parts_to_install", VArray []);
      ("maintenance", VArray []);
      ("research_items", VArray []);
      ("photos", VArray []);
      ("created_at", VString created_at);
      ("updated_at", VString updated_at) ].

(** [checklists.push(x)]: only an array has the method. *)
Definition push (checklists x : value) : completion value :=
  completion_bind (array_receiver checklists) (fun l => Normal (VArray (l ++ [x]))).

(** [onSubmit]: the result is the id of the screen it moves to, if it
    got that far. *)
Definition onSubmit (data : FormData) : M (option string) :=
  try_catch
    (checklistId <- Date_now_toString ;;
     created_at <- new_Date_toISOString ;;
     updated_at <- new_Date_toISOString ;;
     let newChecklist := newChecklist checklistId created_at updated_at data in
     existing <- getItem index_key ;;
     let checklists := parse_or_empty existing in
     checklists <- eval (push checklists newChecklist) ;;
     setItem index_key (JSON_stringify checklists) ;;;
     setItem (record_key checklistId) (JSON_stringify newChecklist) ;;;
     show (RouterReplace ("/checklist/" +:+ checklistId)) ;;;
     ret (Some checklistId))
    (show (Alert "Error" "Failed to create checklist. Please try again.") ;;;
     ret None).

End CreateChecklist.

(** ** app/index.tsx *)

Module Index.

(** The state [checklists] of the list screen; it starts as [[]]. *)
Definition initial : value := VArray [].

(** [loadChecklists], run whenever the screen gets the focus. *)
Definition loadChecklists (checklists : value) : M value :=
  stored <- getItem index_key ;;
  match stored with
  | Some text => ret (JSON_parse text)
  | None => ret checklists
  end.

(** The [onPress] of the Delete button of the confirmation dialog
    that [handleDeleteChecklist] opens.  It yields the new state
    [checklists]; an exception leaves the screen as it was. *)
Definition handleDeleteChecklist (id : string) (checklists : value) : M value :=
  l <- eval (array_receiver checklists) ;;
  updatedChecklists <- eval (filter_array (id_is_not id) l) ;;
  setItem index_key (JSON_stringify (VArray updatedChecklists)) ;;;
  ret (VArray updatedChecklists).


End Index.

(** ** app/checklist/[id].tsx *)

Module ChecklistDetail.

(** The state of the detail screen that the handlers below use:
    [checklist] is [null] until a record is loaded. *)
Record State : Type := mkState {
  checklist : value;
  newItemText : string;
  activeSection : option string;
}.

Definition initial : State := mkState VNull "" None.

Definition setChecklist (c : value) (s : State) : State :=
  mkState c (newItemText s) (activeSection s).

(** [loadChecklist] for the route parameter [id]. *)
Definition loadChecklist (id : string) (s : State) : M State :=
  stored <- getItem (record_key id) ;;
  match stored with
  | Some text => ret (setChecklist (JSON_parse text) s)
  | None =>
      show (Alert "Error" "Checklist not found") ;;;
      show RouterBack ;;;
      ret s
  end.

(** The entry [saveChecklist] writes into the list, an object literal of
  five properties read from [updated]. *)
Definition summary (updated : value) : value :=
  VObject
    [ ("id", read_prop updated "id");
      ("title", read_prop updated "title");
      ("vehicle_info", read_prop updated "vehicle_info");
      ("created_at", read_prop updated "created_at");
      ("updated_at", read_prop updated "updated_at") ].

(** [saveChecklist(updatedChecklist)] on the screen of route [id]. *)
Definition saveChecklist (id : string) (updatedChecklist : value) (s : State)
  : M State :=
  try_catch
    (now <- new_Date_toISOString ;;
     let updated := spread_with updatedChecklist "updated_at" (VString now) in
     setItem (record_key id) (JSON_stringify updated) ;;;
     existing <- getItem index_key ;;
     let checklists := parse_or_empty existing in
     l <- eval (array_receiver checklists) ;;
     index <- eval (findIndex (id_is id) l) ;;
     (if index =? -1 then ret tt
      else setItem index_key
             (JSON_stringify (VArray (<[Z.to_nat index := summary updated]> l)))) ;;;
     ret (setChecklist updated s))
    (show (Alert "Error" "Failed to save changes") ;;;
     ret s).

(** [addItem(section)] *)
Definition addItem (id : string) (section : string) (s : State) : M State :=
  if negb (truthy (checklist s)) || negb (truthy (VString (trim (newItemText s))))
  then ret s
  else
    now <- Date_now_toString ;;
    let newItem :=
      VObject [ ("id", VString now);
                ("text", VString (trim (newItemText s)));
                ("completed", VBool false) ] in
    list <- eval (completion_bind (get_prop (checklist s) section) iterate) ;;
    let updatedChecklist :=
      spread_with (checklist s) section (VArray (list ++ [newItem])) in
    s' <- saveChecklist id updatedChecklist s ;;
    ret (mkState (checklist s') "" None).

(** The object [toggleItem] puts in the place of [item = items[itemIndex]]:
    [completed_at] is a reading of the clock when the item becomes
    completed, and [undefined] when it stops being so. *)
Definition toggled (item : value) : M value :=
  completed <- eval (get_prop item "completed") ;;
  completed' <- eval (get_prop item "completed") ;;
  completed_at <-
    (if truthy (js_not completed')
     then (now <- new_Date_toISOString ;; ret (VString now))
     else ret VUndefined) ;;
  ret (VObject (set_prop "completed_at" completed_at
                  (set_prop "completed" (js_not completed) (spread_props item)))).

(** [toggleItem(section, itemId)] *)
Definition toggleItem (id : string) (section itemId : string) (s : State)
  : M State :=
  if negb (truthy (checklist s)) then ret s
  else
    items <- eval (completion_bind (get_prop (checklist s) section) iterate) ;;
    itemIndex <- eval (findIndex (id_is itemId) items) ;;
    if itemIndex =? -1 then ret s
    else
      item <- toggled (default VUndefined (items !! Z.to_nat itemIndex)) ;;
      let items := <[Z.to_nat itemIndex := item]> items in
      let updatedChecklist := spread_with (checklist s) section (VArray items) in
      saveChecklist id updatedChecklist s.

(** [photo => photo.id === photoId ? { ...photo, description } : photo] *)
Definition describe (photoId description : string) (photo : value)
  : completion value :=
  completion_bind (id_is photoId photo) (fun same =>
    Normal (if same then spread_with photo "description" (VString description)
            else photo)).

(** [updatePhotoDescription(photoId, description)] *)
Definition updatePhotoDescription (id : string) (photoId description : string)
    (s : State) : M State :=
  if negb (truthy (checklist s)) then ret s
  else
    photos <- eval (completion_bind (get_prop (checklist s) "photos") (fun p =>
                    completion_bind (array_receiver p)
                      (map_array (describe photoId description)))) ;;
    let updatedChecklist := spread_with (checklist s) "photos" (VArray photos) in
    saveChecklist id updatedChecklist s.

(** [addPhoto], for the answer [granted] to the request for permission
    and the result of the image picker: [picked] is the base64 text of
    the chosen image, [None] when the user cancels. *)
Definition addPhoto (id : string) (granted : bool) (picked : option string)
    (s : State) : M State :=
  try_catch
    (if negb granted
     then
       show (Alert "Permission Required"
               "Camera roll permissions are required to add photos.") ;;;
       ret s
     else
       match picked with
       | Some base64 =>
           if truthy (VString base64) then
             now <- Date_now_toString ;;
             timestamp <- new_Date_toISOString ;;
             let photo :=
               VObject [ ("id", VString now);
                         ("base64_data", VString base64);
                         ("description", VString "");
                         ("timestamp", VString timestamp) ] in
             photos <- eval (completion_bind (get_prop (checklist s) "photos")
                               iterate) ;;
             let updatedChecklist :=
               spread_with (checklist s) "photos" (VArray (photos ++ [photo])) in
             saveChecklist id updatedChecklist s
           else ret s
       | None => ret s
       end)
    (show (Alert "Error" "Failed to add photo") ;;;
     ret s).

(** The [onPress] of the Delete button of the dialog that [deletePhoto]
    opens; the dialog is not opened while [checklist] is [null]. *)
Definition deletePhoto (id : string) (photoId : string) (s : State) : M State :=
  if negb (truthy (checklist s)) then ret s
  else
    photos <- eval (completion_bind (get_prop (checklist s) "photos") (fun p =>
                    completion_bind (array_receiver p)
                      (filter_array (id_is_not photoId)))) ;;
    let updatedChecklist := spread_with (checklist s) "photos" (VArray photos) in
    saveChecklist id updatedChecklist s.



(** [v.slice(-n)]: strings and arrays have the method, which keeps the
    last [n] code units or elements; on anything else the call
    throws. *)
Definition slice_last (n : nat) (v : value) : completion value :=
  match v with
  | VString s => Normal (VString (String.substring (String.length s - n) n s))
  | VArray l => Normal (VArray (drop (length l - n) l))
  | _ => TypeError
  end.



End ChecklistDetail.

(** ** app/vehicle-info/[id].tsx *)

Module VehicleInfo.

(** [loadChecklist]: the state [checklist] stays [null] when nothing
    is stored for the route parameter. *)
Definition loadChecklist (id : string) (checklist : value) : M value :=
  stored <- getItem (record_key id) ;;
  match stored with
  | Some text => ret (JSON_parse text)
  | None => ret checklist
  end.

(** [checklist.<camel>?.<field> || checklist.<snake>?.<field> || ''],
    the [value] of a row. *)
Definition row_value (checklist : value) (camel snake field : string)
  : completion value :=
  completion_bind (get_prop checklist camel) (fun a =>
    let first := optional_chain a field in
    if truthy first then Normal first
    else
      completion_bind (get_prop checklist snake) (fun b =>
        Normal (js_or (optional_chain b field) (VString "")))).

(** The rows of the first three sections, label and field. *)
Definition vehicle_rows : list (string * string) :=
  [ ("Make", "make"); ("Model", "model"); ("Series/Variant", "series");
    ("Model Year", "year"); ("Body Type", "bodyType"); ("Doors", "doors");
    ("Assembly", "assembly"); ("Licensing", "licensing");
    ("Purchase Date", "purchaseDate"); ("VIN #", "vin");
    ("Build Date", "buildDate"); ("Trim Code", "trimCode");
    ("Option Code", "optionCode"); ("Odometer", "odometer");
    ("Paint Colour/Code", "paintColor");
    ("Engine", "engine"); ("Transmission", "transmission");
    ("Drive", "drive"); ("Layout", "layout");
    ("Rim Size", "rimSize"); ("Tyre Size", "tyreSize"); ("Weight", "weight");
    ("Wheelbase", "wheelbase"); ("Length", "length"); ("Height", "height");
    ("Width", "width") ].

(** The rows of the section Engine Details. *)
Definition engine_rows : list (string * string) :=
  [ ("Engine #", "engineNumber"); ("Engine Code", "engineCode");
    ("Description", "description"); ("Bore", "bore"); ("Stroke", "stroke");
    ("Comp. Ratio", "compressionRatio"); ("Power", "power");
    ("Torque", "torque") ].

(** The [value]s handed to the rows, from top to bottom. *)
Fixpoint row_values (checklist : value) (camel snake : string)
    (rows : list (string * string)) : completion (list (string * value)) :=
  match rows with
  | [] => Normal []
  | (label, field) :: rows' =>
      completion_bind (row_value checklist camel snake field) (fun x =>
        completion_bind (row_values checklist camel snake rows') (fun r =>
          Normal ((label, x) :: r)))
  end.

(** What the screen puts up for a state [checklist]: [None] stands for
    the text "Vehicle information not found", otherwise the values of
    all rows ([InfoRow] leaves out a row whose value is falsy). *)
Definition render (checklist : value)
  : completion (option (list (string * value))) :=
  if negb (truthy checklist) then Normal None
  else
    completion_bind
      (row_values checklist "vehicleInfo" "vehicle_info" vehicle_rows) (fun v =>
      completion_bind
        (row_values checklist "engineInfo" "engine_info" engine_rows) (fun e =>
        Normal (Some (v ++ e)%list))).

(** [InfoRow]: [if (!value) return null], otherwise the label and the
    value. *)
Definition InfoRow (label : string) (v : value) : option (string * value) :=
  if negb (truthy v) then None else Some (label, v).

(** The rows that are on the screen in the end. *)
Definition displayed (checklist : value)
  : completion (option (list (string * value))) :=
  completion_bind (render checklist) (fun rows =>
    Normal (option_map (omap (fun r => InfoRow (fst r) (snd r))) rows)).

End VehicleInfo.

(** ** Notions used in the statements *)

Arguments toISOString : simpl never.

(** *** The operations of the specification *)

(** [get]: the state of a detail screen opened on [id]. *)
Definition get (id : string) : M ChecklistDetail.State :=
  ChecklistDetail.loadChecklist id ChecklistDetail.initial.

(** [listSummaries]: the state of the list screen when it gets the focus. *)
Definition listSummaries : M value := Index.loadChecklists Index.initial.

(** [delete]: the list screen has the focus and the user confirms the
    deletion of [id]. *)
Definition delete (id : string) : M value :=
  checklists <- listSummaries ;; Index.handleDeleteChecklist id checklists.

(** *** The stored list *)

(** The list of checklists as a handler reads it from the store:
    [existing ? JSON.parse(existing) : []], which has to be an array for
    [push] and [findIndex]. *)
Definition listed (w : World) : completion (list value) :=
  array_receiver (parse_or_empty (storage w !! index_key)).

(** [item.id === id], for an [item] on which the read does not throw. *)
Definition has_id (id : string) (item : value) : bool :=
  strict_eq_string (read_prop item "id") id.

(** No element is [null] or [undefined]: the callbacks that read [.id]
    run through the whole list. *)
Definition not_null (l : list value) : Prop :=
  Forall (fun x => nullish x = false) l.

(** The position of the first element that [f] accepts, [-1] without one. *)
Fixpoint first_index (f : value -> bool) (l : list value) : Z :=
  match l with
  | [] => -1
  | x :: l' =>
      if f x then 0
      else let i := first_index f l' in if i =? -1 then -1 else i + 1
  end.

(** The four lists of items of a checklist. *)
Definition task_lists : list string :=
  ["tasks"; "parts_to_install"; "maintenance"; "research_items"].

(** The fields of an entry of the list. *)
Definition summary_fields : list string :=
  ["id"; "title"; "vehicle_info"; "created_at"; "updated_at"].


(** *** What the handlers build *)

(** The device after one more reading of the clock. *)
Definition tick (w : World) : World :=
  mkWorld (storage w) (clock w) (S (reads w)) (shown w).

(** The id [onSubmit] gives to the checklist it creates in [w], and the
    object it builds. *)
Definition created_id (w : World) : string := pretty (clock w (reads w)).

Definition created_record (data : CreateChecklist.FormData) (w : World) : value :=
  CreateChecklist.newChecklist (created_id w)
    (toISOString (clock w (S (reads w))))
    (toISOString (clock w (S (S (reads w))))) data.

(** The object [saveChecklist] stores for [updatedChecklist] in [w]. *)
Definition updated_record (updatedChecklist : value) (w : World) : value :=
  spread_with updatedChecklist "updated_at"
    (VString (toISOString (clock w (reads w)))).

(** The item [addItem] builds in [w] from the text of the input field. *)
Definition new_item (w : World) (text : string) : value :=
  VObject [ ("id", VString (pretty (clock w (reads w))));
            ("text", VString (trim text));
            ("completed", VBool false) ].

(** Whether [toggleItem] makes [item] completed. *)
Definition becomes_completed (item : value) : bool :=
  negb (truthy (read_prop item "completed")).

(** The item [toggleItem] puts in the place of [item] when the clock
    shows [now]. *)
Definition toggled_item (item : value) (now : Z) : value :=
  VObject
    (set_prop "completed_at"
       (if becomes_completed item then VString (toISOString now) else VUndefined)
       (set_prop "completed" (VBool (becomes_completed item)) (spread_props item))).

(** The photo [updatePhotoDescription] puts in the place of [photo]. *)
Definition described (photoId description : string) (photo : value) : value :=
  if has_id photoId photo
  then spread_with photo "description" (VString description)
  else photo.

(** The value of a row of the vehicle information screen when no read
    throws, and all rows of the screen with their labels. *)
Definition shown_value (checklist : value) (camel snake field : string) : value :=
  js_or (js_or (optional_chain (read_prop checklist camel) field)
               (optional_chain (read_prop checklist snake) field))
        (VString "").

Definition shown_rows (checklist : value) : list (string * value) :=
  (map (fun r => (fst r, shown_value checklist "vehicleInfo" "vehicle_info" (snd r)))
     VehicleInfo.vehicle_rows ++
   map (fun r => (fst r, shown_value checklist "engineInfo" "engine_info" (snd r)))
     VehicleInfo.engine_rows)%list.

(** *** Reachable states of the store *)

(** The fields of a record that the handlers of the detail screen never
    write. *)
Definition kept_fields : list string :=
  ["id"; "title"; "vehicle_info"; "created_at"].

(** One operation on the device.  A creation draws an id that is not in
    use; an update saves, on the detail screen of a stored record, an
    object that has the record's [kept_fields]; a deletion is confirmed
    on the list screen; anything else (a reading of the clock, an alert)
    leaves the store as it is. *)
Inductive step : World -> World -> Prop :=
  | step_create (data : CreateChecklist.FormData) (w : World) :
      storage w !! record_key (created_id w) = None ->
      step w (snd (CreateChecklist.onSubmit data w))
  | step_update (id : string) (text : json) (o : props)
      (s : ChecklistDetail.State) (w : World) :
      storage w !! record_key id = Some text ->
      (forall k, In k kept_fields ->
                 read_prop (VObject o) k = read_prop (JSON_parse text) k) ->
      step w (snd (ChecklistDetail.saveChecklist id (VObject o) s w))
  | step_delete (id : string) (w : World) :
      step w (snd (delete id w))
  | step_idle (w w' : World) :
      storage w' = storage w -> step w w'.

(** The states the device gets into from an empty store. *)
Inductive reachable : World -> Prop :=
  | reachable_empty (w : World) : storage w = ∅ -> reachable w
  | reachable_step (w w' : World) : reachable w -> step w w' -> reachable w'.

(** The ids of the entries of a list. *)
Definition entry_ids (l : list value) : list value :=
  map (fun e => read_prop e "id") l.

(** An entry [e] of the list belongs to a stored record: it has the id of
    a record in the store, and every summary field, with the value that
    the record has for it. *)
Definition entry_of (w : World) (e : value) : Prop :=
  exists id text,
    read_prop e "id" = VString id /\
    storage w !! record_key id = Some text /\
    Forall (fun k => read_prop e k = read_prop (JSON_parse text) k /\
                     read_prop e k <> VUndefined) summary_fields.

(** The list agrees with the records. *)
Definition consistent (w : World) : Prop :=
  exists l, listed w = Normal l /\ NoDup (entry_ids l) /\ Forall (entry_of w) l.

(** The detail screen of [id] shows a record of the store: what it holds
    as [checklist] has the [kept_fields] of the record stored for [id]. *)
Definition shows_record (id : string) (s : ChecklistDetail.State) (w : World)
  : Prop :=
  exists text,
    storage w !! record_key id = Some text /\
    forall k, In k kept_fields ->
      read_prop (ChecklistDetail.checklist s) k = read_prop (JSON_parse text) k.

(** What a handler of the detail screen has to leave: a reachable store,
    and a screen that still shows the record if the handler completes. *)
Definition handled (id : string) (r : completion ChecklistDetail.State * World)
  : Prop :=
  reachable (snd r) /\ forall s', fst r = Normal s' -> shows_record id s' (snd r).

(** ** Concrete data *)

(** A device whose store is empty and whose clock shows [t], one
    millisecond more at every reading; the same with a clock that stands
    still. *)
Definition fresh_install (t : Z) : World :=
  mkWorld ∅ (fun n => t + Z.of_nat n) 0%nat [].

Definition frozen_install (t : Z) : World :=
  mkWorld ∅ (fun _ => t) 0%nat [].

(** The form filled in for a Toyota Camry of 2023, without a title. *)
Definition camry : CreateChecklist.FormData :=
  CreateChecklist.Build_FormData ""
    (CreateChecklist.Build_VehicleInfo "Toyota" "Camry" "" "2023" "" "" "" "" ""
       "" "" "" "" "" "" "" "" "" "" "" "" "" "" "" "" "")
    (CreateChecklist.Build_EngineInfo "" "" "" "" "" "" "" "").

(** The device after the Camry has been entered on a fresh install, and
    after its entry has then been deleted on the list screen. *)
Definition camry_id : string := "1700000000000".

Definition camry_created : World :=
  snd (CreateChecklist.onSubmit camry (fresh_install 1700000000000)).

Definition camry_deleted : World := snd (delete camry_id camry_created).

(** The record stored for the Camry, as a detail screen loads it, and
    that screen with [text] typed into the input field of the section
    Tasks. *)
Definition camry_record : value :=
  stored (created_record camry (fresh_install 1700000000000)).

Definition camry_props : props := spread_props camry_record.

Definition camry_screen (text : string) : ChecklistDetail.State :=
  ChecklistDetail.mkState camry_record text (Some "tasks").

(** The screen and the device a handler leaves ([initial] stands in for
    the screen if it throws). *)
Definition state_of (r : completion ChecklistDetail.State * World)
  : ChecklistDetail.State * World :=
  match r with
  | (Normal s, w) => (s, w)
  | (TypeError, w) => (ChecklistDetail.initial, w)
  end.

(** The detail screen of the Camry and the device after the task
    "Replace timing belt" has been added, and after a photo has then been
    added as well. *)
Definition camry_with_task : ChecklistDetail.State * World :=
  state_of (ChecklistDetail.addItem camry_id "tasks"
              (camry_screen "Replace timing belt") camry_created).

Definition camry_with_photo : ChecklistDetail.State * World :=
  state_of (ChecklistDetail.addPhoto camry_id true (Some "abc123")
              (fst camry_with_task) (snd camry_with_task)).

Definition camry_task_props : props :=
  spread_props (ChecklistDetail.checklist (fst camry_with_task)).

Definition camry_photo_props : props :=
  spread_props (ChecklistDetail.checklist (fst camry_with_photo)).

(** What is in those states: the one task, the one photo, the list. *)
Definition timing_belt : value :=
  VObject [ ("id", VString "1700000000003");
            ("text", VString "Replace timing belt");
            ("completed", VBool false) ].

Definition engine_bay_photo : value :=
  VObject [ ("id", VString "1700000000005");
            ("base64_data", VString "abc123");
            ("description", VString "");
            ("timestamp", VString "2023-11-14T22:13:20.006Z") ].

Definition camry_entries (w : World) : list value :=
  match listed w with
  | Normal l => l
  | TypeError => []
  end.

(** The screen of the freshly created Camry and the device after a
    description has been entered for a photo that the checklist does not
    have. *)
Definition camry_redescribed : ChecklistDetail.State * World :=
  state_of (ChecklistDetail.updatePhotoDescription camry_id "1700000000009"
              "Engine bay" (camry_screen "") camry_created).

(** Two stored records: one written by an older version, with the
    vehicle under [vehicleInfo] and no engine info at all, and one with
    neither object. *)
Definition legacy_record : json :=
  JObject [ ("id", JString "1600000000000");
            ("title", JString "Project car");
            ("vehicleInfo", JObject [ ("make", JString "Ford");
                                      ("model", JString "Falcon") ]) ].

Definition bare_record : json :=
  JObject [ ("id", JString "1600000000001"); ("title", JString "Untitled") ].

(** Two tasks added within one millisecond: the Camry is entered on a
    device whose clock stands still, its screen is opened, and
    "Replace timing belt" and "Check oil" are typed and added one after
    the other. *)
Definition camry_created_frozen : World :=
  snd (CreateChecklist.onSubmit camry (frozen_install 1700000000000)).

Definition setNewItemText (text : string) (s : ChecklistDetail.State)
  : ChecklistDetail.State :=
  ChecklistDetail.mkState (ChecklistDetail.checklist s) text
    (ChecklistDetail.activeSection s).

Definition first_task_added : ChecklistDetail.State * World :=
  state_of (ChecklistDetail.addItem camry_id "tasks"
              (setNewItemText "Replace timing belt"
                 (fst (state_of (get camry_id camry_created_frozen))))
              camry_created_frozen).

Definition second_task_added : ChecklistDetail.State * World :=
  state_of (ChecklistDetail.addItem camry_id "tasks"
              (setNewItemText "Check oil" (fst first_task_added))
              (snd first_task_added)).

(** *** The scenario of the specification *)

(** The Camry is created and opened, the task "Replace timing belt" is
    added and toggled, a photo is added and described, and the checklist
    is deleted on the list screen. *)
Definition scenario_toggled : ChecklistDetail.State * World :=
  state_of (ChecklistDetail.toggleItem camry_id "tasks" "1700000000003"
              (fst camry_with_task) (snd camry_with_task)).

Definition scenario_photo : ChecklistDetail.State * World :=
  state_of (ChecklistDetail.addPhoto camry_id true (Some "abc123")
              (fst scenario_toggled) (snd scenario_toggled)).

Definition scenario_described : ChecklistDetail.State * World :=
  state_of (ChecklistDetail.updatePhotoDescription camry_id "1700000000007"
              "Engine bay" (fst scenario_photo) (snd scenario_photo)).

Definition scenario_deleted : World := snd (delete camry_id (snd scenario_described)).

(** ** Further notions *)

(** *** Values without [undefined] *)

(** No [undefined] anywhere in the value: what [JSON.parse] returns. *)
Fixpoint defined (v : value) : bool :=
  match v with
  | VUndefined => false
  | VNull | VBool _ | VNumber _ | VString _ => true
  | VArray l => forallb defined l
  | VObject o =>
      (fix go (o : props) : bool :=
         match o with
         | [] => true
         | (_, x) :: o' => defined x && go o'
         end) o
  end.

Definition defined_props (o : props) : bool :=
  forallb (fun kv => defined (snd kv)) o.

Section value_induction.
Variable P : value -> Prop.
Hypothesis Hundefined : P VUndefined.
Hypothesis Hnull : P VNull.
Hypothesis Hbool : forall b, P (VBool b).
Hypothesis Hnumber : forall n, P (VNumber n).
Hypothesis Hstring : forall s, P (VString s).
Hypothesis Harray : forall l, Forall P l -> P (VArray l).
Hypothesis Hobject : forall o, Forall (fun kv => P (snd kv)) o -> P (VObject o).

Fixpoint value_nested_ind (v : value) : P v :=
  match v with
  | VUndefined => Hundefined
  | VNull => Hnull
  | VBool b => Hbool b
  | VNumber n => Hnumber n
  | VString s => Hstring s
  | VArray l =>
      Harray l ((fix go (l : list value) : Forall P l :=
                   match l with
                   | [] => @List.Forall_nil _ P
                   | x :: l' => @List.Forall_cons _ P x l' (value_nested_ind x) (go l')
                   end) l)
  | VObject o =>
      Hobject o ((fix go (o : props) : Forall (fun kv => P (snd kv)) o :=
                    match o with
                    | [] => @List.Forall_nil _ _
                    | kv :: o' =>
                        @List.Forall_cons _ _ kv o' (value_nested_ind (snd kv)) (go o')
                    end) o)
  end.
End value_induction.

(** *** A visit of the detail screen *)

(** The four sections that the screen puts up with [renderSection], and
    the name of the list each one shows. *)
Inductive checklist_section : Type :=
  | TasksToBeCompleted
  | PartsToBeInstalled
  | MaintenanceToBeCompleted
  | PartsToResearch.

Definition section_key (sec : checklist_section) : string :=
  match sec with
  | TasksToBeCompleted => "tasks"
  | PartsToBeInstalled => "parts_to_install"
  | MaintenanceToBeCompleted => "maintenance"
  | PartsToResearch => "research_items"
  end.

(** What the user does on the screen: type into the input field, press
    the + of a section, press Add, press an item, press the camera (and
    answer the request for permission and the image picker), end the
    editing of a photo's description, confirm the deletion of a photo. *)
Inductive action : Type :=
  | ChangeText (text : string)
  | PressSection (sec : checklist_section)
  | PressAdd (sec : checklist_section)
  | PressItem (sec : checklist_section) (itemId : string)
  | PressCamera (granted : bool) (picked : option string)
  | EndEditing (photoId description : string)
  | ConfirmDeletePhoto (photoId : string).

(** [setActiveSection(activeSection === section ? null : section)] *)
Definition pressSection (section : string) (s : ChecklistDetail.State)
  : ChecklistDetail.State :=
  ChecklistDetail.mkState (ChecklistDetail.checklist s)
    (ChecklistDetail.newItemText s)
    (match ChecklistDetail.activeSection s with
     | Some active => if String.eqb active section then None else Some section
     | None => Some section
     end).

(** The handler that an action runs on the screen of route [id]. *)
Definition perform (id : string) (a : action) (s : ChecklistDetail.State)
  : M ChecklistDetail.State :=
  match a with
  | ChangeText text => ret (setNewItemText text s)
  | PressSection sec => ret (pressSection (section_key sec) s)
  | PressAdd sec => ChecklistDetail.addItem id (section_key sec) s
  | PressItem sec itemId => ChecklistDetail.toggleItem id (section_key sec) itemId s
  | PressCamera granted picked => ChecklistDetail.addPhoto id granted picked s
  | EndEditing photoId description =>
      ChecklistDetail.updatePhotoDescription id photoId description s
  | ConfirmDeletePhoto photoId => ChecklistDetail.deletePhoto id photoId s
  end.

(** The screen after a handler has run: a handler sets no state before
    the point at which it can throw, so an exception leaves the screen
    as it was. *)
Definition settle (s : ChecklistDetail.State)
    (r : completion ChecklistDetail.State * World)
  : ChecklistDetail.State * World :=
  match r with
  | (Normal s', w') => (s', w')
  | (TypeError, w') => (s, w')
  end.

(** A sequence of actions, one after the other. *)
Fixpoint visit (id : string) (actions : list action)
    (s : ChecklistDetail.State) (w : World) : ChecklistDetail.State * World :=
  match actions with
  | [] => (s, w)
  | a :: actions' =>
      let (s', w') := settle s (perform id a s w) in
      visit id actions' s' w'
  end.

(** How a handler of the detail screen of [id] ends.  Either it has
    written nothing, and if it completes the screen holds the checklist it
    held; or the screen held a checklist object and the handler has run
    [saveChecklist] on that object with one property set, none of the
    [kept_fields], and the screen holds what [saveChecklist] left. *)
Definition outcome (id : string) (s : ChecklistDetail.State) (w : World)
    (r : completion ChecklistDetail.State * World) : Prop :=
  (storage (snd r) = storage w /\
   forall s', fst r = Normal s' ->
              ChecklistDetail.checklist s' = ChecklistDetail.checklist s) \/
  (exists o key x w0 s1,
     ChecklistDetail.checklist s = VObject o /\
     ~ In key kept_fields /\
     storage w0 = storage w /\
     ChecklistDetail.saveChecklist id (spread_with (VObject o) key x) s w0 =
       (Normal s1, snd r) /\
     exists s', fst r = Normal s' /\
                ChecklistDetail.checklist s' = ChecklistDetail.checklist s1).

(** The detail screen of [id] holds the stored record: what is stored
    under [checklist_<id>] is the checklist of the screen as
    [JSON.stringify] writes it out, and the [kept_fields] read on the
    stored record as they do on the screen. *)
Definition holds_record (id : string) (s : ChecklistDetail.State) (w : World)
  : Prop :=
  storage w !! record_key id = Some (JSON_stringify (ChecklistDetail.checklist s)) /\
  forall k, In k kept_fields ->
    read_prop (stored (ChecklistDetail.checklist s)) k =
    read_prop (ChecklistDetail.checklist s) k.

(** *** Records as the application writes them *)

(** A record stored for [id] that has this id, a title that is not
    empty, the vehicle information of a form as [vehicle_info], and two
    readings of the clock as [created_at] and [updated_at]. *)
Definition well_formed (id : string) (c : value) : Prop :=
  read_prop c "id" = VString id /\
  (exists title, title <> "" /\ read_prop c "title" = VString title) /\
  (exists v, read_prop c "vehicle_info" = CreateChecklist.vehicle_info_literal v) /\
  (exists t, read_prop c "created_at" = VString (toISOString t)) /\
  (exists t, read_prop c "updated_at" = VString (toISOString t)).

(** The rows of the vehicle information screen for what has been typed
    into the form: every label with the text of its field. *)
Definition form_rows (data : CreateChecklist.FormData) : list (string * value) :=
  (map (fun r => (fst r,
          read_prop (VObject (CreateChecklist.vehicleInfo_props
                                (CreateChecklist.vehicleInfo data))) (snd r)))
     VehicleInfo.vehicle_rows ++
   map (fun r => (fst r,
          read_prop (VObject (CreateChecklist.engineInfo_props
                                (CreateChecklist.engineInfo data))) (snd r)))
     VehicleInfo.engine_rows)%list.

(** A device whose stored list holds a [null]. *)
Definition list_with_null : World :=
  mkWorld {[ index_key := JArray [JNull] ]} (fun n => 1700000000000 + Z.of_nat n) 0%nat [].

(** The photo [addPhoto] builds in [w] for the image [base64]. *)
Definition new_photo (w : World) (base64 : string) : value :=
  VObject [ ("id", VString (pretty (clock w (reads w))));
            ("base64_data", VString base64);
            ("description", VString "");
            ("timestamp", VString (toISOString (clock w (S (reads w))))) ].

(** The task of the Camry toggled twice more, after it has been
    completed. *)
Definition completed_toggled_once : ChecklistDetail.State * World :=
  state_of (ChecklistDetail.toggleItem camry_id "tasks" "1700000000003"
              (fst scenario_toggled) (snd scenario_toggled)).

Definition completed_toggled_twice : ChecklistDetail.State * World :=
  state_of (ChecklistDetail.toggleItem camry_id "tasks" "1700000000003"
              (fst completed_toggled_once) (snd completed_toggled_once)).


(** * Properties *)

(** ** Dates and strings, on examples *)

Example toISOString_epoch : toISOString 0 = "1970-01-01T00:00:00.000Z".
Proof. vm_compute. reflexivity. Qed.

Example toISOString_2023 : toISOString 1700000000123 = "2023-11-14T22:13:20.123Z".
Proof. vm_compute. reflexivity. Qed.

Example toISOString_leap : toISOString 1709164800000 = "2024-02-29T00:00:00.000Z".
Proof. vm_compute. reflexivity. Qed.

Example toISOString_before_epoch : toISOString (-1) = "1969-12-31T23:59:59.999Z".
Proof. vm_compute. reflexivity. Qed.

Example trim_example :
  trim (String "009"%char "  Replace timing belt " +:+ String "010"%char " ") =
  "Replace timing belt".
Proof. vm_compute. reflexivity. Qed.

(** ** Property lists *)

Section props_facts.
Context {A : Type}.
Implicit Types (o : list (string * A)) (k : string).

Lemma lookup_prop_set_eq k x o : lookup_prop k (set_prop k x o) = Some x.
Proof.
  induction o as [|[k' y] o IH]; simpl.
  - now rewrite String.eqb_refl.
  - destruct (String.eqb k' k) eqn:E; simpl.
    + now rewrite String.eqb_refl.
    + now rewrite E.
Qed.

Lemma lookup_prop_set_ne k k' x o :
  k <> k' -> lookup_prop k' (set_prop k x o) = lookup_prop k' o.
Proof.
  intros Hne. induction o as [|[k0 y] o IH]; simpl.
  - apply String.eqb_neq in Hne. now rewrite Hne.
  - destruct (String.eqb k0 k) eqn:E; simpl.
    + apply String.eqb_eq in E. subst k0.
      apply String.eqb_neq in Hne. now rewrite Hne.
    + now rewrite IH.
Qed.

Lemma lookup_prop_remove k k' o :
  lookup_prop k' (remove_prop k o) =
  if String.eqb k k' then None else lookup_prop k' o.
Proof.
  induction o as [|[k0 y] o IH]; simpl.
  - now destruct (String.eqb k k').
  - destruct (String.eqb k0 k) eqn:E.
    + apply String.eqb_eq in E. subst k0. rewrite IH.
      now destruct (String.eqb k k').
    + simpl. rewrite IH. destruct (String.eqb k0 k') eqn:E'; [|reflexivity].
      apply String.eqb_eq in E'. subst k0.
      rewrite String.eqb_sym in E. now rewrite E.
Qed.
End props_facts.

(** ** The trip of a value through the store *)

Lemma JSON_stringify_object o : JSON_stringify (VObject o) = JObject (stringify_props o).
Proof. reflexivity. Qed.

Lemma JSON_parse_object o : JSON_parse (JObject o) = VObject (parse_props o).
Proof.
  simpl. f_equal. induction o as [|[k x] o IH]; simpl; [reflexivity|].
  now rewrite IH.
Qed.

Lemma lookup_prop_parse k o :
  lookup_prop k (parse_props o) = JSON_parse <$> lookup_prop k o.
Proof.
  induction o as [|[k' x] o IH]; simpl; [reflexivity|].
  now destruct (String.eqb k' k).
Qed.

Lemma lookup_prop_stringify k o :
  lookup_prop k (stringify_props o) =
  match lookup_prop k o with
  | Some VUndefined | None => None
  | Some x => Some (JSON_stringify x)
  end.
Proof.
  induction o as [|[k' x] o IH]; simpl; [reflexivity|].
  destruct (String.eqb k' k) eqn:E.
  - destruct x; simpl; rewrite ?E; try reflexivity.
    rewrite lookup_prop_remove. now rewrite E.
  - destruct x; simpl; rewrite ?E; try apply IH.
    rewrite lookup_prop_remove. now rewrite E.
Qed.

(** A property read after the trip is the trip of the property read. *)
Lemma read_prop_stored o k :
  read_prop (stored (VObject o)) k = stored_prop (read_prop (VObject o) k).
Proof.
  unfold stored. rewrite JSON_stringify_object, JSON_parse_object. simpl.
  rewrite lookup_prop_parse, lookup_prop_stringify.
  destruct (lookup_prop k o) as [[]|]; reflexivity.
Qed.

(** Parsing a text and writing it out again gives the text back. *)
Lemma JSON_stringify_parse j : JSON_stringify (JSON_parse j) = j.
Proof.
  induction j as [| | | |l IH|o IH] using json_nested_ind; try reflexivity.
  - simpl. f_equal. rewrite map_map.
    induction IH as [|x l Hx _ IHl]; simpl; [reflexivity|].
    now rewrite Hx, IHl.
  - rewrite JSON_parse_object, JSON_stringify_object. f_equal.
    induction IH as [|[k x] o Hx _ IHo]; simpl in *; [reflexivity|].
    rewrite IHo. destruct (JSON_parse x) eqn:E; rewrite <- Hx; try reflexivity.
    destruct x; discriminate.
Qed.

Lemma stored_parse j : stored (JSON_parse j) = JSON_parse j.
Proof. unfold stored. now rewrite JSON_stringify_parse. Qed.

(** ** Reading from [{ ...v, k: x }] *)

Lemma read_prop_spread_with_eq v k x : read_prop (spread_with v k x) k = x.
Proof. unfold spread_with. simpl. now rewrite lookup_prop_set_eq. Qed.

Lemma read_prop_spread_with_ne o k k' x :
  k <> k' -> read_prop (spread_with (VObject o) k x) k' = read_prop (VObject o) k'.
Proof. intros. unfold spread_with. simpl. now rewrite lookup_prop_set_ne. Qed.

(** ** The keys of the store *)

Lemma record_key_not_index id : record_key id <> index_key.
Proof. discriminate. Qed.

Lemma record_key_inj id id' : record_key id = record_key id' -> id = id'.
Proof. apply String.app_inj. Qed.

(** ** Running the handlers *)

Lemma listed_array w l :
  listed w = Normal l -> parse_or_empty (storage w !! index_key) = VArray l.
Proof.
  unfold listed. destruct (parse_or_empty _); simpl; congruence.
Qed.

Ltac run_handler :=
  unfold Date_now_toString, new_Date_toISOString;
  unfold try_catch, bind, read_clock, getItem, setItem, show, eval, ret;
  cbn [fst snd storage clock reads shown].

(** *** Creation *)

Lemma onSubmit_run data w l :
  listed w = Normal l ->
  CreateChecklist.onSubmit data w =
  (Normal (Some (created_id w)),
   mkWorld
     (<[record_key (created_id w) := JSON_stringify (created_record data w)]>
        (<[index_key := JSON_stringify (VArray (l ++ [created_record data w]))]>
           (storage w)))
     (clock w) (S (S (S (reads w))))
     (shown w ++ [RouterReplace ("/checklist/" +:+ created_id w)])).
Proof.
  intros Hl%listed_array. unfold CreateChecklist.onSubmit. run_handler.
  rewrite Hl. reflexivity.
Qed.

(** When the stored list is not an array, [push] throws before anything
    is written. *)
Lemma onSubmit_failed data w :
  listed w = TypeError ->
  CreateChecklist.onSubmit data w =
  (Normal None,
   mkWorld (storage w) (clock w) (S (S (S (reads w))))
     (shown w ++ [Alert "Error" "Failed to create checklist. Please try again."])).
Proof.
  intros Hl. unfold CreateChecklist.onSubmit. run_handler.
  unfold CreateChecklist.push. unfold listed in Hl. rewrite Hl. reflexivity.
Qed.

Lemma get_found id w text :
  storage w !! record_key id = Some text ->
  get id w = (Normal (ChecklistDetail.mkState (JSON_parse text) "" None), w).
Proof.
  intros H. unfold get, ChecklistDetail.loadChecklist. run_handler.
  rewrite H. reflexivity.
Qed.

Lemma get_not_found id w :
  storage w !! record_key id = None ->
  get id w =
  (Normal ChecklistDetail.initial,
   mkWorld (storage w) (clock w) (reads w)
     ((shown w ++ [Alert "Error" "Checklist not found"]) ++ [RouterBack])).
Proof.
  intros H. unfold get, ChecklistDetail.loadChecklist. run_handler.
  rewrite H. reflexivity.
Qed.

(** ** Searching a list of entries *)

Lemma id_is_not_null id x : nullish x = false -> id_is id x = Normal (has_id id x).
Proof. intros H. unfold id_is, get_prop. now rewrite H. Qed.

Lemma id_is_not_not_null id x :
  nullish x = false -> id_is_not id x = Normal (negb (has_id id x)).
Proof. intros H. unfold id_is_not, get_prop. now rewrite H. Qed.

Lemma findIndex_not_null id l :
  not_null l -> findIndex (id_is id) l = Normal (first_index (has_id id) l).
Proof.
  induction 1 as [|x l Hx _ IH]; simpl; [reflexivity|].
  rewrite (id_is_not_null _ _ Hx). simpl.
  destruct (has_id id x); [reflexivity|]. now rewrite IH.
Qed.

Lemma filter_array_not_null id l :
  not_null l ->
  filter_array (id_is_not id) l =
  Normal (List.filter (fun x => negb (has_id id x)) l).
Proof.
  induction 1 as [|x l Hx _ IH]; simpl; [reflexivity|].
  rewrite (id_is_not_not_null _ _ Hx). simpl. now rewrite IH.
Qed.

Lemma first_index_range f l :
  first_index f l = -1 \/ 0 <= first_index f l < Z.of_nat (length l).
Proof.
  induction l as [|x l IH]; simpl; [now left|].
  destruct (f x); [right; lia|].
  destruct (Z.eqb_spec (first_index f l) (-1)); [now left|right; lia].
Qed.

Lemma first_index_absent f l :
  first_index f l = -1 <-> Forall (fun x => f x = false) l.
Proof.
  induction l as [|x l IH]; simpl.
  - split; [constructor|reflexivity].
  - destruct (f x) eqn:E.
    + split; [discriminate|]. intros H. inversion H; congruence.
    + pose proof (first_index_range f l) as Hr.
      destruct (Z.eqb_spec (first_index f l) (-1)) as [e|n].
      * split; [|reflexivity]. intros _. constructor; [assumption|now apply IH].
      * split; [lia|]. intros H. inversion H; subst. tauto.
  Qed.

Lemma first_index_present f l :
  first_index f l <> -1 ->
  exists x, l !! Z.to_nat (first_index f l) = Some x /\ f x = true /\
    forall j y, (j < Z.to_nat (first_index f l))%nat -> l !! j = Some y -> f y = false.
Proof.
  induction l as [|x l IH]; simpl; [congruence|].
  destruct (f x) eqn:E.
  - intros _. exists x. simpl. repeat split; [assumption|]. intros; lia.
  - pose proof (first_index_range f l) as Hr.
    destruct (Z.eqb_spec (first_index f l) (-1)) as [e|n]; [congruence|].
    intros _. destruct (IH n) as (y & Hy & Hfy & Hbefore).
    exists y. replace (Z.to_nat (first_index f l + 1)) with (S (Z.to_nat (first_index f l))) by lia.
    simpl. repeat split; try assumption.
    intros [|j] z Hj Hz; simpl in Hz; [congruence|].
    apply (Hbefore j); [lia|assumption].
Qed.

(** ** The model of values, on examples *)

Example stringify_leaves_out_undefined :
  JSON_stringify (VObject [("id", VString "1"); ("completed", VBool false);
                           ("completed_at", VUndefined)]) =
  JObject [("id", JString "1"); ("completed", JBool false)].
Proof. reflexivity. Qed.

Example stringify_undefined_element :
  JSON_stringify (VArray [VUndefined; VNull; VString "a"]) =
  JArray [JNull; JNull; JString "a"].
Proof. reflexivity. Qed.

Example spread_with_replaces_in_place :
  spread_with (VObject [("a", VString "1"); ("b", VString "2")]) "a" (VString "3") =
  VObject [("a", VString "3"); ("b", VString "2")].
Proof. reflexivity. Qed.

Example spread_with_appends :
  spread_with (VObject [("a", VString "1")]) "b" (VString "2") =
  VObject [("a", VString "1"); ("b", VString "2")].
Proof. reflexivity. Qed.

Example get_prop_of_null_throws : get_prop VNull "make" = TypeError.
Proof. reflexivity. Qed.

Example optional_chain_of_undefined :
  optional_chain VUndefined "make" = VUndefined.
Proof. reflexivity. Qed.

Example findIndex_stops_at_match :
  findIndex (id_is "2")
    [VObject [("id", VString "1")]; VObject [("id", VString "2")]; VNull] =
  Normal 1.
Proof. reflexivity. Qed.

Example findIndex_throws_on_null :
  findIndex (id_is "2") [VObject [("id", VString "1")]; VNull] = TypeError.
Proof. reflexivity. Qed.

Example findIndex_without_match :
  findIndex (id_is "3") [VObject [("id", VString "1")]] = Normal (-1).
Proof. reflexivity. Qed.

Example vehicle_info_literal_order :
  map fst (spread_props (CreateChecklist.vehicle_info_literal
                           (CreateChecklist.vehicleInfo camry))) =
  ["make"; "model"; "year"; "series"; "bodyType"; "doors"; "assembly";
   "licensing"; "purchaseDate"; "vin"; "buildDate"; "trimCode"; "optionCode";
   "odometer"; "paintColor"; "engine"; "transmission"; "drive"; "layout";
   "rimSize"; "tyreSize"; "weight"; "wheelbase"; "length"; "height"; "width"].
Proof. reflexivity. Qed.


(** ** Saving *)

Lemma saveChecklist_run id c s w l :
  listed w = Normal l -> not_null l ->
  ChecklistDetail.saveChecklist id c s w =
  (Normal (ChecklistDetail.setChecklist (updated_record c w) s),
   mkWorld
     (let st := <[record_key id := JSON_stringify (updated_record c w)]> (storage w) in
      let i := first_index (has_id id) l in
      if i =? -1 then st
      else <[index_key :=
               JSON_stringify
                 (VArray (<[Z.to_nat i := ChecklistDetail.summary (updated_record c w)]> l))]> st)
     (clock w) (S (reads w)) (shown w)).
Proof.
  intros Hl%listed_array Hnn. unfold ChecklistDetail.saveChecklist. run_handler.
  rewrite lookup_insert_ne by apply record_key_not_index.
  rewrite Hl. cbn [array_receiver]. rewrite (findIndex_not_null _ _ Hnn).
  fold (updated_record c w).
  destruct (first_index (has_id id) l =? -1); reflexivity.
Qed.

(** Whatever the list holds, the record is written first. *)
Lemma saveChecklist_persists id c s w :
  storage (snd (ChecklistDetail.saveChecklist id c s w)) !! record_key id =
  Some (JSON_stringify (updated_record c w)).
Proof.
  unfold ChecklistDetail.saveChecklist. run_handler.
  fold (updated_record c w).
  destruct (array_receiver _) as [l|]; cbn;
    [|now rewrite lookup_insert_eq].
  destruct (findIndex _ l) as [i|]; cbn; [|now rewrite lookup_insert_eq].
  destruct (i =? -1); cbn.
  - now rewrite lookup_insert_eq.
  - rewrite lookup_insert_ne by (apply not_eq_sym, record_key_not_index).
    now rewrite lookup_insert_eq.
Qed.

(** ** The stored list *)

(** What has been read from the store reads the same when stored again. *)
Lemma listed_stable w l : listed w = Normal l -> map stored l = l.
Proof.
  intros Hl%listed_array. destruct (storage w !! index_key) as [text|]; simpl in Hl.
  - destruct text; try discriminate. simpl in Hl. injection Hl as <-.
    rewrite map_map. apply map_ext. intros j. apply stored_parse.
  - injection Hl as <-. reflexivity.
Qed.

Lemma listed_written st l c n e :
  listed (mkWorld (<[index_key := JSON_stringify (VArray l)]> st) c n e) =
  Normal (map stored l).
Proof.
  unfold listed. cbn [storage]. rewrite lookup_insert_eq. simpl.
  now rewrite map_map.
Qed.

Lemma not_null_stored l : not_null l -> not_null (map stored l).
Proof.
  unfold not_null. rewrite Forall_map. intros H.
  eapply Forall_impl; [exact H|]. intros x. now destruct x.
Qed.

Lemma stored_summary_fields u :
  Forall (fun k => read_prop (stored (ChecklistDetail.summary (VObject u))) k =
                   read_prop (stored (VObject u)) k) summary_fields.
Proof.
  unfold ChecklistDetail.summary, summary_fields.
  repeat (constructor; [now rewrite !read_prop_stored|]). constructor.
Qed.

(** ** C2: what an update writes *)

(** C2, amended.  [saveChecklist] on the screen of [id], with a stored
    list that is an array without [null]: the record it stores under
    [checklist_<id>] is the one it is given with [updated_at] set to the
    reading of the clock; if the list has an entry with that id, the first
    such entry is replaced by the five-field summary of the record, which
    agrees with what is stored of the record on every summary field, and
    all other entries stay as they are; if the list has no such entry, the
    list is left as it is and nothing is inserted.  No other key of the
    store changes. *)
Theorem saveChecklist_record_and_entry
    (id : string) (c : value) (s : ChecklistDetail.State) (w : World)
    (l : list value) :
  listed w = Normal l -> not_null l ->
  let u := updated_record c w in
  let i := first_index (has_id id) l in
  let w' := snd (ChecklistDetail.saveChecklist id c s w) in
  fst (ChecklistDetail.saveChecklist id c s w) =
    Normal (ChecklistDetail.setChecklist u s) /\
  read_prop u "updated_at" = VString (toISOString (clock w (reads w))) /\
  storage w' !! record_key id = Some (JSON_stringify u) /\
  (i = -1 ->
   listed w' = Normal l /\ storage w' !! index_key = storage w !! index_key) /\
  (i <> -1 ->
   let e := stored (ChecklistDetail.summary u) in
   listed w' = Normal (<[Z.to_nat i := e]> l) /\
   <[Z.to_nat i := e]> l !! Z.to_nat i = Some e /\
   (forall j, j <> Z.to_nat i -> <[Z.to_nat i := e]> l !! j = l !! j) /\
   Forall (fun k => read_prop e k = read_prop (stored u) k) summary_fields) /\
  (forall k, k <> record_key id -> k <> index_key ->
             storage w' !! k = storage w !! k).
Proof.
  intros Hl Hnn u i w'. subst w'.
  rewrite (saveChecklist_run id c s w l Hl Hnn). cbn [fst snd storage].
  fold u. fold i.
  split; [reflexivity|]. split; [apply read_prop_spread_with_eq|].
  split.
  { destruct (i =? -1).
    - apply lookup_insert_eq.
    - rewrite lookup_insert_ne by (apply not_eq_sym, record_key_not_index).
      apply lookup_insert_eq. }
  split.
  { intros ->. cbn. unfold listed in *. cbn [storage].
    rewrite lookup_insert_ne by apply record_key_not_index. now split. }
  split.
  { intros Hi. destruct (Z.eqb_spec i (-1)) as [|_]; [contradiction|].
    split.
    { rewrite listed_written, list_fmap_insert.
      change (stored <$> l) with (map stored l). now rewrite (listed_stable _ _ Hl). }
    split.
    { apply list_lookup_insert_eq.
      pose proof (first_index_range (has_id id) l). fold i in H. lia. }
    split.
    { intros j Hj. apply list_lookup_insert_ne. congruence. }
    apply stored_summary_fields. }
  intros k Hk Hk'. destruct (i =? -1).
  - now rewrite lookup_insert_ne.
  - rewrite lookup_insert_ne by congruence. now rewrite lookup_insert_ne.
Qed.

Lemma saveChecklist_record_and_entry_witness :
  listed camry_created = Normal [camry_record] /\
  not_null [camry_record] /\
  storage (snd (ChecklistDetail.saveChecklist camry_id camry_record
                  ChecklistDetail.initial camry_created)) !! record_key camry_id =
  Some (JSON_stringify (updated_record camry_record camry_created)).
Proof.
  assert (H1 : listed camry_created = Normal [camry_record])
    by (vm_compute; reflexivity).
  assert (H2 : not_null [camry_record]) by (repeat constructor).
  split; [exact H1|]. split; [exact H2|].
  exact (proj1 (proj2 (proj2
    (saveChecklist_record_and_entry camry_id camry_record
       ChecklistDetail.initial camry_created [camry_record] H1 H2)))).
Defined.

(** C2 as stated fails: after the Camry's entry has been deleted from the
    list, its record is still stored, and saving that record neither
    restores nor inserts an entry: the list stays empty. *)
Lemma saveChecklist_does_not_insert :
  storage camry_deleted !! record_key camry_id =
    Some (JSON_stringify camry_record) /\
  listed camry_deleted = Normal [] /\
  listed (snd (ChecklistDetail.saveChecklist camry_id camry_record
                 ChecklistDetail.initial camry_deleted)) = Normal [].
Proof. vm_compute. repeat split. Qed.

(** ** C1: deletion *)

Lemma listSummaries_run w :
  listSummaries w = (Normal (parse_or_empty (storage w !! index_key)), w).
Proof.
  unfold listSummaries, Index.loadChecklists. run_handler.
  now destruct (storage w !! index_key).
Qed.

Lemma delete_run id w l :
  listed w = Normal l -> not_null l ->
  delete id w =
  (Normal (VArray (List.filter (fun x => negb (has_id id x)) l)),
   mkWorld
     (<[index_key :=
          JSON_stringify (VArray (List.filter (fun x => negb (has_id id x)) l))]>
        (storage w))
     (clock w) (reads w) (shown w)).
Proof.
  intros Hl%listed_array Hnn. unfold delete, bind. rewrite listSummaries_run.
  unfold Index.handleDeleteChecklist. run_handler.
  rewrite Hl. cbn [array_receiver]. rewrite (filter_array_not_null _ _ Hnn).
  reflexivity.
Qed.

Lemma stored_filter f l : map stored l = l -> map stored (List.filter f l) = List.filter f l.
Proof.
  induction l as [|x l IH]; simpl; [reflexivity|].
  intros H. injection H as Hx Hl. destruct (f x); simpl; rewrite ?Hx, IH; auto.
Qed.

(** C1, amended.  Deleting [id] on the list screen, with a stored list
    that is an array without [null]: every entry with that id is filtered
    out of the list stored under [vehicle_checklists], the other entries
    keep their order, and [listSummaries] shows the filtered list.  No
    other key is written: the full record stays under [checklist_<id>],
    and [get] returns afterwards what it returned before. *)
Theorem delete_filters_list_only (id : string) (w : World) (l : list value) :
  listed w = Normal l -> not_null l ->
  let l' := List.filter (fun x => negb (has_id id x)) l in
  let w' := snd (delete id w) in
  fst (delete id w) = Normal (VArray l') /\
  fst (listSummaries w') = Normal (VArray l') /\
  Forall (fun x => has_id id x = false) l' /\
  (forall k, k <> index_key -> storage w' !! k = storage w !! k) /\
  storage w' !! record_key id = storage w !! record_key id /\
  fst (get id w') = fst (get id w).
Proof.
  intros Hl Hnn l' w'. subst w'. rewrite (delete_run id w l Hl Hnn).
  cbn [fst snd]. fold l'.
  assert (Hkeep : forall k, k <> index_key ->
            (<[index_key := JSON_stringify (VArray l')]> (storage w)) !! k
            = storage w !! k)
    by (intros k Hk; now rewrite lookup_insert_ne).
  split; [reflexivity|]. split.
  { rewrite listSummaries_run. cbn [fst storage]. rewrite lookup_insert_eq.
    simpl. rewrite map_map. do 2 f_equal.
    change (map (fun x => JSON_parse (JSON_stringify x)) l') with (map stored l').
    apply stored_filter, (listed_stable _ _ Hl). }
  split.
  { subst l'. apply List.Forall_forall. intros x [_ Hx]%List.filter_In.
    now apply negb_true_iff. }
  split; [exact Hkeep|]. split; [apply Hkeep, record_key_not_index|].
  unfold get, ChecklistDetail.loadChecklist. run_handler.
  rewrite (Hkeep _ (record_key_not_index id)).
  now destruct (storage w !! record_key id).
Qed.

Lemma delete_filters_list_only_witness :
  listed camry_created = Normal [camry_record] /\
  not_null [camry_record] /\
  fst (delete camry_id camry_created) = Normal (VArray []).
Proof.
  assert (H1 : listed camry_created = Normal [camry_record])
    by (vm_compute; reflexivity).
  assert (H2 : not_null [camry_record]) by (repeat constructor).
  split; [exact H1|]. split; [exact H2|].
  exact (proj1 (delete_filters_list_only camry_id camry_created [camry_record] H1 H2)).
Defined.

(** C1 as stated fails: after the Camry has been created and deleted,
    [get] still finds its record, and no "Checklist not found" is shown. *)
Lemma get_after_delete_finds_record :
  fst (get camry_id camry_deleted) =
    Normal (ChecklistDetail.mkState camry_record "" None) /\
  storage camry_deleted !! record_key camry_id = Some (JSON_stringify camry_record) /\
  shown (snd (get camry_id camry_deleted)) =
    [RouterReplace ("/checklist/" +:+ camry_id)].
Proof. vm_compute. repeat split. Qed.

(** ** C9 and C4: creation *)

(** C9.  When the form's title is the empty string and the stored list
    is an array, the checklist that [onSubmit] builds, and that [get]
    returns for its id, has the title "<year> <make> <model>". *)
Theorem title_defaults_to_year_make_model
    (data : CreateChecklist.FormData) (w : World) (l : list value) :
  listed w = Normal l ->
  CreateChecklist.title data = "" ->
  let v := CreateChecklist.vehicleInfo data in
  let t := CreateChecklist.year v +:+ " " +:+ CreateChecklist.make v +:+ " "
           +:+ CreateChecklist.model v in
  read_prop (created_record data w) "title" = VString t /\
  exists c,
    fst (get (created_id w) (snd (CreateChecklist.onSubmit data w))) =
      Normal (ChecklistDetail.mkState c "" None) /\
    read_prop c "title" = VString t.
Proof.
  intros Hl Ht v t.
  assert (Hbuilt : read_prop (created_record data w) "title" = VString t).
  { cbn. unfold CreateChecklist.title_or_default, js_or. rewrite Ht. reflexivity. }
  split; [exact Hbuilt|].
  exists (stored (created_record data w)).
  rewrite (onSubmit_run _ _ _ Hl). cbn [snd]. split.
  - erewrite get_found; [reflexivity|]. cbn [storage]. apply lookup_insert_eq.
  - unfold created_record, CreateChecklist.newChecklist in *.
    rewrite read_prop_stored, Hbuilt. reflexivity.
Qed.

Lemma title_defaults_to_year_make_model_witness :
  listed (fresh_install 1700000000000) = Normal [] /\
  CreateChecklist.title camry = "" /\
  read_prop (created_record camry (fresh_install 1700000000000)) "title" =
    VString "2023 Toyota Camry".
Proof.
  split; [reflexivity|]. split; [reflexivity|].
  exact (proj1 (title_defaults_to_year_make_model camry
                  (fresh_install 1700000000000) [] eq_refl eq_refl)).
Defined.

(** C4, amended.  When the stored list is an array, [onSubmit] followed
    by [get] on the new id returns a record with that id, the title of the
    form if it has one, every field of the form's vehicle and engine info,
    four empty item lists and an empty photo list; [created_at] and
    [updated_at] are the second and the third reading that [onSubmit]
    takes of the clock, and are equal when the two readings are. *)
Theorem create_then_get
    (data : CreateChecklist.FormData) (w : World) (l : list value) :
  listed w = Normal l ->
  exists c,
    fst (CreateChecklist.onSubmit data w) = Normal (Some (created_id w)) /\
    fst (get (created_id w) (snd (CreateChecklist.onSubmit data w))) =
      Normal (ChecklistDetail.mkState c "" None) /\
    read_prop c "id" = VString (created_id w) /\
    (CreateChecklist.title data <> "" ->
     read_prop c "title" = VString (CreateChecklist.title data)) /\
    Forall (fun kv => read_prop (read_prop c "vehicle_info") kv.1 = kv.2)
      (CreateChecklist.vehicleInfo_props (CreateChecklist.vehicleInfo data)) /\
    read_prop c "engine_info" =
      VObject (CreateChecklist.engineInfo_props (CreateChecklist.engineInfo data)) /\
    Forall (fun k => read_prop c k = VArray []) (task_lists ++ ["photos"]) /\
    read_prop c "created_at" = VString (toISOString (clock w (S (reads w)))) /\
    read_prop c "updated_at" = VString (toISOString (clock w (S (S (reads w))))) /\
    (clock w (S (reads w)) = clock w (S (S (reads w))) ->
     read_prop c "created_at" = read_prop c "updated_at").
Proof.
  intros Hl. exists (stored (created_record data w)).
  rewrite (onSubmit_run _ _ _ Hl). cbn [fst snd].
  split; [reflexivity|]. split.
  { erewrite get_found; [reflexivity|]. cbn [storage]. apply lookup_insert_eq. }
  unfold created_record, CreateChecklist.newChecklist.
  rewrite !read_prop_stored.
  repeat apply conj.
  - reflexivity.
  - intros Ht. cbn. unfold CreateChecklist.title_or_default, js_or. cbn.
    destruct (String.eqb_spec (CreateChecklist.title data) ""); [contradiction|].
    reflexivity.
  - destruct data as [t v e]. destruct v. cbn. repeat constructor.
  - destruct data as [t v e]. destruct e. reflexivity.
  - unfold task_lists. cbn [app].
    repeat (constructor; [rewrite read_prop_stored; reflexivity|]). constructor.
  - reflexivity.
  - reflexivity.
  - intros ->. reflexivity.
Qed.

Lemma create_then_get_witness :
  listed (frozen_install 1700000000000) = Normal [] /\
  fst (CreateChecklist.onSubmit camry (frozen_install 1700000000000)) =
    Normal (Some camry_id).
Proof.
  split; [reflexivity|].
  destruct (create_then_get camry (frozen_install 1700000000000) [] eq_refl)
    as (c & H & _).
  exact H.
Defined.

(** C4 as stated fails: on a device whose clock advances by a
    millisecond between two readings, the record that [get] returns for
    the Camry just created has a [created_at] that differs from its
    [updated_at]. *)
Lemma created_at_differs_from_updated_at :
  fst (get camry_id camry_created) =
    Normal (ChecklistDetail.mkState camry_record "" None) /\
  read_prop camry_record "created_at" = VString "2023-11-14T22:13:20.001Z" /\
  read_prop camry_record "updated_at" = VString "2023-11-14T22:13:20.002Z" /\
  read_prop camry_record "created_at" <> read_prop camry_record "updated_at".
Proof. vm_compute. repeat split. discriminate. Qed.

(** ** The handlers of the detail screen *)

Lemma listed_tick w : listed (tick w) = listed w.
Proof. reflexivity. Qed.

Lemma addItem_blank id section s w :
  trim (ChecklistDetail.newItemText s) = "" ->
  ChecklistDetail.addItem id section s w = (Normal s, w).
Proof.
  intros H. unfold ChecklistDetail.addItem. rewrite H. cbn.
  now rewrite orb_true_r.
Qed.

Lemma addItem_run id section s w o items :
  ChecklistDetail.checklist s = VObject o ->
  read_prop (VObject o) section = VArray items ->
  trim (ChecklistDetail.newItemText s) <> "" ->
  ChecklistDetail.addItem id section s w =
  (let (r, w') :=
     ChecklistDetail.saveChecklist id
       (spread_with (VObject o) section
          (VArray (items ++ [new_item w (ChecklistDetail.newItemText s)])))
       s (tick w) in
   match r with
   | Normal s' => (Normal (ChecklistDetail.mkState (ChecklistDetail.checklist s') "" None), w')
   | TypeError => (TypeError, w')
   end).
Proof.
  intros Hc Hitems Htext. unfold ChecklistDetail.addItem. rewrite Hc.
  cbn [truthy negb orb].
  destruct (String.eqb_spec (trim (ChecklistDetail.newItemText s)) ""); [contradiction|].
  cbn [negb]. run_handler. unfold get_prop. cbn [nullish completion_bind].
  rewrite Hitems. cbn [iterate]. reflexivity.
Qed.

Lemma toggled_run item w :
  nullish item = false ->
  ChecklistDetail.toggled item w =
  (Normal (toggled_item item (clock w (reads w))),
   if becomes_completed item then tick w else w).
Proof.
  intros H. unfold ChecklistDetail.toggled. run_handler. unfold get_prop.
  rewrite H. unfold toggled_item, becomes_completed, js_not. cbn [truthy].
  now destruct (negb (truthy (read_prop item "completed"))).
Qed.

Lemma not_null_lookup l (n : nat) x : not_null l -> l !! n = Some x -> nullish x = false.
Proof.
  intros Hnn Hx. unfold not_null in Hnn. rewrite Forall_lookup in Hnn.
  exact (Hnn n x Hx).
Qed.

Lemma toggleItem_run id section itemId s w o items :
  ChecklistDetail.checklist s = VObject o ->
  read_prop (VObject o) section = VArray items ->
  not_null items ->
  ChecklistDetail.toggleItem id section itemId s w =
  (let i := first_index (has_id itemId) items in
   if i =? -1 then (Normal s, w)
   else
     let item := default VUndefined (items !! Z.to_nat i) in
     ChecklistDetail.saveChecklist id
       (spread_with (VObject o) section
          (VArray (<[Z.to_nat i := toggled_item item (clock w (reads w))]> items)))
       s (if becomes_completed item then tick w else w)).
Proof.
  intros Hc Hitems Hnn. unfold ChecklistDetail.toggleItem. rewrite Hc.
  cbn [truthy negb]. unfold bind at 1. unfold eval at 1. unfold get_prop.
  cbn [nullish completion_bind]. rewrite Hitems. cbn [iterate].
  unfold bind at 1. unfold eval at 1. rewrite (findIndex_not_null _ _ Hnn).
  cbn zeta. destruct (Z.eqb_spec (first_index (has_id itemId) items) (-1)) as [|Hi];
    [reflexivity|].
  destruct (first_index_present _ _ Hi) as (x & Hx & _).
  rewrite Hx. change (default VUndefined (Some x)) with x. unfold bind at 1.
  rewrite (toggled_run _ _ (not_null_lookup _ _ _ Hnn Hx)). reflexivity.
Qed.

Lemma saveChecklist_state id c s w l :
  listed w = Normal l -> not_null l ->
  fst (ChecklistDetail.saveChecklist id c s w) =
  Normal (ChecklistDetail.setChecklist (updated_record c w) s).
Proof. intros Hl Hnn. now rewrite (saveChecklist_run id c s w l Hl Hnn). Qed.

Lemma task_list_not_updated_at section : In section task_lists -> section <> "updated_at".
Proof. unfold task_lists. simpl. intros [<-|[<-|[<-|[<-|[]]]]]; discriminate. Qed.

Lemma read_updated_record o k x w section :
  section <> "updated_at" ->
  read_prop (updated_record (spread_with (VObject o) section x) w) k =
  if String.eqb k "updated_at" then VString (toISOString (clock w (reads w)))
  else if String.eqb k section then x
  else read_prop (VObject o) k.
Proof.
  intros Hs. unfold updated_record.
  destruct (String.eqb_spec k "updated_at") as [->|Hk].
  - apply read_prop_spread_with_eq.
  - unfold spread_with. cbn [spread_props read_prop].
    rewrite lookup_prop_set_ne by congruence.
    destruct (String.eqb_spec k section) as [->|Hk'].
    + now rewrite lookup_prop_set_eq.
    + now rewrite lookup_prop_set_ne by congruence.
Qed.

(** ** C5: appending an item *)

(** C5, amended.  On a detail screen that holds a checklist object whose
    list [section], one of the four, is an array, over a store whose list
    is an array without [null]: [addItem] leaves screen and store as they
    are when the trimmed text is empty; otherwise it passes to
    [saveChecklist] the checklist with one new item at the end of that
    list, and the screen then holds, and the store keeps, the record so
    saved.  The item has the trimmed text, [completed: false], no
    [completed_at], and as id the numeral of the reading of the clock: an
    id that differs from the id of every item of the list that is the
    numeral of another time value. *)
Theorem addItem_appends_one_item
    (id section : string) (s : ChecklistDetail.State) (w : World)
    (o : props) (items l : list value) :
  ChecklistDetail.checklist s = VObject o ->
  In section task_lists ->
  read_prop (VObject o) section = VArray items ->
  listed w = Normal l -> not_null l ->
  (trim (ChecklistDetail.newItemText s) = "" ->
   ChecklistDetail.addItem id section s w = (Normal s, w)) /\
  (trim (ChecklistDetail.newItemText s) <> "" ->
   let item := new_item w (ChecklistDetail.newItemText s) in
   let updatedChecklist :=
     spread_with (VObject o) section (VArray (items ++ [item])) in
   let c' := updated_record updatedChecklist (tick w) in
   fst (ChecklistDetail.addItem id section s w) =
     Normal (ChecklistDetail.mkState c' "" None) /\
   snd (ChecklistDetail.addItem id section s w) =
     snd (ChecklistDetail.saveChecklist id updatedChecklist s (tick w)) /\
   storage (snd (ChecklistDetail.addItem id section s w)) !! record_key id =
     Some (JSON_stringify c') /\
   read_prop c' section = VArray (items ++ [item]) /\
   read_prop item "id" = VString (pretty (clock w (reads w))) /\
   read_prop item "text" = VString (trim (ChecklistDetail.newItemText s)) /\
   read_prop item "completed" = VBool false /\
   read_prop item "completed_at" = VUndefined /\
   (forall x t, In x items -> read_prop x "id" = VString (pretty t) ->
                t <> clock w (reads w) ->
                has_id (pretty (clock w (reads w))) x = false)).
Proof.
  intros Hc Hsec Hitems Hl Hnn. split; [apply addItem_blank|].
  intros Htext item updatedChecklist c'.
  rewrite (addItem_run id section s w o items Hc Hitems Htext).
  fold item. fold updatedChecklist.
  pose proof (saveChecklist_state id updatedChecklist s (tick w) l Hl Hnn) as Hst.
  pose proof (saveChecklist_persists id updatedChecklist s (tick w)) as Hp.
  destruct (ChecklistDetail.saveChecklist id updatedChecklist s (tick w)) as [r w'].
  cbn [fst snd] in *. subst r. cbn [fst snd ChecklistDetail.setChecklist
    ChecklistDetail.checklist].
  repeat apply conj; try reflexivity.
  - exact Hp.
  - subst c' updatedChecklist.
    rewrite read_updated_record by now apply task_list_not_updated_at.
    destruct (String.eqb_spec section "updated_at") as [E|_].
    + now apply task_list_not_updated_at in Hsec.
    + now rewrite String.eqb_refl.
  - intros x t _ Hx Ht. unfold has_id. rewrite Hx. cbn.
    apply String.eqb_neq. intros E. apply Ht. now apply (inj pretty).
Qed.

Lemma addItem_appends_one_item_witness :
  ChecklistDetail.checklist (camry_screen "  Replace timing belt ") = VObject camry_props /\
  In "tasks" task_lists /\
  read_prop (VObject camry_props) "tasks" = VArray [] /\
  listed camry_created = Normal [camry_record] /\
  not_null [camry_record] /\
  trim "  Replace timing belt " <> "" /\
  read_prop
    (updated_record
       (spread_with (VObject camry_props) "tasks"
          (VArray ([] ++ [new_item camry_created "  Replace timing belt "])))
       (tick camry_created)) "tasks" =
  VArray [VObject [("id", VString "1700000000003");
                   ("text", VString "Replace timing belt");
                   ("completed", VBool false)]].
Proof.
  assert (H1 : ChecklistDetail.checklist (camry_screen "  Replace timing belt ")
               = VObject camry_props) by (vm_compute; reflexivity).
  assert (H2 : In "tasks" task_lists) by (left; reflexivity).
  assert (H3 : read_prop (VObject camry_props) "tasks" = VArray [])
    by (vm_compute; reflexivity).
  assert (H4 : listed camry_created = Normal [camry_record])
    by (vm_compute; reflexivity).
  assert (H5 : not_null [camry_record]) by (repeat constructor).
  assert (H6 : trim "  Replace timing belt " <> "") by (vm_compute; discriminate).
  repeat (split; [assumption|]).
  destruct (addItem_appends_one_item camry_id "tasks" _ _ _ _ _ H1 H2 H3 H4 H5)
    as [_ H].
  destruct (H H6) as (_ & _ & _ & Hlist & _).
  exact Hlist.
Defined.

(** C5 as stated fails: the id is not always fresh.  Two tasks added
    while the clock shows the same millisecond get the same id. *)
Lemma items_added_in_one_millisecond_share_id :
  read_prop (ChecklistDetail.checklist (fst first_task_added)) "tasks" =
    VArray [VObject [("id", VString "1700000000000");
                     ("text", VString "Replace timing belt");
                     ("completed", VBool false)]] /\
  read_prop (ChecklistDetail.checklist (fst second_task_added)) "tasks" =
    VArray [VObject [("id", VString "1700000000000");
                     ("text", VString "Replace timing belt");
                     ("completed", VBool false)];
            VObject [("id", VString "1700000000000");
                     ("text", VString "Check oil");
                     ("completed", VBool false)]] /\
  storage (snd second_task_added) !! record_key camry_id =
    Some (JSON_stringify (ChecklistDetail.checklist (fst second_task_added))).
Proof. vm_compute. repeat split. Qed.

(** ** Toggled items *)

Lemma has_id_object id x : has_id id x = true -> exists o, x = VObject o.
Proof.
  unfold has_id. destruct x; cbn; try discriminate. eauto.
Qed.

Lemma read_toggled_completed item now :
  read_prop (toggled_item item now) "completed" = VBool (becomes_completed item).
Proof.
  unfold toggled_item. cbn [read_prop].
  rewrite lookup_prop_set_ne by discriminate. now rewrite lookup_prop_set_eq.
Qed.

Lemma read_toggled_completed_at item now :
  read_prop (toggled_item item now) "completed_at" =
  if becomes_completed item then VString (toISOString now) else VUndefined.
Proof. unfold toggled_item. cbn [read_prop]. now rewrite lookup_prop_set_eq. Qed.

Lemma read_toggled_other o k now :
  k <> "completed" -> k <> "completed_at" ->
  read_prop (toggled_item (VObject o) now) k = read_prop (VObject o) k.
Proof.
  intros H1 H2. unfold toggled_item. cbn [read_prop spread_props].
  now rewrite !lookup_prop_set_ne by congruence.
Qed.

Lemma has_id_toggled id o now :
  has_id id (toggled_item (VObject o) now) = has_id id (VObject o).
Proof. unfold has_id. now rewrite read_toggled_other by discriminate. Qed.

Lemma becomes_completed_toggled item now :
  becomes_completed (toggled_item item now) = negb (becomes_completed item).
Proof.
  unfold becomes_completed at 1. rewrite read_toggled_completed. reflexivity.
Qed.

Lemma first_index_insert f l (n : nat) x x' :
  l !! n = Some x -> f x' = f x ->
  first_index f (<[n := x']> l) = first_index f l.
Proof.
  revert n. induction l as [|y l IH]; intros [|n] Hx Hf; simpl in *; try discriminate.
  - injection Hx as ->. now rewrite Hf.
  - now rewrite (IH n Hx Hf).
Qed.

Lemma not_null_insert l (n : nat) x :
  not_null l -> nullish x = false -> not_null (<[n := x]> l).
Proof. intros. now apply Forall_insert. Qed.

Lemma saveChecklist_listed id c s w l :
  listed w = Normal l -> not_null l ->
  exists l', listed (snd (ChecklistDetail.saveChecklist id c s w)) = Normal l' /\
             not_null l'.
Proof.
  intros Hl Hnn. rewrite (saveChecklist_run id c s w l Hl Hnn). cbn [snd].
  destruct (first_index (has_id id) l =? -1).
  - exists l. split; [|assumption]. unfold listed in *. cbn [storage].
    now rewrite lookup_insert_ne by apply record_key_not_index.
  - eexists. split; [apply listed_written|].
    apply not_null_stored, not_null_insert; [assumption|reflexivity].
Qed.

(** One toggle of an item that is in the list. *)
Lemma toggleItem_once id section itemId s w o items l item :
  ChecklistDetail.checklist s = VObject o ->
  In section task_lists ->
  read_prop (VObject o) section = VArray items -> not_null items ->
  listed w = Normal l -> not_null l ->
  first_index (has_id itemId) items <> -1 ->
  items !! Z.to_nat (first_index (has_id itemId) items) = Some item ->
  let i := Z.to_nat (first_index (has_id itemId) items) in
  let items' := <[i := toggled_item item (clock w (reads w))]> items in
  let w0 := if becomes_completed item then tick w else w in
  let c' := updated_record (spread_with (VObject o) section (VArray items')) w0 in
  exists w' l',
    ChecklistDetail.toggleItem id section itemId s w =
      (Normal (ChecklistDetail.setChecklist c' s), w') /\
    read_prop c' section = VArray items' /\
    not_null items' /\
    first_index (has_id itemId) items' = first_index (has_id itemId) items /\
    listed w' = Normal l' /\ not_null l' /\
    storage w' !! record_key id = Some (JSON_stringify c').
Proof.
  intros Hc Hsec Hitems Hnn Hl Hnl Hi Hitem i items' w0 c'.
  pose proof (task_list_not_updated_at _ Hsec) as Hne.
  assert (Hl0 : listed w0 = Normal l) by (subst w0; now destruct (becomes_completed item)).
  assert (Hclock : clock w0 = clock w /\ storage w0 = storage w)
    by (subst w0; now destruct (becomes_completed item)).
  rewrite (toggleItem_run id section itemId s w o items Hc Hitems Hnn). cbn zeta.
  destruct (Z.eqb_spec (first_index (has_id itemId) items) (-1)); [contradiction|].
  rewrite Hitem. change (default VUndefined (Some item)) with item.
  fold i. fold items'. fold w0.
  pose proof (saveChecklist_state id
    (spread_with (VObject o) section (VArray items')) s w0 l Hl0 Hnl) as Hst.
  pose proof (saveChecklist_persists id
    (spread_with (VObject o) section (VArray items')) s w0) as Hp.
  destruct (saveChecklist_listed id
    (spread_with (VObject o) section (VArray items')) s w0 l Hl0 Hnl) as (l' & Hl' & Hnl').
  destruct (ChecklistDetail.saveChecklist id _ s w0) as [r w'].
  cbn [fst snd] in *. subst r. exists w', l'.
  destruct (first_index_present _ _ Hi) as (x & Hx & Hfx & _).
  rewrite Hitem in Hx. injection Hx as <-.
  destruct (has_id_object _ _ Hfx) as [oi ->].
  repeat apply conj; try assumption; try reflexivity.
  - subst c'. rewrite read_updated_record by assumption.
    destruct (String.eqb_spec section "updated_at"); [contradiction|].
    now rewrite String.eqb_refl.
  - apply not_null_insert; [assumption|reflexivity].
  - subst items'. apply (first_index_insert _ _ _ (VObject oi)); [assumption|].
    apply has_id_toggled.
Qed.

(** ** C6: toggling twice *)

(** C6, amended.  On a detail screen that holds a checklist object whose
    list [section], one of the four, is an array without [null] that has
    an item with id [itemId], over a store whose list is an array without
    [null]: two calls of [toggleItem] in a row act on the same item, the
    first one with that id, and leave every other item of the list as it
    was.  After the first call its [completed] is the negation of what it
    was and its [completed_at] is the reading of the clock if it has
    become completed and [undefined] if not; after the second call
    [completed] is negated again, so that it has its first truth value.
    An item that was not completed is therefore back at
    [completed: false] with [completed_at] undefined, on the screen and
    in the stored record; an item that was completed is completed again,
    with the reading of the clock at the second call as [completed_at]. *)
Theorem toggleItem_twice
    (id section itemId : string) (s : ChecklistDetail.State) (w : World)
    (o : props) (items l : list value) (item : value) :
  ChecklistDetail.checklist s = VObject o ->
  In section task_lists ->
  read_prop (VObject o) section = VArray items -> not_null items ->
  listed w = Normal l -> not_null l ->
  first_index (has_id itemId) items <> -1 ->
  items !! Z.to_nat (first_index (has_id itemId) items) = Some item ->
  let i := Z.to_nat (first_index (has_id itemId) items) in
  exists s1 w1 s2 w2 item1 item2,
    ChecklistDetail.toggleItem id section itemId s w = (Normal s1, w1) /\
    ChecklistDetail.toggleItem id section itemId s1 w1 = (Normal s2, w2) /\
    (exists items1,
       read_prop (ChecklistDetail.checklist s1) section = VArray items1 /\
       items1 !! i = Some item1) /\
    (exists items2,
       read_prop (ChecklistDetail.checklist s2) section = VArray items2 /\
       items2 !! i = Some item2 /\
       forall j : nat, j <> i -> items2 !! j = items !! j) /\
    read_prop item1 "completed" = VBool (negb (truthy (read_prop item "completed"))) /\
    read_prop item1 "completed_at" =
      (if truthy (read_prop item "completed") then VUndefined
       else VString (toISOString (clock w (reads w)))) /\
    read_prop item2 "completed" = VBool (truthy (read_prop item "completed")) /\
    read_prop item2 "completed_at" =
      (if truthy (read_prop item "completed")
       then VString (toISOString (clock w1 (reads w1)))
       else VUndefined) /\
    (truthy (read_prop item "completed") = false ->
     read_prop item2 "completed" = VBool false /\
     read_prop item2 "completed_at" = VUndefined /\
     read_prop (stored item2) "completed_at" = VUndefined) /\
    (truthy (read_prop item "completed") = true ->
     read_prop item2 "completed" = VBool true /\
     read_prop item2 "completed_at" = VString (toISOString (clock w1 (reads w1))) /\
     read_prop (stored item2) "completed_at" =
       VString (toISOString (clock w1 (reads w1)))) /\
    storage w2 !! record_key id = Some (JSON_stringify (ChecklistDetail.checklist s2)).
Proof.
  intros Hc Hsec Hitems Hnn Hl Hnl Hi Hitem i.
  destruct (toggleItem_once id section itemId s w o items l item
              Hc Hsec Hitems Hnn Hl Hnl Hi Hitem)
    as (w1 & l1 & Hrun1 & Hread1 & Hnn1 & Hidx1 & Hl1 & Hnl1 & _).
  fold i in Hrun1, Hread1, Hnn1, Hidx1.
  set (item1 := toggled_item item (clock w (reads w))) in *.
  set (items1 := <[i := item1]> items) in *.
  set (c1 := updated_record (spread_with (VObject o) section (VArray items1))
               (if becomes_completed item then tick w else w)) in *.
  assert (Hlen : (i < length items)%nat) by (apply lookup_lt_Some in Hitem; exact Hitem).
  assert (Hitem1 : items1 !! i = Some item1)
    by (subst items1; now apply list_lookup_insert_eq).
  assert (Hi1 : first_index (has_id itemId) items1 <> -1) by congruence.
  assert (Hc1 : ChecklistDetail.checklist (ChecklistDetail.setChecklist c1 s) =
                VObject (spread_props c1)) by reflexivity.
  assert (Hread1' : read_prop (VObject (spread_props c1)) section = VArray items1)
    by exact Hread1.
  assert (Hitem1' : items1 !! Z.to_nat (first_index (has_id itemId) items1)
                    = Some item1) by (rewrite Hidx1; exact Hitem1).
  destruct (toggleItem_once id section itemId (ChecklistDetail.setChecklist c1 s) w1
              (spread_props c1) items1 l1 item1
              Hc1 Hsec Hread1' Hnn1 Hl1 Hnl1 Hi1 Hitem1')
    as (w2 & l2 & Hrun2 & Hread2 & _ & _ & _ & _ & Hp2).
  rewrite Hidx1 in Hrun2, Hread2, Hp2. fold i in Hrun2, Hread2, Hp2.
  set (item2 := toggled_item item1 (clock w1 (reads w1))) in *.
  set (items2 := <[i := item2]> items1) in *.
  eexists _, w1, _, w2, item1, item2.
  split; [exact Hrun1|]. split; [exact Hrun2|].
  split; [exists items1; split; [exact Hread1|]|].
  { subst items1. now apply list_lookup_insert_eq. }
  split; [exists items2; split; [exact Hread2|split]|].
  { subst items2 items1. apply list_lookup_insert_eq. now rewrite length_insert. }
  { intros j Hj. subst items2 items1.
    now rewrite !list_lookup_insert_ne by congruence. }
  assert (H2c : read_prop item2 "completed" = VBool (truthy (read_prop item "completed"))).
  { subst item2. rewrite read_toggled_completed. subst item1.
    rewrite becomes_completed_toggled. unfold becomes_completed.
    now rewrite negb_involutive. }
  assert (H2a : read_prop item2 "completed_at" =
                (if truthy (read_prop item "completed")
                 then VString (toISOString (clock w1 (reads w1))) else VUndefined)).
  { subst item2. rewrite read_toggled_completed_at. subst item1.
    rewrite becomes_completed_toggled. unfold becomes_completed.
    rewrite negb_involutive. reflexivity. }
  split; [subst item1; now rewrite read_toggled_completed|].
  split.
  { subst item1. rewrite read_toggled_completed_at. unfold becomes_completed.
    now destruct (truthy (read_prop item "completed")). }
  assert (Hstored : read_prop (stored item2) "completed_at" =
                    stored_prop (read_prop item2 "completed_at")).
  { subst item2. unfold toggled_item at 1. rewrite read_prop_stored.
    now fold (toggled_item item1 (clock w1 (reads w1))). }
  split; [exact H2c|]. split; [exact H2a|]. split; [|split; [|exact Hp2]].
  - intros Hfalse. rewrite Hfalse in H2c, H2a. repeat split; try assumption.
    now rewrite Hstored, H2a.
  - intros Htrue. rewrite Htrue in H2c, H2a. repeat split; try assumption.
    now rewrite Hstored, H2a.
Qed.

Lemma toggleItem_twice_witness :
  ChecklistDetail.checklist (fst camry_with_task) = VObject camry_task_props /\
  In "tasks" task_lists /\
  read_prop (VObject camry_task_props) "tasks" = VArray [timing_belt] /\
  not_null [timing_belt] /\
  listed (snd camry_with_task) = Normal (camry_entries (snd camry_with_task)) /\
  not_null (camry_entries (snd camry_with_task)) /\
  first_index (has_id "1700000000003") [timing_belt] <> -1 /\
  [timing_belt] !! Z.to_nat (first_index (has_id "1700000000003") [timing_belt]) =
    Some timing_belt /\
  exists item1 item2,
    read_prop item1 "completed" = VBool true /\
    read_prop item1 "completed_at" = VString "2023-11-14T22:13:20.005Z" /\
    read_prop item2 "completed" = VBool false /\
    read_prop item2 "completed_at" = VUndefined.
Proof.
  assert (H1 : ChecklistDetail.checklist (fst camry_with_task) = VObject camry_task_props)
    by (vm_compute; reflexivity).
  assert (H2 : In "tasks" task_lists) by (left; reflexivity).
  assert (H3 : read_prop (VObject camry_task_props) "tasks" = VArray [timing_belt])
    by (vm_compute; reflexivity).
  assert (H4 : not_null [timing_belt]) by (repeat constructor).
  assert (H5 : listed (snd camry_with_task) = Normal (camry_entries (snd camry_with_task)))
    by (vm_compute; reflexivity).
  assert (H6 : not_null (camry_entries (snd camry_with_task)))
    by (vm_compute; repeat constructor).
  assert (H7 : first_index (has_id "1700000000003") [timing_belt] <> -1)
    by (vm_compute; discriminate).
  assert (H8 : [timing_belt] !! Z.to_nat (first_index (has_id "1700000000003") [timing_belt])
               = Some timing_belt) by reflexivity.
  repeat (split; [assumption|]).
  destruct (toggleItem_twice camry_id "tasks" "1700000000003" _ _ _ _ _ _
              H1 H2 H3 H4 H5 H6 H7 H8)
    as (s1 & w1 & s2 & w2 & item1 & item2 & _ & _ & _ & _ & Ha & Hb & Hc & Hd & _).
  exists item1, item2. repeat split; assumption.
Defined.

(** C6 as stated fails for an item that is completed: the task of the
    Camry, completed at 22:13:20.005, is not at [completed: false] after
    two more calls of [toggleItem] but completed again, at
    22:13:20.008. *)
Lemma toggleItem_twice_on_completed_item :
  read_prop (ChecklistDetail.checklist (fst scenario_toggled)) "tasks" =
    VArray [VObject [("id", VString "1700000000003");
                     ("text", VString "Replace timing belt");
                     ("completed", VBool true);
                     ("completed_at", VString "2023-11-14T22:13:20.005Z")]] /\
  fst (ChecklistDetail.toggleItem camry_id "tasks" "1700000000003"
         (fst scenario_toggled) (snd scenario_toggled)) =
    Normal (fst completed_toggled_once) /\
  fst (ChecklistDetail.toggleItem camry_id "tasks" "1700000000003"
         (fst completed_toggled_once) (snd completed_toggled_once)) =
    Normal (fst completed_toggled_twice) /\
  read_prop (ChecklistDetail.checklist (fst completed_toggled_twice)) "tasks" =
    VArray [VObject [("id", VString "1700000000003");
                     ("text", VString "Replace timing belt");
                     ("completed", VBool true);
                     ("completed_at", VString "2023-11-14T22:13:20.008Z")]] /\
  storage (snd completed_toggled_twice) !! record_key camry_id =
    Some (JSON_stringify (ChecklistDetail.checklist (fst completed_toggled_twice))).
Proof.
  split; [vm_compute; reflexivity|].
  split; [vm_compute; reflexivity|].
  split; [vm_compute; reflexivity|].
  split; [vm_compute; reflexivity|].
  vm_compute; reflexivity.
Qed.

(** ** C7: what the item operations leave alone *)

Lemma read_updated_record_other o k x w section :
  section <> "updated_at" -> k <> section -> k <> "updated_at" ->
  read_prop (updated_record (spread_with (VObject o) section x) w) k =
  read_prop (VObject o) k.
Proof.
  intros Hs Hk Hk'. rewrite read_updated_record by assumption.
  destruct (String.eqb_spec k "updated_at"); [contradiction|].
  now destruct (String.eqb_spec k section).
Qed.

Lemma read_updated_record_section o x w section :
  section <> "updated_at" ->
  read_prop (updated_record (spread_with (VObject o) section x) w) section = x.
Proof.
  intros Hs. rewrite read_updated_record by assumption.
  destruct (String.eqb_spec section "updated_at"); [contradiction|].
  now rewrite String.eqb_refl.
Qed.

Lemma siblings_unchanged section (c c' : value) :
  In section task_lists ->
  (forall k, k <> section -> k <> "updated_at" -> read_prop c' k = read_prop c k) ->
  Forall (fun k => k <> section -> read_prop c' k = read_prop c k)
    (task_lists ++ ["photos"]).
Proof.
  intros _ H. unfold task_lists. cbn [app].
  repeat (constructor; [intros Hk; apply H; [exact Hk|discriminate]|]).
  constructor.
Qed.

(** C7.  Under the conditions of C5 and C6, with a list [section] that
    holds no [null]: after [addItem], whatever the text, and after
    [toggleItem], whatever the item id, every property of the checklist
    other than [section] and [updated_at] (which [saveChecklist] sets) is
    what it was, in particular the three other lists and [photos].  In the
    list [section], [addItem] keeps every item at its position and adds at
    most one, at the end; [toggleItem] keeps the length of the list and
    every item but the first one with the given id, and of that item every
    property but [completed] and [completed_at]; without such an item it
    changes neither screen nor store.  When the checklist changes, the
    stored record is the checklist the screen then holds. *)
Theorem item_operations_frame
    (id section : string) (s : ChecklistDetail.State) (w : World)
    (o : props) (items l : list value) :
  ChecklistDetail.checklist s = VObject o ->
  In section task_lists ->
  read_prop (VObject o) section = VArray items -> not_null items ->
  listed w = Normal l -> not_null l ->
  (exists s' w' items',
     ChecklistDetail.addItem id section s w = (Normal s', w') /\
     (forall k, k <> section -> k <> "updated_at" ->
        read_prop (ChecklistDetail.checklist s') k = read_prop (VObject o) k) /\
     Forall (fun k => k <> section ->
               read_prop (ChecklistDetail.checklist s') k = read_prop (VObject o) k)
       (task_lists ++ ["photos"]) /\
     read_prop (ChecklistDetail.checklist s') section = VArray items' /\
     (forall (j : nat) x, items !! j = Some x -> items' !! j = Some x) /\
     (trim (ChecklistDetail.newItemText s) = "" -> s' = s /\ w' = w) /\
     (trim (ChecklistDetail.newItemText s) <> "" ->
      (exists item, items' = (items ++ [item])%list) /\
      storage w' !! record_key id =
        Some (JSON_stringify (ChecklistDetail.checklist s'))))
  /\
  (forall itemId,
   exists s' w' items',
     ChecklistDetail.toggleItem id section itemId s w = (Normal s', w') /\
     (forall k, k <> section -> k <> "updated_at" ->
        read_prop (ChecklistDetail.checklist s') k = read_prop (VObject o) k) /\
     Forall (fun k => k <> section ->
               read_prop (ChecklistDetail.checklist s') k = read_prop (VObject o) k)
       (task_lists ++ ["photos"]) /\
     read_prop (ChecklistDetail.checklist s') section = VArray items' /\
     length items' = length items /\
     (forall j : nat, Z.of_nat j <> first_index (has_id itemId) items ->
        items' !! j = items !! j) /\
     (forall (j : nat) x x' k,
        Z.of_nat j = first_index (has_id itemId) items ->
        items !! j = Some x -> items' !! j = Some x' ->
        k <> "completed" -> k <> "completed_at" ->
        read_prop x' k = read_prop x k) /\
     (first_index (has_id itemId) items = -1 -> s' = s /\ w' = w) /\
     (first_index (has_id itemId) items <> -1 ->
      storage w' !! record_key id =
        Some (JSON_stringify (ChecklistDetail.checklist s')))).
Proof.
  intros Hc Hsec Hitems Hnn Hl Hnl.
  pose proof (task_list_not_updated_at _ Hsec) as Hne.
  split.
  - destruct (string_dec (trim (ChecklistDetail.newItemText s)) "") as [Hblank|Htext].
    + rewrite (addItem_blank id section s w Hblank).
      exists s, w, items. rewrite Hc.
      split; [reflexivity|]. split; [reflexivity|].
      split; [now apply siblings_unchanged|].
      split; [exact Hitems|]. split; [auto|]. split; [now split|contradiction].
    + rewrite (addItem_run id section s w o items Hc Hitems Htext).
      set (item := new_item w (ChecklistDetail.newItemText s)).
      set (c := spread_with (VObject o) section (VArray (items ++ [item]))).
      pose proof (saveChecklist_state id c s (tick w) l Hl Hnl) as Hst.
      pose proof (saveChecklist_persists id c s (tick w)) as Hp.
      destruct (ChecklistDetail.saveChecklist id c s (tick w)) as [r w'].
      cbn [fst snd] in *. subst r.
      eexists _, w', (items ++ [item])%list. split; [reflexivity|].
      cbn [ChecklistDetail.checklist ChecklistDetail.setChecklist].
      assert (Hframe : forall k, k <> section -> k <> "updated_at" ->
                read_prop (updated_record c (tick w)) k = read_prop (VObject o) k)
        by (intros; now apply read_updated_record_other).
      split; [exact Hframe|]. split; [now apply siblings_unchanged|].
      split; [now apply read_updated_record_section|].
      split; [intros j x Hx; now apply lookup_app_l_Some|].
      split; [contradiction|]. intros _. split; [now exists item|exact Hp].
  - intros itemId.
    destruct (Z.eq_dec (first_index (has_id itemId) items) (-1)) as [Hi|Hi].
    + rewrite (toggleItem_run id section itemId s w o items Hc Hitems Hnn).
      cbn zeta. rewrite Hi. cbn [Z.eqb Pos.eqb].
      exists s, w, items. rewrite Hc.
      split; [reflexivity|]. split; [reflexivity|].
      split; [now apply siblings_unchanged|].
      split; [exact Hitems|]. split; [reflexivity|]. split; [reflexivity|].
      split; [intros; lia|]. split; [now split|contradiction].
    + destruct (first_index_present _ _ Hi) as (item & Hitem & Hfx & _).
      pose proof (first_index_range (has_id itemId) items) as Hrange.
      destruct (toggleItem_once id section itemId s w o items l item
                  Hc Hsec Hitems Hnn Hl Hnl Hi Hitem)
        as (w' & l' & Hrun & Hread & _ & _ & _ & _ & Hp).
      set (i := Z.to_nat (first_index (has_id itemId) items)) in *.
      set (item' := toggled_item item (clock w (reads w))) in *.
      set (c := spread_with (VObject o) section (VArray (<[i := item']> items))) in *.
      eexists _, w', (<[i := item']> items).
      split; [exact Hrun|].
      cbn [ChecklistDetail.checklist ChecklistDetail.setChecklist].
      assert (Hframe : forall k, k <> section -> k <> "updated_at" ->
                read_prop (updated_record c
                             (if becomes_completed item then tick w else w)) k
                = read_prop (VObject o) k)
        by (intros; now apply read_updated_record_other).
      split; [exact Hframe|]. split; [now apply siblings_unchanged|].
      split; [exact Hread|]. split; [apply length_insert|].
      split.
      { intros j Hj. apply list_lookup_insert_ne. subst i. lia. }
      split.
      { intros j x x' k Hj Hx Hx' Hk Hk'.
        assert (j = i) as -> by (subst i; lia).
        rewrite Hitem in Hx. injection Hx as <-.
        rewrite list_lookup_insert_eq in Hx' by (apply lookup_lt_Some in Hitem; exact Hitem).
        injection Hx' as <-. destruct (has_id_object _ _ Hfx) as [oi ->].
        now apply read_toggled_other. }
      split; [contradiction|]. intros _. exact Hp.
Qed.

Lemma item_operations_frame_witness :
  ChecklistDetail.checklist (fst camry_with_photo) = VObject camry_photo_props /\
  In "tasks" task_lists /\
  read_prop (VObject camry_photo_props) "tasks" = VArray [timing_belt] /\
  not_null [timing_belt] /\
  listed (snd camry_with_photo) = Normal (camry_entries (snd camry_with_photo)) /\
  not_null (camry_entries (snd camry_with_photo)) /\
  exists s' w' items',
    ChecklistDetail.toggleItem camry_id "tasks" "1700000000003"
      (fst camry_with_photo) (snd camry_with_photo) = (Normal s', w') /\
    read_prop (ChecklistDetail.checklist s') "tasks" = VArray items' /\
    read_prop (ChecklistDetail.checklist s') "photos" = VArray [engine_bay_photo].
Proof.
  assert (H1 : ChecklistDetail.checklist (fst camry_with_photo) = VObject camry_photo_props)
    by (vm_compute; reflexivity).
  assert (H2 : In "tasks" task_lists) by (left; reflexivity).
  assert (H3 : read_prop (VObject camry_photo_props) "tasks" = VArray [timing_belt])
    by (vm_compute; reflexivity).
  assert (H4 : not_null [timing_belt]) by (repeat constructor).
  assert (H5 : listed (snd camry_with_photo) = Normal (camry_entries (snd camry_with_photo)))
    by (vm_compute; reflexivity).
  assert (H6 : not_null (camry_entries (snd camry_with_photo)))
    by (vm_compute; repeat constructor).
  repeat (split; [assumption|]).
  destruct (item_operations_frame camry_id "tasks" _ _ _ _ _ H1 H2 H3 H4 H5 H6)
    as [_ Htoggle].
  destruct (Htoggle "1700000000003")
    as (s' & w' & items' & Hrun & Hframe & _ & Hread & _).
  exists s', w', items'. split; [exact Hrun|]. split; [exact Hread|].
  rewrite Hframe by discriminate. vm_compute. reflexivity.
Defined.

(** ** C8: the description of a photo *)

Lemma map_array_describe photoId description photos :
  not_null photos ->
  map_array (ChecklistDetail.describe photoId description) photos =
  Normal (map (described photoId description) photos).
Proof.
  induction 1 as [|p photos Hp _ IH]; simpl; [reflexivity|].
  unfold ChecklistDetail.describe at 1. rewrite (id_is_not_null _ _ Hp).
  cbn [completion_bind]. rewrite IH. reflexivity.
Qed.

Lemma updatePhotoDescription_run id photoId description s w o photos :
  ChecklistDetail.checklist s = VObject o ->
  read_prop (VObject o) "photos" = VArray photos -> not_null photos ->
  ChecklistDetail.updatePhotoDescription id photoId description s w =
  ChecklistDetail.saveChecklist id
    (spread_with (VObject o) "photos"
       (VArray (map (described photoId description) photos))) s w.
Proof.
  intros Hc Hphotos Hnn. unfold ChecklistDetail.updatePhotoDescription.
  rewrite Hc. cbn [truthy negb]. unfold bind at 1. unfold eval at 1.
  unfold get_prop. cbn [nullish completion_bind]. rewrite Hphotos.
  cbn [array_receiver completion_bind]. rewrite (map_array_describe _ _ _ Hnn).
  reflexivity.
Qed.

Lemma described_none photoId description photos :
  Forall (fun p => has_id photoId p = false) photos ->
  map (described photoId description) photos = photos.
Proof.
  induction 1 as [|p ps Hp _ IH]; simpl; [reflexivity|].
  unfold described at 1. now rewrite Hp, IH.
Qed.

(** C8, amended.  On a detail screen that holds a checklist object whose
    [photos] is an array without [null], over a store whose list is an
    array without [null]: [updatePhotoDescription] passes to
    [saveChecklist] the checklist in which every photo with id [photoId]
    has the new description and all its other properties as before, and
    every other photo is as it was, at the same position; no other
    property of the checklist but [updated_at] changes.  When no photo has
    that id the photo list is as it was, but the checklist is saved all
    the same, with [updated_at] set to the reading of the clock. *)
Theorem updatePhotoDescription_sets_description
    (id photoId description : string) (s : ChecklistDetail.State) (w : World)
    (o : props) (photos l : list value) :
  ChecklistDetail.checklist s = VObject o ->
  read_prop (VObject o) "photos" = VArray photos -> not_null photos ->
  listed w = Normal l -> not_null l ->
  let photos' := map (described photoId description) photos in
  let c' := updated_record (spread_with (VObject o) "photos" (VArray photos')) w in
  fst (ChecklistDetail.updatePhotoDescription id photoId description s w) =
    Normal (ChecklistDetail.setChecklist c' s) /\
  storage (snd (ChecklistDetail.updatePhotoDescription id photoId description s w))
    !! record_key id = Some (JSON_stringify c') /\
  read_prop c' "photos" = VArray photos' /\
  read_prop c' "updated_at" = VString (toISOString (clock w (reads w))) /\
  (forall k, k <> "photos" -> k <> "updated_at" ->
     read_prop c' k = read_prop (VObject o) k) /\
  length photos' = length photos /\
  (forall (j : nat) p, photos !! j = Some p -> has_id photoId p = true ->
     exists p', photos' !! j = Some p' /\
       read_prop p' "description" = VString description /\
       forall k, k <> "description" -> read_prop p' k = read_prop p k) /\
  (forall (j : nat) p, photos !! j = Some p -> has_id photoId p = false ->
     photos' !! j = Some p) /\
  (Forall (fun p => has_id photoId p = false) photos -> photos' = photos).
Proof.
  intros Hc Hphotos Hnn Hl Hnl photos' c'.
  rewrite (updatePhotoDescription_run id photoId description s w o photos Hc Hphotos Hnn).
  fold photos'.
  split; [exact (saveChecklist_state _ _ _ _ _ Hl Hnl)|].
  split; [apply saveChecklist_persists|].
  split; [now apply read_updated_record_section|].
  split; [apply read_prop_spread_with_eq|].
  split; [intros; now apply read_updated_record_other|].
  split; [apply length_map|].
  split.
  { intros j p Hp Hid. exists (described photoId description p).
    split; [subst photos'; now rewrite list_lookup_fmap, Hp|].
    unfold described. rewrite Hid. destruct (has_id_object _ _ Hid) as [op ->].
    split; [apply read_prop_spread_with_eq|].
    intros k Hk. apply read_prop_spread_with_ne. congruence. }
  split.
  { intros j p Hp Hid. subst photos'. rewrite list_lookup_fmap, Hp. simpl.
    unfold described. now rewrite Hid. }
  apply described_none.
Qed.

Lemma updatePhotoDescription_sets_description_witness :
  ChecklistDetail.checklist (fst camry_with_photo) = VObject camry_photo_props /\
  read_prop (VObject camry_photo_props) "photos" = VArray [engine_bay_photo] /\
  not_null [engine_bay_photo] /\
  listed (snd camry_with_photo) = Normal (camry_entries (snd camry_with_photo)) /\
  not_null (camry_entries (snd camry_with_photo)) /\
  read_prop
    (updated_record
       (spread_with (VObject camry_photo_props) "photos"
          (VArray (map (described "1700000000005" "Engine bay") [engine_bay_photo])))
       (snd camry_with_photo)) "photos" =
  VArray [VObject [ ("id", VString "1700000000005");
                    ("base64_data", VString "abc123");
                    ("description", VString "Engine bay");
                    ("timestamp", VString "2023-11-14T22:13:20.006Z") ]].
Proof.
  assert (H1 : ChecklistDetail.checklist (fst camry_with_photo) = VObject camry_photo_props)
    by (vm_compute; reflexivity).
  assert (H2 : read_prop (VObject camry_photo_props) "photos" = VArray [engine_bay_photo])
    by (vm_compute; reflexivity).
  assert (H3 : not_null [engine_bay_photo]) by (repeat constructor).
  assert (H4 : listed (snd camry_with_photo) = Normal (camry_entries (snd camry_with_photo)))
    by (vm_compute; reflexivity).
  assert (H5 : not_null (camry_entries (snd camry_with_photo)))
    by (vm_compute; repeat constructor).
  repeat (split; [assumption|]).
  destruct (updatePhotoDescription_sets_description camry_id "1700000000005"
              "Engine bay" _ _ _ _ _ H1 H2 H3 H4 H5)
    as (_ & _ & Hphotos & _).
  exact Hphotos.
Defined.

(** C8 as stated fails: the Camry has no photo, and
    [updatePhotoDescription] for a photo id still changes the checklist
    on the screen and the record in the store, whose [updated_at] moves
    on. *)
Lemma updatePhotoDescription_without_photo_saves :
  read_prop camry_record "photos" = VArray [] /\
  fst (ChecklistDetail.updatePhotoDescription camry_id "1700000000009"
         "Engine bay" (camry_screen "") camry_created) =
    Normal (fst camry_redescribed) /\
  read_prop (ChecklistDetail.checklist (camry_screen "")) "updated_at" =
    VString "2023-11-14T22:13:20.002Z" /\
  read_prop (ChecklistDetail.checklist (fst camry_redescribed)) "updated_at" =
    VString "2023-11-14T22:13:20.003Z" /\
  fst camry_redescribed <> camry_screen "" /\
  storage (snd camry_redescribed) !! record_key camry_id <>
    storage camry_created !! record_key camry_id.
Proof.
  repeat split; try (vm_compute; reflexivity); vm_compute; discriminate.
Qed.

(** ** C10: records without vehicle or engine info *)

Lemma truthy_not_nullish v : truthy v = true -> nullish v = false.
Proof. now destruct v. Qed.

Lemma row_value_run checklist camel snake field :
  truthy checklist = true ->
  VehicleInfo.row_value checklist camel snake field =
  Normal (shown_value checklist camel snake field).
Proof.
  intros H%truthy_not_nullish. unfold VehicleInfo.row_value, shown_value, get_prop.
  rewrite H. cbn [completion_bind]. unfold js_or at 2 3.
  destruct (truthy (optional_chain (read_prop checklist camel) field)) eqn:E.
  - unfold js_or. now rewrite E.
  - reflexivity.
Qed.

Lemma row_values_run checklist camel snake rows :
  truthy checklist = true ->
  VehicleInfo.row_values checklist camel snake rows =
  Normal (map (fun r => (fst r, shown_value checklist camel snake (snd r))) rows).
Proof.
  intros H. induction rows as [|[label field] rows IH]; simpl; [reflexivity|].
  rewrite (row_value_run _ _ _ _ H). cbn [completion_bind]. now rewrite IH.
Qed.

(** C10.  Whatever is stored under [checklist_<id>], putting up the
    vehicle information screen for it does not throw: a stored [null]
    gives the text "not found", anything else gives all 34 rows.  The
    value of a row is [checklist.<camel>?.<field>] if that is truthy,
    else [checklist.<snake>?.<field>] if that is truthy, else the empty
    string, where [camel] is [vehicleInfo] or [engineInfo] and [snake] is
    [vehicle_info] or [engine_info].  So for a record without either
    object every row has the empty string; for a record with only one of
    the two objects a row has that object's field, and the empty string
    if the object lacks it or has it empty. *)
Theorem vehicle_info_rows_tolerate_absent_objects (text : json) :
  let checklist := JSON_parse text in
  VehicleInfo.render checklist =
    Normal (if truthy checklist then Some (shown_rows checklist) else None) /\
  forall camel snake field,
    let a := read_prop checklist camel in
    let b := read_prop checklist snake in
    (nullish a = true -> nullish b = true ->
     shown_value checklist camel snake field = VString "") /\
    (nullish a = true -> forall info, b = VObject info ->
     shown_value checklist camel snake field =
       js_or (read_prop b field) (VString "")) /\
    (nullish b = true -> forall info, a = VObject info ->
     shown_value checklist camel snake field =
       js_or (read_prop a field) (VString "")).
Proof.
  intros checklist. split.
  - unfold VehicleInfo.render, shown_rows.
    destruct (truthy checklist) eqn:E; cbn [negb]; [|reflexivity].
    rewrite !row_values_run by exact E. reflexivity.
  - intros camel snake field a b. unfold shown_value. fold a. fold b.
    split; [|split].
    + intros Ha Hb. unfold optional_chain. now rewrite Ha, Hb.
    + intros Ha info ->. unfold optional_chain at 1. rewrite Ha. reflexivity.
    + intros Hb info ->. unfold optional_chain at 2. rewrite Hb.
      cbn [optional_chain nullish]. unfold js_or.
      destruct (truthy (read_prop (VObject info) field)) eqn:Et;
        cbv beta iota; rewrite ?Et; reflexivity.
Qed.

(** The same on two records: one from an older version, one without
    vehicle or engine info. *)
Example legacy_record_rows :
  exists rows,
    VehicleInfo.render (JSON_parse legacy_record) = Normal (Some rows) /\
    lookup_prop "Make" rows = Some (VString "Ford") /\
    lookup_prop "Model" rows = Some (VString "Falcon") /\
    lookup_prop "Model Year" rows = Some (VString "") /\
    lookup_prop "Engine Code" rows = Some (VString "").
Proof. eexists. split; [vm_compute; reflexivity|]. repeat split. Qed.

Example bare_record_rows :
  exists rows,
    VehicleInfo.render (JSON_parse bare_record) = Normal (Some rows) /\
    Forall (fun r => snd r = VString "") rows.
Proof. eexists. split; [vm_compute; reflexivity|]. repeat constructor. Qed.

Example camry_record_rows :
  exists rows,
    VehicleInfo.render camry_record = Normal (Some rows) /\
    lookup_prop "Make" rows = Some (VString "Toyota") /\
    lookup_prop "Model Year" rows = Some (VString "2023") /\
    lookup_prop "Doors" rows = Some (VString "").
Proof. eexists. split; [vm_compute; reflexivity|]. repeat split. Qed.


(** ** C3: the list and the records *)

Lemma listed_of_storage w l :
  storage w !! index_key = Some (JSON_stringify (VArray l)) ->
  listed w = Normal (map stored l).
Proof.
  intros H. unfold listed. rewrite H. simpl. now rewrite map_map.
Qed.

Lemma listed_same w w' :
  storage w' !! index_key = storage w !! index_key -> listed w' = listed w.
Proof. intros H. unfold listed. now rewrite H. Qed.

Lemma stored_prop_defined v : v <> VUndefined -> stored_prop v <> VUndefined.
Proof. destruct v; unfold stored_prop, stored; cbn; congruence. Qed.

Lemma entry_of_not_null w e : entry_of w e -> nullish e = false.
Proof. intros (id & text & Hid & _). now destruct e. Qed.

Lemma entries_not_null w l : Forall (entry_of w) l -> not_null l.
Proof.
  intros H. eapply Forall_impl; [exact H|]. intros e. apply entry_of_not_null.
Qed.

(** An entry stays an entry when the record keys it may refer to keep
    their texts. *)
Lemma entry_of_same w w' e :
  (forall id, read_prop e "id" = VString id ->
              storage w' !! record_key id = storage w !! record_key id) ->
  entry_of w e -> entry_of w' e.
Proof.
  intros Hsame (id & text & Hid & Htext & Hfields).
  exists id, text. rewrite (Hsame id Hid). auto.
Qed.

Lemma has_id_string id id' e :
  read_prop e "id" = VString id' -> has_id id e = String.eqb id' id.
Proof. intros H. unfold has_id. now rewrite H. Qed.

Lemma NoDup_entry_ids_filter f l :
  NoDup (entry_ids l) -> NoDup (entry_ids (List.filter f l)).
Proof.
  unfold entry_ids. induction l as [|e l IH]; simpl; [auto|].
  intros [Hnot Hl]%NoDup_cons. destruct (f e); simpl; [|auto].
  apply NoDup_cons. split; [|auto].
  intros Hin. apply Hnot. apply list_elem_of_In in Hin. apply list_elem_of_In.
  apply in_map_iff in Hin as (x & Hx & Hin%List.filter_In).
  apply in_map_iff. exists x. tauto.
Qed.

Lemma consistent_empty w : storage w = ∅ -> consistent w.
Proof.
  intros H. exists []. unfold listed. rewrite H, lookup_empty.
  repeat split; constructor.
Qed.

(** The entry that [onSubmit] appends is the stored form of the whole
    new record. *)
Lemma created_entry_of data w st :
  st !! record_key (created_id w) = Some (JSON_stringify (created_record data w)) ->
  entry_of (mkWorld st (clock w) (S (S (S (reads w))))
              (shown w ++ [RouterReplace ("/checklist/" +:+ created_id w)]))
           (stored (created_record data w)).
Proof.
  intros Hst. exists (created_id w), (JSON_stringify (created_record data w)).
  split; [|split; [exact Hst|]].
  - unfold created_record, CreateChecklist.newChecklist. now rewrite read_prop_stored.
  - fold (stored (created_record data w)).
    unfold created_record, CreateChecklist.newChecklist, summary_fields.
    repeat (constructor; [split; [reflexivity|]|]); try constructor;
      rewrite read_prop_stored; cbn; try discriminate.
    unfold CreateChecklist.title_or_default, js_or.
    destruct (truthy (VString (CreateChecklist.title data))); discriminate.
Qed.

Lemma consistent_create data w :
  storage w !! record_key (created_id w) = None ->
  consistent w -> consistent (snd (CreateChecklist.onSubmit data w)).
Proof.
  intros Hfresh (l & Hl & Hnd & Hentries).
  rewrite (onSubmit_run data w l Hl). cbn [snd].
  set (rec := created_record data w).
  set (st := <[record_key (created_id w) := JSON_stringify rec]>
               (<[index_key := JSON_stringify (VArray (l ++ [rec]))]> (storage w))).
  assert (Hrec : st !! record_key (created_id w) = Some (JSON_stringify rec))
    by apply lookup_insert_eq.
  assert (Hother : forall id, id <> created_id w ->
            st !! record_key id = storage w !! record_key id).
  { intros id Hid. subst st.
    rewrite lookup_insert_ne by (intros E; apply Hid; symmetry; now apply record_key_inj).
    now rewrite lookup_insert_ne by (apply not_eq_sym, record_key_not_index). }
  assert (Hids : forall e, In e l -> read_prop e "id" <> VString (created_id w)).
  { intros e He Hid. rewrite List.Forall_forall in Hentries.
    destruct (Hentries e He) as (id & text & Hid' & Htext & _).
    rewrite Hid in Hid'. injection Hid' as <-. congruence. }
  assert (Hnew : read_prop (stored rec) "id" = VString (created_id w)).
  { subst rec. unfold created_record, CreateChecklist.newChecklist.
    now rewrite read_prop_stored. }
  exists (l ++ [stored rec])%list. split; [|split].
  - rewrite (listed_of_storage _ (l ++ [rec])).
    + rewrite map_app. now rewrite (listed_stable _ _ Hl).
    + cbn [storage]. subst st.
      rewrite lookup_insert_ne by apply record_key_not_index.
      apply lookup_insert_eq.
  - unfold entry_ids. rewrite map_app. apply NoDup_app. split; [exact Hnd|]. split.
    + intros x Hx Hx'. simpl in Hx'. apply list_elem_of_singleton in Hx'.
      apply list_elem_of_In, in_map_iff in Hx as (e & He & Hin).
      apply (Hids e Hin). congruence.
    + simpl. apply NoDup_singleton.
  - apply Forall_app. split.
    + apply List.Forall_forall. intros e He.
      rewrite List.Forall_forall in Hentries.
      apply (entry_of_same w); [|now apply Hentries].
      intros id Hid. cbn [storage]. fold rec. fold st. apply Hother.
      intros ->. now apply (Hids e He).
    + constructor; [|constructor]. fold rec. fold st.
      now apply created_entry_of.
Qed.

Lemma consistent_delete id w : consistent w -> consistent (snd (delete id w)).
Proof.
  intros (l & Hl & Hnd & Hentries).
  rewrite (delete_run id w l Hl (entries_not_null _ _ Hentries)). cbn [snd].
  exists (List.filter (fun x => negb (has_id id x)) l). split; [|split].
  - rewrite listed_written. f_equal. apply stored_filter, (listed_stable _ _ Hl).
  - now apply NoDup_entry_ids_filter.
  - apply List.Forall_forall. intros e [He _]%List.filter_In.
    rewrite List.Forall_forall in Hentries.
    apply (entry_of_same w); [|now apply Hentries].
    intros id' _. cbn [storage].
    now rewrite lookup_insert_ne by (apply not_eq_sym, record_key_not_index).
Qed.

Lemma read_stored_summary u k :
  In k summary_fields ->
  read_prop (stored (ChecklistDetail.summary (VObject u))) k =
  stored_prop (read_prop (VObject u) k).
Proof.
  unfold summary_fields, ChecklistDetail.summary. rewrite read_prop_stored.
  simpl. intros [<-|[<-|[<-|[<-|[<-|[]]]]]]; reflexivity.
Qed.

Lemma read_updated_kept o w k :
  k <> "updated_at" ->
  read_prop (updated_record (VObject o) w) k = read_prop (VObject o) k.
Proof. intros H. unfold updated_record. apply read_prop_spread_with_ne. congruence. Qed.

Lemma summary_field_cases k :
  In k summary_fields -> k = "updated_at" \/ (In k kept_fields /\ k <> "updated_at").
Proof.
  unfold summary_fields, kept_fields. simpl.
  intros [<-|[<-|[<-|[<-|[<-|[]]]]]]; auto; right; (split; [tauto|discriminate]).
Qed.

Lemma consistent_update id text o s w :
  storage w !! record_key id = Some text ->
  (forall k, In k kept_fields ->
             read_prop (VObject o) k = read_prop (JSON_parse text) k) ->
  consistent w ->
  consistent (snd (ChecklistDetail.saveChecklist id (VObject o) s w)).
Proof.
  intros Htext Hkept (l & Hl & Hnd & Hentries).
  pose proof (entries_not_null _ _ Hentries) as Hnn.
  rewrite (saveChecklist_run id (VObject o) s w l Hl Hnn). cbn [snd]. cbn zeta.
  set (u := updated_record (VObject o) w).
  set (st := <[record_key id := JSON_stringify u]> (storage w)).
  assert (Hother : forall id', id' <> id ->
            st !! record_key id' = storage w !! record_key id').
  { intros id' Hid. subst st.
    now rewrite lookup_insert_ne by (intros E; apply Hid; symmetry; now apply record_key_inj). }
  destruct (Z.eqb_spec (first_index (has_id id) l) (-1)) as [Hi|Hi].
  - exists l. split; [|split; [exact Hnd|]].
    + rewrite <- Hl. apply listed_same. cbn [storage]. subst st.
      now rewrite lookup_insert_ne by apply record_key_not_index.
    + apply first_index_absent in Hi.
      apply List.Forall_forall. intros e He.
      rewrite List.Forall_forall in Hentries, Hi.
      apply (entry_of_same w); [|now apply Hentries].
      intros id' Hid'. cbn [storage]. apply Hother. intros ->.
      specialize (Hi e He). rewrite (has_id_string _ _ _ Hid') in Hi.
      now rewrite String.eqb_refl in Hi.
  - destruct (first_index_present _ _ Hi) as (x & Hx & Hfx & _).
    set (n := Z.to_nat (first_index (has_id id) l)) in *.
    set (e' := stored (ChecklistDetail.summary u)).
    assert (Hxe : entry_of w x).
    { rewrite Forall_lookup in Hentries. exact (Hentries n x Hx). }
    destruct Hxe as (idx & textx & Hidx & Htextx & Hfieldsx).
    assert (idx = id) as ->.
    { rewrite (has_id_string _ _ _ Hidx) in Hfx. now apply String.eqb_eq. }
    assert (textx = text) as -> by congruence.
    assert (Hfields : Forall (fun k => read_prop e' k = read_prop (JSON_parse (JSON_stringify u)) k /\
                                       read_prop e' k <> VUndefined) summary_fields).
    { apply List.Forall_forall. intros k Hk. split.
      - pose proof (stored_summary_fields (spread_props u)) as Hs.
        rewrite List.Forall_forall in Hs. exact (Hs k Hk).
      - subst e'. change u with (VObject (spread_props u)).
        rewrite (read_stored_summary _ _ Hk). apply stored_prop_defined.
        change (VObject (spread_props u)) with u.
        destruct (summary_field_cases _ Hk) as [->|[Hk' Hne]].
        + subst u. unfold updated_record. rewrite read_prop_spread_with_eq. discriminate.
        + subst u. rewrite (read_updated_kept _ _ _ Hne), (Hkept _ Hk').
          rewrite List.Forall_forall in Hfieldsx.
          destruct (Hfieldsx k Hk) as [<- Hdef]. exact Hdef. }
    assert (Hid' : read_prop e' "id" = VString id).
    { subst e'. change u with (VObject (spread_props u)).
      rewrite read_stored_summary by (left; reflexivity).
      change (VObject (spread_props u)) with u. subst u.
      rewrite read_updated_kept by discriminate.
      rewrite (Hkept "id") by (left; reflexivity).
      rewrite List.Forall_forall in Hfieldsx.
      destruct (Hfieldsx "id" (or_introl eq_refl)) as [<- _]. now rewrite Hidx. }
    exists (<[n := e']> l). split; [|split].
    + rewrite listed_written, list_fmap_insert.
      change (stored <$> l) with (map stored l). now rewrite (listed_stable _ _ Hl).
    + unfold entry_ids.
      change (map (fun e => read_prop e "id") (<[n := e']> l))
        with ((fun e => read_prop e "id") <$> (<[n := e']> l)).
      rewrite list_fmap_insert, Hid', list_insert_id; [exact Hnd|].
      rewrite list_lookup_fmap, Hx. simpl. now rewrite Hidx.
    + apply Forall_lookup. intros j e Hj.
      destruct (Nat.eq_dec j n) as [->|Hjn].
      * rewrite list_lookup_insert_eq in Hj by (apply lookup_lt_Some in Hx; exact Hx).
        injection Hj as <-. exists id, (JSON_stringify u).
        split; [exact Hid'|]. split; [|exact Hfields].
        cbn [storage]. rewrite lookup_insert_ne by (apply not_eq_sym, record_key_not_index).
        subst st. apply lookup_insert_eq.
      * rewrite list_lookup_insert_ne in Hj by congruence.
        rewrite Forall_lookup in Hentries.
        apply (entry_of_same w); [|exact (Hentries j e Hj)].
        intros id' Hid''. cbn [storage].
        rewrite lookup_insert_ne by (apply not_eq_sym, record_key_not_index).
        apply Hother. intros ->.
        apply Hjn. eapply (NoDup_lookup (entry_ids l)); [exact Hnd| |].
        -- unfold entry_ids. change (map ?f l) with (f <$> l).
           rewrite list_lookup_fmap, Hj. simpl. now rewrite Hid''.
        -- unfold entry_ids. change (map ?f l) with (f <$> l).
           rewrite list_lookup_fmap, Hx. simpl. now rewrite Hidx.
Qed.

Lemma consistent_idle w w' : storage w' = storage w -> consistent w -> consistent w'.
Proof.
  intros Hst (l & Hl & Hnd & Hentries). exists l. split; [|split; [exact Hnd|]].
  - rewrite <- Hl. apply listed_same. now rewrite Hst.
  - eapply Forall_impl; [exact Hentries|]. intros e.
    apply entry_of_same. intros id _. now rewrite Hst.
Qed.

Lemma consistent_step w w' : step w w' -> consistent w -> consistent w'.
Proof.
  intros [data w0 Hfresh|id text o s w0 Htext Hkept|id w0|w0 w0' Hst].
  - now apply consistent_create.
  - now apply (consistent_update id text).
  - apply consistent_delete.
  - now apply consistent_idle.
Qed.




Lemma camry_created_reachable : reachable camry_created.
Proof.
  apply (reachable_step (fresh_install 1700000000000)).
  - now apply reachable_empty.
  - apply step_create. reflexivity.
Qed.




(** ** The handlers of the detail screen as operations on the store *)

(** A property read from a parsed text is unchanged by the store. *)
Lemma stored_prop_read_parse text k :
  stored_prop (read_prop (JSON_parse text) k) = read_prop (JSON_parse text) k.
Proof.
  destruct text; try reflexivity.
  - simpl. now destruct (String.eqb k "length").
  - simpl. now destruct (String.eqb k "length").
  - rewrite JSON_parse_object. simpl. rewrite lookup_prop_parse.
    destruct (lookup_prop k o) as [j|]; simpl; [|reflexivity].
    pose proof (stored_parse j) as H. now destruct (JSON_parse j).
Qed.

Lemma get_shows_record id w text :
  storage w !! record_key id = Some text ->
  exists s, get id w = (Normal s, w) /\ shows_record id s w.
Proof.
  intros H. rewrite (get_found id w text H). eexists. split; [reflexivity|].
  exists text. split; [exact H|]. reflexivity.
Qed.

Lemma kept_field_other k : In k kept_fields ->
  k <> "updated_at" /\ k <> "photos" /\ ~ In k task_lists.
Proof.
  unfold kept_fields, task_lists. simpl.
  intros [<-|[<-|[<-|[<-|[]]]]]; repeat split; try discriminate;
    intros [H|[H|[H|[H|[]]]]]; discriminate.
Qed.

(** Saving, on a screen that shows a record, the checklist it holds with
    one property set that is not among the kept ones: the store makes an
    update step, and the screen shows the record afterwards, whether the
    list could be brought up to date or not. *)
Lemma saveChecklist_step id o key x s w w0 :
  ChecklistDetail.checklist s = VObject o ->
  ~ In key kept_fields ->
  storage w0 = storage w ->
  shows_record id s w ->
  let r := ChecklistDetail.saveChecklist id (spread_with (VObject o) key x) s w0 in
  step w0 (snd r) /\
  forall s', fst r = Normal s' -> shows_record id s' (snd r).
Proof.
  intros Hc Hkey Hst (text & Htext & Hkept) r.
  assert (Hkept' : forall k, In k kept_fields ->
            read_prop (spread_with (VObject o) key x) k = read_prop (JSON_parse text) k).
  { intros k Hk. rewrite read_prop_spread_with_ne by (intros ->; contradiction).
    rewrite <- Hc. now apply Hkept. }
  split.
  - subst r. apply (step_update id text); [now rewrite Hst|exact Hkept'].
  - intros s' Hs'. unfold spread_with in *. cbn [spread_props] in *.
    set (o' := set_prop key x o) in *.
    exists (JSON_stringify (updated_record (VObject o') w0)).
    split; [apply saveChecklist_persists|].
    intros k Hk. destruct (kept_field_other _ Hk) as (Hne & _).
    assert (Hu : read_prop (updated_record (VObject o') w0) k =
                 read_prop (JSON_parse text) k).
    { rewrite read_updated_kept by exact Hne. now apply Hkept'. }
    assert (Hrhs : read_prop (JSON_parse (JSON_stringify (updated_record (VObject o') w0))) k
                   = read_prop (JSON_parse text) k).
    { transitivity (stored_prop (read_prop (updated_record (VObject o') w0) k)).
      - apply read_prop_stored.
      - rewrite Hu. apply stored_prop_read_parse. }
    rewrite Hrhs.
    subst r. unfold ChecklistDetail.saveChecklist in Hs'. revert Hs'. run_handler.
    fold (updated_record (VObject o') w0).
    destruct (array_receiver _) as [l|]; cbn.
    + destruct (findIndex _ l) as [i|]; cbn.
      * destruct (i =? -1); cbn; intros [= <-]; exact Hu.
      * intros [= <-]. now apply Hkept.
    + intros [= <-]. now apply Hkept.
Qed.

Lemma reachable_idle w w' : reachable w -> storage w' = storage w -> reachable w'.
Proof. intros Hw Hst. apply (reachable_step w); [exact Hw|now apply step_idle]. Qed.

Lemma shows_record_idle id s w w' :
  storage w' = storage w -> shows_record id s w -> shows_record id s w'.
Proof. intros Hst (text & Htext & Hkept). exists text. now rewrite Hst. Qed.

Lemma shows_record_checklist id s s' w :
  ChecklistDetail.checklist s' = ChecklistDetail.checklist s ->
  shows_record id s w -> shows_record id s' w.
Proof. intros Hc (text & Htext & Hkept). exists text. now rewrite Hc. Qed.

Lemma handled_idle id s w w' (c : completion ChecklistDetail.State) :
  reachable w -> shows_record id s w -> storage w' = storage w ->
  (forall s', c = Normal s' -> ChecklistDetail.checklist s' = ChecklistDetail.checklist s) ->
  handled id (c, w').
Proof.
  intros Hw Hs Hst Hc. split; cbn [fst snd].
  - now apply (reachable_idle w).
  - intros s' ->. apply (shows_record_checklist id s); [now apply Hc|].
    now apply (shows_record_idle id s w).
Qed.

Lemma handled_save id o key x s w w0 :
  ChecklistDetail.checklist s = VObject o ->
  ~ In key kept_fields ->
  reachable w -> shows_record id s w -> storage w0 = storage w ->
  handled id (ChecklistDetail.saveChecklist id (spread_with (VObject o) key x) s w0).
Proof.
  intros Hc Hkey Hw Hs Hst.
  destruct (saveChecklist_step id o key x s w w0 Hc Hkey Hst Hs) as [Hstep Hshow].
  split; [|exact Hshow].
  apply (reachable_step w0); [now apply (reachable_idle w)|exact Hstep].
Qed.

Ltac handled_idle s w :=
  unfold ret;
  apply (handled_idle _ s w);
  [assumption|assumption|first [reflexivity|assumption]|
   let H := fresh in intros ? H; first [discriminate H|now injection H as <-]].

Lemma task_list_not_kept section : In section task_lists -> ~ In section kept_fields.
Proof.
  unfold task_lists, kept_fields. simpl.
  intros [<-|[<-|[<-|[<-|[]]]]] [H|[H|[H|[H|[]]]]]; discriminate.
Qed.

Lemma read_prop_object c k :
  k <> "length" -> read_prop c k <> VUndefined -> exists o, c = VObject o.
Proof.
  intros Hk%String.eqb_neq Hdef. destruct c; simpl in Hdef; try congruence; eauto;
    now rewrite Hk in Hdef.
Qed.

Lemma list_name_not_length k : In k (task_lists ++ ["photos"]) -> k <> "length".
Proof.
  unfold task_lists. simpl. intros [<-|[<-|[<-|[<-|[<-|[]]]]]]; discriminate.
Qed.

Lemma iterate_object c k l :
  In k (task_lists ++ ["photos"]) -> iterate (read_prop c k) = Normal l ->
  exists o, c = VObject o.
Proof.
  intros Hk Hit. apply (read_prop_object c k); [now apply list_name_not_length|].
  intros E. rewrite E in Hit. discriminate.
Qed.

Lemma array_receiver_object c k l :
  In k (task_lists ++ ["photos"]) -> array_receiver (read_prop c k) = Normal l ->
  exists o, c = VObject o.
Proof.
  intros Hk Hit. apply (read_prop_object c k); [now apply list_name_not_length|].
  intros E. rewrite E in Hit. discriminate.
Qed.

Lemma toggled_storage item w :
  storage (snd (ChecklistDetail.toggled item w)) = storage w.
Proof.
  unfold ChecklistDetail.toggled. run_handler.
  destruct (get_prop item "completed") as [c|]; [|reflexivity].
  now destruct (truthy (js_not c)).
Qed.

Lemma photos_is_list_name : In "photos" (task_lists ++ ["photos"]).
Proof. unfold task_lists. simpl. tauto. Qed.

Lemma photos_not_kept : ~ In "photos" kept_fields.
Proof. unfold kept_fields. simpl. intros [H|[H|[H|[H|[]]]]]; discriminate. Qed.

Lemma addItem_handled id section s w :
  In section task_lists -> reachable w -> shows_record id s w ->
  handled id (ChecklistDetail.addItem id section s w).
Proof.
  intros Hsec Hw Hs. unfold ChecklistDetail.addItem.
  destruct (negb (truthy (ChecklistDetail.checklist s)) ||
            negb (truthy (VString (trim (ChecklistDetail.newItemText s))))) eqn:E.
  { handled_idle s w. }
  apply orb_false_elim in E as [Et%negb_false_iff _].
  run_handler. unfold get_prop. rewrite (truthy_not_nullish _ Et).
  cbn [completion_bind].
  destruct (iterate (read_prop (ChecklistDetail.checklist s) section)) as [l|] eqn:Hit.
  2:{ handled_idle s w. }
  destruct (ChecklistDetail.checklist s) as [| | | | |a|o] eqn:Hc;
    try discriminate;
    try (exfalso; revert Hit; clear -Hsec;
         destruct Hsec as [<-|[<-|[<-|[<-|[]]]]]; discriminate).
  pose proof (handled_save id o section
    (VArray (l ++ [VObject [("id", VString (pretty (clock w (reads w))));
                            ("text", VString (trim (ChecklistDetail.newItemText s)));
                            ("completed", VBool false)]]))
    s w (tick w) Hc (task_list_not_kept _ Hsec) Hw Hs eq_refl) as [Hr Hshow].
  change (mkWorld (storage w) (clock w) (S (reads w)) (shown w)) with (tick w).
  destruct (ChecklistDetail.saveChecklist id _ s (tick w)) as [[s'|] w'];
    cbn [fst snd] in *; split; cbn [fst snd]; try assumption; try discriminate.
  intros s'' [= <-]. apply (shows_record_checklist id s'); [reflexivity|].
  now apply Hshow.
Qed.

Lemma toggleItem_handled id section itemId s w :
  In section task_lists -> reachable w -> shows_record id s w ->
  handled id (ChecklistDetail.toggleItem id section itemId s w).
Proof.
  intros Hsec Hw Hs. unfold ChecklistDetail.toggleItem.
  destruct (negb (truthy (ChecklistDetail.checklist s))) eqn:Et.
  { handled_idle s w. }
  apply negb_false_iff in Et.
  unfold bind at 1. unfold eval at 1. unfold get_prop.
  rewrite (truthy_not_nullish _ Et). cbn [completion_bind].
  destruct (iterate (read_prop (ChecklistDetail.checklist s) section)) as [items|] eqn:Hit.
  2:{ handled_idle s w. }
  destruct (iterate_object _ section _ (in_or_app _ _ _ (or_introl Hsec)) Hit) as [o Hc].
  unfold bind at 1. unfold eval at 1.
  destruct (findIndex (id_is itemId) items) as [i|].
  2:{ handled_idle s w. }
  destruct (i =? -1).
  { handled_idle s w. }
  unfold bind at 1.
  pose proof (toggled_storage (default VUndefined (items !! Z.to_nat i)) w) as Hst.
  destruct (ChecklistDetail.toggled _ w) as [[item'|] w1]; cbn [snd] in Hst.
  2:{ handled_idle s w. }
  rewrite Hc. apply (handled_save id o section _ s w w1); try assumption.
  now apply task_list_not_kept.
Qed.

Lemma updatePhotoDescription_handled id photoId description s w :
  reachable w -> shows_record id s w ->
  handled id (ChecklistDetail.updatePhotoDescription id photoId description s w).
Proof.
  intros Hw Hs. unfold ChecklistDetail.updatePhotoDescription.
  destruct (negb (truthy (ChecklistDetail.checklist s))) eqn:Et.
  { handled_idle s w. }
  apply negb_false_iff in Et.
  unfold bind at 1. unfold eval at 1. unfold get_prop.
  rewrite (truthy_not_nullish _ Et). cbn [completion_bind].
  destruct (array_receiver (read_prop (ChecklistDetail.checklist s) "photos"))
    as [photos|] eqn:Hit; cbn [completion_bind].
  2:{ handled_idle s w. }
  destruct (array_receiver_object _ "photos" _ photos_is_list_name Hit) as [o Hc].
  destruct (map_array _ photos) as [photos'|].
  2:{ handled_idle s w. }
  rewrite Hc. apply (handled_save id o "photos" _ s w w); try assumption; try reflexivity.
  apply photos_not_kept.
Qed.

Lemma deletePhoto_handled id photoId s w :
  reachable w -> shows_record id s w ->
  handled id (ChecklistDetail.deletePhoto id photoId s w).
Proof.
  intros Hw Hs. unfold ChecklistDetail.deletePhoto.
  destruct (negb (truthy (ChecklistDetail.checklist s))) eqn:Et.
  { handled_idle s w. }
  apply negb_false_iff in Et.
  unfold bind at 1. unfold eval at 1. unfold get_prop.
  rewrite (truthy_not_nullish _ Et). cbn [completion_bind].
  destruct (array_receiver (read_prop (ChecklistDetail.checklist s) "photos"))
    as [photos|] eqn:Hit; cbn [completion_bind].
  2:{ handled_idle s w. }
  destruct (array_receiver_object _ "photos" _ photos_is_list_name Hit) as [o Hc].
  destruct (filter_array _ photos) as [photos'|].
  2:{ handled_idle s w. }
  rewrite Hc. apply (handled_save id o "photos" _ s w w); try assumption; try reflexivity.
  apply photos_not_kept.
Qed.

Lemma saveChecklist_completes id c s w :
  exists s' w', ChecklistDetail.saveChecklist id c s w = (Normal s', w').
Proof.
  unfold ChecklistDetail.saveChecklist. run_handler.
  destruct (array_receiver _) as [l|]; cbn; [|eauto].
  destruct (findIndex _ l) as [i|]; cbn; [|eauto].
  destruct (i =? -1); cbn; eauto.
Qed.

Lemma addPhoto_handled id granted picked s w :
  reachable w -> shows_record id s w ->
  handled id (ChecklistDetail.addPhoto id granted picked s w).
Proof.
  intros Hw Hs. unfold ChecklistDetail.addPhoto.
  destruct granted; cbn [negb].
  2:{ run_handler. handled_idle s w. }
  destruct picked as [base64|].
  2:{ run_handler. handled_idle s w. }
  destruct (truthy (VString base64)).
  2:{ run_handler. handled_idle s w. }
  unfold try_catch, bind at 1 2 3, Date_now_toString, new_Date_toISOString.
  unfold bind at 1 2, read_clock, ret at 1 2, eval.
  cbn [fst snd storage clock reads shown].
  destruct (completion_bind (get_prop (ChecklistDetail.checklist s) "photos") iterate)
    as [photos|] eqn:Hit.
  2:{ unfold bind, show, ret. cbn [fst snd storage clock reads shown]. handled_idle s w. }
  assert (Hit' : iterate (read_prop (ChecklistDetail.checklist s) "photos") = Normal photos).
  { unfold get_prop in Hit. now destruct (nullish (ChecklistDetail.checklist s)). }
  destruct (iterate_object _ "photos" _ photos_is_list_name Hit') as [o Hc].
  rewrite Hc.
  pose proof (handled_save id o "photos"
    (VArray (photos ++ [VObject [("id", VString (pretty (clock w (reads w))));
                                 ("base64_data", VString base64);
                                 ("description", VString "");
                                 ("timestamp", VString (toISOString (clock w (S (reads w)))))]]))
    s w (tick (tick w)) Hc photos_not_kept Hw Hs eq_refl) as Hh.
  change (mkWorld (storage w) (clock w) (S (S (reads w))) (shown w)) with (tick (tick w)).
  destruct (saveChecklist_completes id
    (spread_with (VObject o) "photos"
       (VArray (photos ++ [VObject [("id", VString (pretty (clock w (reads w))));
                                    ("base64_data", VString base64);
                                    ("description", VString "");
                                    ("timestamp", VString (toISOString (clock w (S (reads w)))))]])))
    s (tick (tick w))) as (s' & w' & Hrun).
  rewrite Hrun in *. exact Hh.
Qed.

(** Every handler of the detail screen, run on a screen that shows a
    record of a reachable store, leaves a reachable store and, if it
    completes, a screen that shows the record: the updates of the
    reachable states are what these handlers do. *)
Lemma detail_handlers_keep_reachable id s w :
  reachable w -> shows_record id s w ->
  (forall section, In section task_lists ->
     handled id (ChecklistDetail.addItem id section s w)) /\
  (forall section itemId, In section task_lists ->
     handled id (ChecklistDetail.toggleItem id section itemId s w)) /\
  (forall granted picked, handled id (ChecklistDetail.addPhoto id granted picked s w)) /\
  (forall photoId description,
     handled id (ChecklistDetail.updatePhotoDescription id photoId description s w)) /\
  (forall photoId, handled id (ChecklistDetail.deletePhoto id photoId s w)).
Proof.
  intros Hw Hs. repeat split; intros.
  all: first [now apply addItem_handled | now apply toggleItem_handled
             | now apply addPhoto_handled | now apply updatePhotoDescription_handled
             | now apply deletePhoto_handled].
Qed.


(** ** The scenario of the specification, step by step *)

Example scenario_create :
  fst (CreateChecklist.onSubmit camry (fresh_install 1700000000000)) =
    Normal (Some camry_id) /\
  read_prop camry_record "title" = VString "2023 Toyota Camry" /\
  fst (get camry_id camry_created) =
    Normal (ChecklistDetail.mkState camry_record "" None).
Proof. vm_compute. repeat split. Qed.

Example scenario_append :
  read_prop (ChecklistDetail.checklist (fst camry_with_task)) "tasks" =
  VArray [VObject [("id", VString "1700000000003");
                   ("text", VString "Replace timing belt");
                   ("completed", VBool false)]].
Proof. vm_compute. reflexivity. Qed.

Example scenario_toggle :
  read_prop (ChecklistDetail.checklist (fst scenario_toggled)) "tasks" =
  VArray [VObject [("id", VString "1700000000003");
                   ("text", VString "Replace timing belt");
                   ("completed", VBool true);
                   ("completed_at", VString "2023-11-14T22:13:20.005Z")]].
Proof. vm_compute. reflexivity. Qed.

Example scenario_add_photo :
  read_prop (ChecklistDetail.checklist (fst scenario_photo)) "photos" =
  VArray [VObject [("id", VString "1700000000007");
                   ("base64_data", VString "abc123");
                   ("description", VString "");
                   ("timestamp", VString "2023-11-14T22:13:20.008Z")]].
Proof. vm_compute. reflexivity. Qed.

Example scenario_describe :
  read_prop (ChecklistDetail.checklist (fst scenario_described)) "photos" =
  VArray [VObject [("id", VString "1700000000007");
                   ("base64_data", VString "abc123");
                   ("description", VString "Engine bay");
                   ("timestamp", VString "2023-11-14T22:13:20.008Z")]].
Proof. vm_compute. reflexivity. Qed.

(** After the deletion the list is empty, and the record is still there
    for [get], as the screen held it last. *)
Example scenario_delete :
  fst (listSummaries scenario_deleted) = Normal (VArray []) /\
  fst (get camry_id scenario_deleted) =
    Normal (ChecklistDetail.mkState
              (stored (ChecklistDetail.checklist (fst scenario_described))) "" None) /\
  shown (snd (get camry_id scenario_deleted)) =
    [RouterReplace ("/checklist/" +:+ camry_id)].
Proof. vm_compute. repeat split. Qed.


(** * Further properties of the handlers *)

(** ** Creation *)

Lemma read_created_id data w : read_prop (stored (created_record data w)) "id" = VString (created_id w).
Proof.
  unfold created_record, CreateChecklist.newChecklist. now rewrite read_prop_stored.
Qed.

Lemma has_id_created data w : has_id (created_id w) (stored (created_record data w)) = true.
Proof. unfold has_id. rewrite read_created_id. cbn. apply String.eqb_refl. Qed.

Lemma listed_after_create data w l :
  listed w = Normal l ->
  listed (snd (CreateChecklist.onSubmit data w)) =
  Normal (l ++ [stored (created_record data w)])%list.
Proof.
  intros Hl. rewrite (onSubmit_run data w l Hl). cbn [snd].
  erewrite listed_of_storage.
  2:{ cbn [storage]. rewrite lookup_insert_ne by apply record_key_not_index.
      apply lookup_insert_eq. }
  rewrite map_app. cbn [map]. now rewrite (listed_stable w l Hl).
Qed.

(** X1.  [onSubmit] never throws and reads the clock three times.  If the
    stored list is an array (or nothing is stored), it writes the list
    with the new record appended and the record under its key, and moves
    on to the detail screen; if the stored list is anything else, it
    writes neither key, shows the alert "Failed to create checklist" and
    stays where it is. *)
Theorem onSubmit_writes_both_keys_or_none
    (data : CreateChecklist.FormData) (w : World) :
  let r := CreateChecklist.onSubmit data w in
  let id := created_id w in
  reads (snd r) = S (S (S (reads w))) /\
  ((exists l,
      listed w = Normal l /\
      fst r = Normal (Some id) /\
      storage (snd r) =
        <[record_key id := JSON_stringify (created_record data w)]>
          (<[index_key := JSON_stringify (VArray (l ++ [created_record data w]))]>
             (storage w)) /\
      shown (snd r) = (shown w ++ [RouterReplace ("/checklist/" +:+ id)])%list) \/
   (listed w = TypeError /\
      fst r = Normal None /\
      storage (snd r) = storage w /\
      shown (snd r) =
        (shown w ++ [Alert "Error" "Failed to create checklist. Please try again."])%list)).
Proof.
  intros r id. subst r id. destruct (listed w) as [l|] eqn:Hl.
  - rewrite (onSubmit_run data w l Hl). cbn [fst snd reads storage shown].
    split; [reflexivity|]. left. exists l. auto.
  - rewrite (onSubmit_failed data w Hl). cbn [fst snd reads storage shown].
    split; [reflexivity|]. right. auto.
Qed.

Lemma has_id_true id e : has_id id e = true -> read_prop e "id" = VString id.
Proof.
  unfold has_id. destruct (read_prop e "id"); cbn; try discriminate.
  now intros ->%String.eqb_eq.
Qed.

(** X2.  [onSubmit] does not look whether the id it draws from the clock
    is in use.  When the list has an entry with that id already, the new
    record replaces whatever was stored under [checklist_<id>], and the
    list gets one more entry all the same: it then has two entries with
    one id, and list and records no longer agree. *)
Theorem onSubmit_does_not_check_the_id
    (data : CreateChecklist.FormData) (w : World) (l : list value) (e : value) :
  listed w = Normal l -> In e l -> has_id (created_id w) e = true ->
  let w' := snd (CreateChecklist.onSubmit data w) in
  storage w' !! record_key (created_id w) =
    Some (JSON_stringify (created_record data w)) /\
  listed w' = Normal (l ++ [stored (created_record data w)])%list /\
  ~ NoDup (entry_ids (l ++ [stored (created_record data w)])) /\
  ~ consistent w'.
Proof.
  intros Hl He Hid w'.
  assert (Hlisted : listed w' = Normal (l ++ [stored (created_record data w)])%list)
    by now apply listed_after_create.
  assert (Hdup : ~ NoDup (entry_ids (l ++ [stored (created_record data w)]))).
  { unfold entry_ids. rewrite map_app. cbn [map]. rewrite read_created_id.
    intros Hnd. apply NoDup_app in Hnd as (_ & Hdisj & _).
    apply (Hdisj (VString (created_id w))).
    - apply list_elem_of_In, in_map_iff. exists e. split; [|exact He].
      now apply has_id_true.
    - constructor. }
  repeat split; try assumption.
  - subst w'. rewrite (onSubmit_run data w l Hl). cbn [snd storage].
    apply lookup_insert_eq.
  - intros (l' & Hl' & Hnd & _). rewrite Hlisted in Hl'. injection Hl' as <-.
    contradiction.
Qed.

Lemma onSubmit_does_not_check_the_id_witness :
  listed camry_created_frozen = Normal (camry_entries camry_created_frozen) /\
  In (hd VNull (camry_entries camry_created_frozen)) (camry_entries camry_created_frozen) /\
  has_id (created_id camry_created_frozen)
    (hd VNull (camry_entries camry_created_frozen)) = true /\
  ~ consistent (snd (CreateChecklist.onSubmit camry camry_created_frozen)).
Proof.
  assert (H1 : listed camry_created_frozen = Normal (camry_entries camry_created_frozen))
    by (vm_compute; reflexivity).
  assert (H2 : In (hd VNull (camry_entries camry_created_frozen))
                  (camry_entries camry_created_frozen))
    by (vm_compute; left; reflexivity).
  assert (H3 : has_id (created_id camry_created_frozen)
                 (hd VNull (camry_entries camry_created_frozen)) = true)
    by (vm_compute; reflexivity).
  repeat (split; [assumption|]).
  exact (proj2 (proj2 (proj2
    (onSubmit_does_not_check_the_id camry camry_created_frozen _ _ H1 H2 H3)))).
Defined.

(** ** Deletion *)

Lemma filter_twice {A} (f : A -> bool) l : List.filter f (List.filter f l) = List.filter f l.
Proof.
  induction l as [|x l IH]; simpl; [reflexivity|].
  destruct (f x) eqn:E; simpl; rewrite ?E, IH; reflexivity.
Qed.

Lemma filter_swap {A} (f g : A -> bool) l :
  List.filter f (List.filter g l) = List.filter g (List.filter f l).
Proof.
  induction l as [|x l IH]; simpl; [reflexivity|].
  destruct (f x) eqn:Ef, (g x) eqn:Eg; simpl; rewrite ?Ef, ?Eg, IH; reflexivity.
Qed.

Lemma not_null_filter f l : not_null l -> not_null (List.filter f l).
Proof.
  unfold not_null. rewrite !List.Forall_forall.
  intros H x [Hx _]%List.filter_In. now apply H.
Qed.

(** The store after two deletions, one after the other. *)
Lemma delete_delete id id' w l :
  listed w = Normal l -> not_null l ->
  storage (snd (delete id' (snd (delete id w)))) =
  <[index_key :=
      JSON_stringify
        (VArray (List.filter (fun x => negb (has_id id' x))
                   (List.filter (fun x => negb (has_id id x)) l)))]> (storage w).
Proof.
  intros Hl Hnn. rewrite (delete_run id w l Hl Hnn). cbn [snd].
  set (l1 := List.filter (fun x => negb (has_id id x)) l).
  assert (Hl1 : map stored l1 = l1) by apply stored_filter, (listed_stable _ _ Hl).
  erewrite (delete_run id' _ l1).
  - cbn [snd storage]. apply insert_insert_eq.
  - rewrite listed_written. now rewrite Hl1.
  - now apply not_null_filter.
Qed.

(** X3.  Deletions on the list screen, with a stored list that is an
    array without [null]: deleting an id a second time leaves the store
    as the first deletion left it, and two deletions leave the same store
    in either order. *)
Theorem delete_twice_and_in_either_order (id id' : string) (w : World) (l : list value) :
  listed w = Normal l -> not_null l ->
  storage (snd (delete id (snd (delete id w)))) = storage (snd (delete id w)) /\
  storage (snd (delete id' (snd (delete id w)))) =
    storage (snd (delete id (snd (delete id' w)))).
Proof.
  intros Hl Hnn. split.
  - rewrite (delete_delete id id w l Hl Hnn), filter_twice.
    now rewrite (delete_run id w l Hl Hnn).
  - rewrite (delete_delete id id' w l Hl Hnn), (delete_delete id' id w l Hl Hnn).
    now rewrite filter_swap.
Qed.

Lemma delete_twice_and_in_either_order_witness :
  listed camry_created = Normal [camry_record] /\ not_null [camry_record] /\
  storage (snd (delete camry_id (snd (delete camry_id camry_created)))) =
    storage (snd (delete camry_id camry_created)).
Proof.
  assert (H1 : listed camry_created = Normal [camry_record]) by (vm_compute; reflexivity).
  assert (H2 : not_null [camry_record]) by (repeat constructor).
  repeat (split; [assumption|]).
  exact (proj1 (delete_twice_and_in_either_order camry_id camry_id camry_created _ H1 H2)).
Defined.

Lemma filter_none f (l : list value) :
  Forall (fun x => f x = true) l -> List.filter f l = l.
Proof.
  induction 1 as [|x l Hx _ IH]; simpl; [reflexivity|]. now rewrite Hx, IH.
Qed.

(** X4.  A checklist created and then deleted on the list screen: the
    list is again what it was before the creation, while the record of
    the checklist stays in the store, and no other key has changed.  (The
    stored list is an array without [null], none of its entries having
    the id that the clock gives to the new checklist.) *)
Theorem create_then_delete_leaves_record
    (data : CreateChecklist.FormData) (w : World) (l : list value) :
  listed w = Normal l -> not_null l ->
  Forall (fun e => has_id (created_id w) e = false) l ->
  let w1 := snd (CreateChecklist.onSubmit data w) in
  let w2 := snd (delete (created_id w) w1) in
  listed w2 = Normal l /\
  storage w2 !! record_key (created_id w) =
    Some (JSON_stringify (created_record data w)) /\
  (forall key, key <> index_key -> key <> record_key (created_id w) ->
     storage w2 !! key = storage w !! key).
Proof.
  intros Hl Hnn Hfresh w1 w2.
  assert (Hl1 : listed w1 = Normal (l ++ [stored (created_record data w)])%list)
    by now apply listed_after_create.
  assert (Hnn1 : not_null (l ++ [stored (created_record data w)])).
  { apply Forall_app. split; [exact Hnn|]. repeat constructor. }
  assert (Hf : List.filter (fun x => negb (has_id (created_id w) x))
                 (l ++ [stored (created_record data w)]) = l).
  { rewrite List.filter_app. cbn [List.filter]. rewrite has_id_created. cbn [negb].
    rewrite app_nil_r. apply filter_none.
    eapply Forall_impl; [exact Hfresh|]. cbv beta. now intros x ->. }
  subst w2. rewrite (delete_run _ w1 _ Hl1 Hnn1), Hf. cbn [snd].
  split; [|split].
  - rewrite listed_written. now rewrite (listed_stable w l Hl).
  - cbn [storage]. rewrite lookup_insert_ne by (apply not_eq_sym, record_key_not_index).
    subst w1. rewrite (onSubmit_run data w l Hl). cbn [snd storage].
    apply lookup_insert_eq.
  - intros key Hk1 Hk2. cbn [storage]. rewrite lookup_insert_ne by congruence.
    subst w1. rewrite (onSubmit_run data w l Hl). cbn [snd storage].
    now rewrite !lookup_insert_ne by congruence.
Qed.

Lemma create_then_delete_leaves_record_witness :
  listed (fresh_install 1700000000000) = Normal [] /\
  not_null [] /\
  Forall (fun e => has_id (created_id (fresh_install 1700000000000)) e = false) [] /\
  listed camry_deleted = Normal [] /\
  storage camry_deleted !! record_key camry_id =
    Some (JSON_stringify (created_record camry (fresh_install 1700000000000))).
Proof.
  assert (H1 : listed (fresh_install 1700000000000) = Normal []) by reflexivity.
  assert (H2 : not_null []) by constructor.
  assert (H3 : Forall (fun e => has_id (created_id (fresh_install 1700000000000)) e = false) [])
    by constructor.
  split; [exact H1|split; [exact H2|split; [exact H3|]]].
  destruct (create_then_delete_leaves_record camry _ _ H1 H2 H3) as (Ha & Hb & _).
  split; [exact Ha|exact Hb].
Defined.


(** ** Saving *)

(** X5.  When [saveChecklist] cannot bring the list up to date, because
    what is stored under [vehicle_checklists] is not an array or holds a
    [null] before any entry with the id, the record has been written all
    the same: the store has the new record under [checklist_<id>] and the
    list as it was, the alert "Failed to save changes" is shown, and the
    screen keeps the checklist it had, which is then older than the
    stored one. *)
Theorem saveChecklist_failure_keeps_record_written
    (id : string) (c : value) (s : ChecklistDetail.State) (w : World) :
  listed w = TypeError \/
  (exists l, listed w = Normal l /\ findIndex (id_is id) l = TypeError) ->
  ChecklistDetail.saveChecklist id c s w =
  (Normal s,
   mkWorld (<[record_key id := JSON_stringify (updated_record c w)]> (storage w))
     (clock w) (S (reads w))
     (shown w ++ [Alert "Error" "Failed to save changes"])).
Proof.
  intros H. unfold ChecklistDetail.saveChecklist. run_handler.
  rewrite lookup_insert_ne by apply record_key_not_index.
  fold (updated_record c w).
  destruct H as [H|(l & Hl%listed_array & Hf)].
  - unfold listed in H. now rewrite H.
  - rewrite Hl. cbn [array_receiver]. now rewrite Hf.
Qed.

Lemma saveChecklist_failure_keeps_record_written_witness :
  (listed list_with_null = TypeError \/
   (exists l, listed list_with_null = Normal l /\
              findIndex (id_is camry_id) l = TypeError)) /\
  fst (ChecklistDetail.saveChecklist camry_id camry_record (camry_screen "") list_with_null)
    = Normal (camry_screen "").
Proof.
  assert (H : listed list_with_null = TypeError \/
              (exists l, listed list_with_null = Normal l /\
                         findIndex (id_is camry_id) l = TypeError)).
  { right. exists [VNull]. split; reflexivity. }
  split; [exact H|].
  now rewrite (saveChecklist_failure_keeps_record_written camry_id camry_record
                 (camry_screen "") list_with_null H).
Defined.

Lemma defined_object o : defined (VObject o) = defined_props o.
Proof.
  unfold defined_props. induction o as [|[k x] o IH]; [reflexivity|].
  cbn [forallb snd]. rewrite <- IH. reflexivity.
Qed.

Lemma stringify_props_defined o :
  defined_props o = true ->
  stringify_props o = map (fun kv => (fst kv, JSON_stringify (snd kv))) o.
Proof.
  unfold defined_props. induction o as [|[k x] o IH]; [reflexivity|].
  cbn [forallb snd map fst]. intros [Hx Ho]%andb_true_iff.
  cbn [stringify_props]. rewrite (IH Ho). now destruct x.
Qed.

(** A value without [undefined] comes back from the store as it went in. *)
Lemma stored_defined v : defined v = true -> stored v = v.
Proof.
  induction v as [| | | | |l IH|o IH] using value_nested_ind;
    try reflexivity; try discriminate.
  - cbn [defined]. intros H. unfold stored. cbn [JSON_stringify JSON_parse].
    rewrite map_map. f_equal.
    induction IH as [|x l Hx _ IHl]; [reflexivity|].
    cbn [forallb] in H. apply andb_true_iff in H as [H1 H2].
    cbn [map]. f_equal; [now apply Hx|now apply IHl].
  - rewrite defined_object. intros H. unfold stored.
    rewrite JSON_stringify_object, (stringify_props_defined _ H), JSON_parse_object.
    f_equal. unfold parse_props. rewrite map_map. cbn [fst snd].
    unfold defined_props in H.
    induction IH as [|[k x] o Hx _ IHo]; [reflexivity|].
    cbn [forallb snd] in H. apply andb_true_iff in H as [H1 H2].
    cbn [map fst snd]. f_equal; [|now apply IHo].
    f_equal. now apply Hx.
Qed.

Lemma defined_props_set k x o :
  defined x = true -> defined_props o = true -> defined_props (set_prop k x o) = true.
Proof.
  unfold defined_props. intros Hx. induction o as [|[k' y] o IH]; cbn [set_prop forallb snd].
  - now rewrite Hx.
  - intros [Hy Ho]%andb_true_iff. destruct (String.eqb k' k); cbn [forallb snd].
    + now rewrite Hx, Ho.
    + now rewrite Hy, IH.
Qed.

Lemma defined_chars s : forallb defined (chars s) = true.
Proof. induction s as [|a s IH]; [reflexivity|exact IH]. Qed.

Lemma defined_index_props l :
  forallb defined l = true -> defined_props (index_props l) = true.
Proof.
  unfold defined_props, index_props. intros H.
  apply forallb_forall. intros [k x] Hin.
  apply list_elem_of_In, list_elem_of_lookup in Hin as [i Hi].
  rewrite list_lookup_imap in Hi.
  destruct (l !! i) as [y|] eqn:Hy; [|discriminate]. cbn in Hi. injection Hi as _ <-.
  rewrite forallb_forall in H. apply H.
  apply list_elem_of_In, list_elem_of_lookup. eauto.
Qed.

Lemma defined_spread_props c : defined c = true -> defined_props (spread_props c) = true.
Proof.
  destruct c; cbn [spread_props]; try reflexivity.
  - intros _. apply defined_index_props, defined_chars.
  - cbn [defined]. apply defined_index_props.
  - now rewrite defined_object.
Qed.

(** X6.  Saving and opening the screen again.  Whether [saveChecklist]
    could bring the list up to date or not, a detail screen opened on the
    id afterwards loads the record that was saved: the checklist handed
    to [saveChecklist] with [updated_at] set, as it comes back from the
    store.  Every property reads as it did on the saved object, except
    that a property set to [undefined] is absent; a checklist without any
    [undefined] comes back exactly as it was saved. *)
Theorem save_then_load (id : string) (c : value) (s : ChecklistDetail.State) (w : World) :
  let w' := snd (ChecklistDetail.saveChecklist id c s w) in
  let saved := updated_record c w in
  get id w' = (Normal (ChecklistDetail.mkState (stored saved) "" None), w') /\
  (forall k, read_prop (stored saved) k = stored_prop (read_prop saved k)) /\
  (defined c = true -> stored saved = saved).
Proof.
  intros w' saved. split; [|split].
  - rewrite (get_found id w' (JSON_stringify saved)); [reflexivity|].
    apply saveChecklist_persists.
  - intros k. apply read_prop_stored.
  - intros Hc. apply stored_defined. subst saved. unfold updated_record, spread_with.
    rewrite defined_object. apply defined_props_set; [reflexivity|].
    now apply defined_spread_props.
Qed.

(** ** Screens opened on an id without a record *)

(** X7.  When nothing is stored under [checklist_<id>], the detail
    screen shows the alert "Checklist not found", goes back, and keeps
    [null] as its checklist; the vehicle information screen shows no
    alert and stays where it is, with [null] as its checklist and the
    text "Vehicle information not found" in the place of the rows.
    Neither screen writes to the store. *)
Theorem screens_opened_without_record (id : string) (w : World) :
  storage w !! record_key id = None ->
  get id w =
    (Normal ChecklistDetail.initial,
     mkWorld (storage w) (clock w) (reads w)
       (shown w ++ [Alert "Error" "Checklist not found"; RouterBack])) /\
  VehicleInfo.loadChecklist id VNull w = (Normal VNull, w) /\
  VehicleInfo.displayed VNull = Normal None.
Proof.
  intros H. split; [|split].
  - rewrite (get_not_found id w H). now rewrite <- app_assoc.
  - unfold VehicleInfo.loadChecklist. run_handler. now rewrite H.
  - reflexivity.
Qed.

Lemma screens_opened_without_record_witness :
  storage camry_created !! record_key "1600000000000" = None /\
  fst (get "1600000000000" camry_created) = Normal ChecklistDetail.initial.
Proof.
  assert (H : storage camry_created !! record_key "1600000000000" = None)
    by (vm_compute; reflexivity).
  split; [exact H|].
  now rewrite (proj1 (screens_opened_without_record "1600000000000" camry_created H)).
Defined.


(** ** Handlers that run on a screen that is out of date *)

Lemma snd_addItem id section s w o items :
  ChecklistDetail.checklist s = VObject o ->
  read_prop (VObject o) section = VArray items ->
  trim (ChecklistDetail.newItemText s) <> "" ->
  snd (ChecklistDetail.addItem id section s w) =
  snd (ChecklistDetail.saveChecklist id
         (spread_with (VObject o) section
            (VArray (items ++ [new_item w (ChecklistDetail.newItemText s)])))
         s (tick w)).
Proof.
  intros Hc Hitems Htext. rewrite (addItem_run id section s w o items Hc Hitems Htext).
  destruct (ChecklistDetail.saveChecklist id _ s (tick w)) as [[s'|] w']; reflexivity.
Qed.

(** X8.  A handler builds the checklist it saves from the checklist the
    screen holds, not from the stored record.  So when [toggleItem] and
    then [addItem] run on the same screen state, as happens when the
    second is started before the screen has been drawn again, the record
    that [toggleItem] stored, with the item toggled, is replaced by one
    in which the list is the old list with the new item at its end: the
    toggle is lost. *)
Theorem stale_screen_loses_update
    (id section itemId : string) (s : ChecklistDetail.State) (w : World)
    (o : props) (items : list value) :
  ChecklistDetail.checklist s = VObject o ->
  In section task_lists ->
  read_prop (VObject o) section = VArray items -> not_null items ->
  first_index (has_id itemId) items <> -1 ->
  trim (ChecklistDetail.newItemText s) <> "" ->
  let i := Z.to_nat (first_index (has_id itemId) items) in
  let item := default VUndefined (items !! i) in
  let w1 := snd (ChecklistDetail.toggleItem id section itemId s w) in
  let w2 := snd (ChecklistDetail.addItem id section s w1) in
  exists c1 c2,
    storage w1 !! record_key id = Some (JSON_stringify c1) /\
    read_prop c1 section =
      VArray (<[i := toggled_item item (clock w (reads w))]> items) /\
    storage w2 !! record_key id = Some (JSON_stringify c2) /\
    read_prop c2 section =
      VArray (items ++ [new_item w1 (ChecklistDetail.newItemText s)]).
Proof.
  intros Hc Hsec Hitems Hnn Hi Htext i item w1 w2.
  pose proof (task_list_not_updated_at _ Hsec) as Hne.
  assert (Hw1 : w1 = snd (ChecklistDetail.saveChecklist id
                  (spread_with (VObject o) section
                     (VArray (<[i := toggled_item item (clock w (reads w))]> items)))
                  s (if becomes_completed item then tick w else w))).
  { subst w1. rewrite (toggleItem_run id section itemId s w o items Hc Hitems Hnn).
    cbn zeta. destruct (Z.eqb_spec (first_index (has_id itemId) items) (-1));
      [contradiction|reflexivity]. }
  eexists _, _. split; [|split; [|split]].
  - rewrite Hw1. apply saveChecklist_persists.
  - now apply read_updated_record_section.
  - subst w2. rewrite (snd_addItem id section s w1 o items Hc Hitems Htext).
    apply saveChecklist_persists.
  - now apply read_updated_record_section.
Qed.

Lemma stale_screen_loses_update_witness :
  ChecklistDetail.checklist (setNewItemText "Check oil" (fst camry_with_task)) =
    VObject camry_task_props /\
  In "tasks" task_lists /\
  read_prop (VObject camry_task_props) "tasks" = VArray [timing_belt] /\
  not_null [timing_belt] /\
  first_index (has_id "1700000000003") [timing_belt] <> -1 /\
  trim (ChecklistDetail.newItemText (setNewItemText "Check oil" (fst camry_with_task)))
    <> "" /\
  exists c2,
    storage (snd (ChecklistDetail.addItem camry_id "tasks"
                    (setNewItemText "Check oil" (fst camry_with_task))
                    (snd (ChecklistDetail.toggleItem camry_id "tasks" "1700000000003"
                            (setNewItemText "Check oil" (fst camry_with_task))
                            (snd camry_with_task)))))
      !! record_key camry_id = Some (JSON_stringify c2) /\
    exists new, read_prop c2 "tasks" = VArray ([timing_belt] ++ [new]).
Proof.
  assert (H1 : ChecklistDetail.checklist (setNewItemText "Check oil" (fst camry_with_task))
               = VObject camry_task_props) by (vm_compute; reflexivity).
  assert (H2 : In "tasks" task_lists) by (left; reflexivity).
  assert (H3 : read_prop (VObject camry_task_props) "tasks" = VArray [timing_belt])
    by (vm_compute; reflexivity).
  assert (H4 : not_null [timing_belt]) by (repeat constructor).
  assert (H5 : first_index (has_id "1700000000003") [timing_belt] <> -1)
    by (vm_compute; discriminate).
  assert (H6 : trim (ChecklistDetail.newItemText
                       (setNewItemText "Check oil" (fst camry_with_task))) <> "")
    by (vm_compute; discriminate).
  repeat (split; [assumption|]).
  destruct (stale_screen_loses_update camry_id "tasks" "1700000000003" _
              (snd camry_with_task) _ _ H1 H2 H3 H4 H5 H6)
    as (c1 & c2 & _ & _ & Hst & Hread).
  exists c2. split; [exact Hst|]. eexists. exact Hread.
Defined.

(** ** Photos *)

Lemma addPhoto_run id base64 s w o photos :
  ChecklistDetail.checklist s = VObject o ->
  read_prop (VObject o) "photos" = VArray photos ->
  base64 <> "" ->
  ChecklistDetail.addPhoto id true (Some base64) s w =
  ChecklistDetail.saveChecklist id
    (spread_with (VObject o) "photos" (VArray (photos ++ [new_photo w base64])))
    s (tick (tick w)).
Proof.
  intros Hc Hphotos Hb. unfold ChecklistDetail.addPhoto. cbn [negb truthy].
  destruct (String.eqb_spec base64 ""); [contradiction|]. cbn [negb].
  unfold try_catch, bind at 1 2 3, Date_now_toString, new_Date_toISOString.
  unfold bind at 1 2, read_clock, ret at 1 2, eval.
  cbn [fst snd storage clock reads shown].
  rewrite Hc. unfold get_prop. cbn [nullish completion_bind]. rewrite Hphotos.
  cbn [iterate].
  change (mkWorld (storage w) (clock w) (S (S (reads w))) (shown w)) with (tick (tick w)).
  fold (new_photo w base64).
  destruct (saveChecklist_completes id
    (spread_with (VObject o) "photos" (VArray (photos ++ [new_photo w base64])))
    s (tick (tick w))) as (s' & w' & Hrun).
  now rewrite Hrun.
Qed.

(** X9.  [addPhoto], when the permission is granted and an image with a
    base64 text has been picked, on a screen that holds a checklist object
    whose [photos] is an array, over a store whose list is an array
    without [null]: it passes to [saveChecklist] the checklist with one
    photo more, at the end of [photos].  The photo has the base64 text of
    the image, the empty description, the numeral of a reading of the
    clock as id and the next reading as timestamp; the photos that were
    there keep their positions, and no property of the checklist but
    [photos] and [updated_at] changes.  The clock is read three times. *)
Theorem addPhoto_appends_one_photo
    (id base64 : string) (s : ChecklistDetail.State) (w : World)
    (o : props) (photos l : list value) :
  ChecklistDetail.checklist s = VObject o ->
  read_prop (VObject o) "photos" = VArray photos ->
  base64 <> "" ->
  listed w = Normal l -> not_null l ->
  let photo := new_photo w base64 in
  let c' := updated_record
              (spread_with (VObject o) "photos" (VArray (photos ++ [photo])))
              (tick (tick w)) in
  let r := ChecklistDetail.addPhoto id true (Some base64) s w in
  fst r = Normal (ChecklistDetail.setChecklist c' s) /\
  storage (snd r) !! record_key id = Some (JSON_stringify c') /\
  reads (snd r) = S (S (S (reads w))) /\
  read_prop c' "photos" = VArray (photos ++ [photo]) /\
  read_prop c' "updated_at" = VString (toISOString (clock w (S (S (reads w))))) /\
  (forall k, k <> "photos" -> k <> "updated_at" ->
     read_prop c' k = read_prop (VObject o) k) /\
  read_prop photo "id" = VString (pretty (clock w (reads w))) /\
  read_prop photo "base64_data" = VString base64 /\
  read_prop photo "description" = VString "" /\
  read_prop photo "timestamp" = VString (toISOString (clock w (S (reads w)))).
Proof.
  intros Hc Hphotos Hb Hl Hnn photo c' r. subst r.
  rewrite (addPhoto_run id base64 s w o photos Hc Hphotos Hb). fold photo.
  assert (Hl' : listed (tick (tick w)) = Normal l) by exact Hl.
  split; [exact (saveChecklist_state _ _ _ _ _ Hl' Hnn)|].
  split; [apply saveChecklist_persists|].
  split; [now rewrite (saveChecklist_run id _ s (tick (tick w)) l Hl' Hnn)|].
  split; [now apply read_updated_record_section|].
  split; [apply read_prop_spread_with_eq|].
  split; [intros k Hk Hk'; now apply read_updated_record_other|].
  repeat split.
Qed.

Lemma addPhoto_appends_one_photo_witness :
  ChecklistDetail.checklist (fst camry_with_task) = VObject camry_task_props /\
  read_prop (VObject camry_task_props) "photos" = VArray [] /\
  "abc123" <> "" /\
  listed (snd camry_with_task) = Normal (camry_entries (snd camry_with_task)) /\
  not_null (camry_entries (snd camry_with_task)) /\
  read_prop
    (updated_record
       (spread_with (VObject camry_task_props) "photos"
          (VArray ([] ++ [new_photo (snd camry_with_task) "abc123"])))
       (tick (tick (snd camry_with_task)))) "photos" =
  VArray ([] ++ [new_photo (snd camry_with_task) "abc123"]).
Proof.
  assert (H1 : ChecklistDetail.checklist (fst camry_with_task) = VObject camry_task_props)
    by (vm_compute; reflexivity).
  assert (H2 : read_prop (VObject camry_task_props) "photos" = VArray [])
    by (vm_compute; reflexivity).
  assert (H3 : "abc123" <> "") by discriminate.
  assert (H4 : listed (snd camry_with_task) = Normal (camry_entries (snd camry_with_task)))
    by (vm_compute; reflexivity).
  assert (H5 : not_null (camry_entries (snd camry_with_task)))
    by (vm_compute; repeat constructor).
  repeat (split; [assumption|]).
  destruct (addPhoto_appends_one_photo camry_id "abc123" _ _ _ _ _ H1 H2 H3 H4 H5)
    as (_ & _ & _ & Hphotos & _).
  exact Hphotos.
Defined.

(** X10.  [addPhoto] without a photo.  When the permission is refused it
    shows the alert "Permission Required" and does nothing else; when the
    user cancels the picker, or the picked image has no base64 text, it
    does nothing at all.  It is the one handler of the screen that does
    not return at once while [checklist] is [null]: with an image picked
    it then reads the clock twice, throws on [checklist.photos], catches
    the exception and shows the alert "Failed to add photo".  In all these
    cases the screen keeps its state and nothing is written. *)
Theorem addPhoto_without_photo (id : string) (s : ChecklistDetail.State) (w : World) :
  (forall picked,
     ChecklistDetail.addPhoto id false picked s w =
     (Normal s,
      mkWorld (storage w) (clock w) (reads w)
        (shown w ++ [Alert "Permission Required"
                       "Camera roll permissions are required to add photos."]))) /\
  ChecklistDetail.addPhoto id true None s w = (Normal s, w) /\
  ChecklistDetail.addPhoto id true (Some "") s w = (Normal s, w) /\
  (forall base64, base64 <> "" -> nullish (ChecklistDetail.checklist s) = true ->
     ChecklistDetail.addPhoto id true (Some base64) s w =
     (Normal s,
      mkWorld (storage w) (clock w) (S (S (reads w)))
        (shown w ++ [Alert "Error" "Failed to add photo"]))).
Proof.
  repeat split.
  - intros base64 Hb Hnull. unfold ChecklistDetail.addPhoto. cbn [negb truthy].
    destruct (String.eqb_spec base64 ""); [contradiction|]. cbn [negb].
    run_handler. unfold get_prop. rewrite Hnull. reflexivity.
Qed.

Lemma deletePhoto_run id photoId s w o photos :
  ChecklistDetail.checklist s = VObject o ->
  read_prop (VObject o) "photos" = VArray photos -> not_null photos ->
  ChecklistDetail.deletePhoto id photoId s w =
  ChecklistDetail.saveChecklist id
    (spread_with (VObject o) "photos"
       (VArray (List.filter (fun p => negb (has_id photoId p)) photos))) s w.
Proof.
  intros Hc Hphotos Hnn. unfold ChecklistDetail.deletePhoto.
  rewrite Hc. cbn [truthy negb]. unfold bind at 1. unfold eval at 1.
  unfold get_prop. cbn [nullish completion_bind]. rewrite Hphotos.
  cbn [array_receiver completion_bind]. rewrite (filter_array_not_null _ _ Hnn).
  reflexivity.
Qed.

(** X11.  [deletePhoto], once confirmed, on a screen that holds a
    checklist object whose [photos] is an array without [null], over a
    store whose list is an array without [null]: it passes to
    [saveChecklist] the checklist from which every photo with the id has
    been filtered out, the other photos keeping their order, and no
    property but [photos] and [updated_at] changes.  A photo that is not
    there makes no difference to the photos, but the checklist is saved
    all the same; so deleting the same photo again, on the screen as the
    first deletion left it, leaves the photos as they then are. *)
Theorem deletePhoto_filters_photos
    (id photoId : string) (s : ChecklistDetail.State) (w : World)
    (o : props) (photos l : list value) :
  ChecklistDetail.checklist s = VObject o ->
  read_prop (VObject o) "photos" = VArray photos -> not_null photos ->
  listed w = Normal l -> not_null l ->
  let photos' := List.filter (fun p => negb (has_id photoId p)) photos in
  let c' := updated_record (spread_with (VObject o) "photos" (VArray photos')) w in
  let r := ChecklistDetail.deletePhoto id photoId s w in
  fst r = Normal (ChecklistDetail.setChecklist c' s) /\
  storage (snd r) !! record_key id = Some (JSON_stringify c') /\
  read_prop c' "photos" = VArray photos' /\
  read_prop c' "updated_at" = VString (toISOString (clock w (reads w))) /\
  (forall k, k <> "photos" -> k <> "updated_at" ->
     read_prop c' k = read_prop (VObject o) k) /\
  (forall p, In p photos' <-> In p photos /\ has_id photoId p = false) /\
  (Forall (fun p => has_id photoId p = false) photos -> photos' = photos) /\
  (exists s2,
     fst (ChecklistDetail.deletePhoto id photoId
            (ChecklistDetail.setChecklist c' s) (snd r)) = Normal s2 /\
     read_prop (ChecklistDetail.checklist s2) "photos" = VArray photos').
Proof.
  intros Hc Hphotos Hnn Hl Hnl photos' c' r. subst r.
  rewrite (deletePhoto_run id photoId s w o photos Hc Hphotos Hnn). fold photos'.
  assert (Hread : read_prop c' "photos" = VArray photos')
    by now apply read_updated_record_section.
  split; [exact (saveChecklist_state _ _ _ _ _ Hl Hnl)|].
  split; [apply saveChecklist_persists|].
  split; [exact Hread|].
  split; [apply read_prop_spread_with_eq|].
  split; [intros; now apply read_updated_record_other|].
  split.
  { intros p. subst photos'. rewrite List.filter_In, negb_true_iff. reflexivity. }
  split.
  { intros H. apply filter_none. eapply Forall_impl; [exact H|].
    cbv beta. now intros p ->. }
  destruct (saveChecklist_listed id
              (spread_with (VObject o) "photos" (VArray photos')) s w l Hl Hnl)
    as (l1 & Hl1 & Hnl1).
  assert (Hnn' : not_null photos') by now apply not_null_filter.
  eexists. split.
  - erewrite (deletePhoto_run id photoId (ChecklistDetail.setChecklist c' s) _ _ photos');
      [apply (saveChecklist_state _ _ _ _ _ Hl1 Hnl1)|reflexivity|exact Hread|exact Hnn'].
  - cbn [ChecklistDetail.setChecklist ChecklistDetail.checklist].
    rewrite read_updated_record_section by discriminate.
    subst photos'. now rewrite filter_twice.
Qed.

Lemma deletePhoto_filters_photos_witness :
  ChecklistDetail.checklist (fst camry_with_photo) = VObject camry_photo_props /\
  read_prop (VObject camry_photo_props) "photos" = VArray [engine_bay_photo] /\
  not_null [engine_bay_photo] /\
  listed (snd camry_with_photo) = Normal (camry_entries (snd camry_with_photo)) /\
  not_null (camry_entries (snd camry_with_photo)) /\
  read_prop
    (updated_record
       (spread_with (VObject camry_photo_props) "photos"
          (VArray (List.filter (fun p => negb (has_id "1700000000005" p))
                     [engine_bay_photo])))
       (snd camry_with_photo)) "photos" = VArray [].
Proof.
  assert (H1 : ChecklistDetail.checklist (fst camry_with_photo) = VObject camry_photo_props)
    by (vm_compute; reflexivity).
  assert (H2 : read_prop (VObject camry_photo_props) "photos" = VArray [engine_bay_photo])
    by (vm_compute; reflexivity).
  assert (H3 : not_null [engine_bay_photo]) by (repeat constructor).
  assert (H4 : listed (snd camry_with_photo) = Normal (camry_entries (snd camry_with_photo)))
    by (vm_compute; reflexivity).
  assert (H5 : not_null (camry_entries (snd camry_with_photo)))
    by (vm_compute; repeat constructor).
  repeat (split; [assumption|]).
  destruct (deletePhoto_filters_photos camry_id "1700000000005" _ _ _ _ _ H1 H2 H3 H4 H5)
    as (_ & _ & Hphotos & _).
  exact Hphotos.
Defined.


(** ** What a visit of the detail screen does to the store *)

Lemma saveChecklist_frame id c s w key :
  key <> record_key id -> key <> index_key ->
  storage (snd (ChecklistDetail.saveChecklist id c s w)) !! key = storage w !! key.
Proof.
  intros H1 H2. unfold ChecklistDetail.saveChecklist. run_handler.
  destruct (array_receiver _) as [l|]; cbn;
    [|now rewrite lookup_insert_ne by congruence].
  destruct (findIndex _ l) as [i|]; cbn; [|now rewrite lookup_insert_ne by congruence].
  destruct (i =? -1); cbn; now rewrite !lookup_insert_ne by congruence.
Qed.

Ltac outcome_idle :=
  left; cbn [fst snd storage]; split;
  [reflexivity|
   let H := fresh in intros ? H; first [discriminate H|now injection H as <-]].

Ltac save_completes Hrun :=
  match type of Hrun with
  | ChecklistDetail.saveChecklist ?i ?c ?s ?w = _ =>
      let H := fresh in
      destruct (saveChecklist_completes i c s w) as (? & ? & H);
      rewrite H in Hrun; discriminate Hrun
  end.

Lemma addItem_outcome id section s w :
  In section task_lists -> outcome id s w (ChecklistDetail.addItem id section s w).
Proof.
  intros Hsec. unfold ChecklistDetail.addItem.
  destruct (negb (truthy (ChecklistDetail.checklist s)) ||
            negb (truthy (VString (trim (ChecklistDetail.newItemText s))))) eqn:E.
  { unfold ret. outcome_idle. }
  apply orb_false_elim in E as [Et%negb_false_iff _].
  run_handler. unfold get_prop. rewrite (truthy_not_nullish _ Et).
  cbn [completion_bind].
  destruct (iterate (read_prop (ChecklistDetail.checklist s) section)) as [l|] eqn:Hit.
  2:{ outcome_idle. }
  destruct (iterate_object _ section _ (in_or_app _ _ _ (or_introl Hsec)) Hit) as [o Hc].
  rewrite Hc.
  destruct (ChecklistDetail.saveChecklist id _ s _) as [[s1|] w1] eqn:Hrun;
    [|save_completes Hrun].
  right. do 5 eexists. split; [exact Hc|].
  split; [|split; [|split; [exact Hrun|]]].
  - now apply task_list_not_kept.
  - reflexivity.
  - eexists. split; reflexivity.
Qed.

Lemma toggleItem_outcome id section itemId s w :
  In section task_lists -> outcome id s w (ChecklistDetail.toggleItem id section itemId s w).
Proof.
  intros Hsec. unfold ChecklistDetail.toggleItem.
  destruct (negb (truthy (ChecklistDetail.checklist s))) eqn:Et.
  { unfold ret. outcome_idle. }
  apply negb_false_iff in Et.
  unfold bind at 1. unfold eval at 1. unfold get_prop.
  rewrite (truthy_not_nullish _ Et). cbn [completion_bind].
  destruct (iterate (read_prop (ChecklistDetail.checklist s) section)) as [items|] eqn:Hit.
  2:{ outcome_idle. }
  destruct (iterate_object _ section _ (in_or_app _ _ _ (or_introl Hsec)) Hit) as [o Hc].
  unfold bind at 1. unfold eval at 1.
  destruct (findIndex (id_is itemId) items) as [i|].
  2:{ outcome_idle. }
  destruct (i =? -1).
  { unfold ret. outcome_idle. }
  unfold bind at 1.
  pose proof (toggled_storage (default VUndefined (items !! Z.to_nat i)) w) as Hst.
  destruct (ChecklistDetail.toggled _ w) as [[item'|] w1]; cbn [snd] in Hst.
  2:{ left. cbn [fst snd]. split; [exact Hst|discriminate]. }
  rewrite Hc.
  destruct (ChecklistDetail.saveChecklist id _ s _) as [[s1|] w2] eqn:Hrun;
    [|save_completes Hrun].
  right. do 5 eexists. split; [exact Hc|].
  split; [|split; [|split; [exact Hrun|]]].
  - now apply task_list_not_kept.
  - exact Hst.
  - eexists. split; reflexivity.
Qed.

Lemma updatePhotoDescription_outcome id photoId description s w :
  outcome id s w (ChecklistDetail.updatePhotoDescription id photoId description s w).
Proof.
  unfold ChecklistDetail.updatePhotoDescription.
  destruct (negb (truthy (ChecklistDetail.checklist s))) eqn:Et.
  { unfold ret. outcome_idle. }
  apply negb_false_iff in Et.
  unfold bind at 1. unfold eval at 1. unfold get_prop.
  rewrite (truthy_not_nullish _ Et). cbn [completion_bind].
  destruct (array_receiver (read_prop (ChecklistDetail.checklist s) "photos"))
    as [photos|] eqn:Hit; cbn [completion_bind].
  2:{ outcome_idle. }
  destruct (array_receiver_object _ "photos" _ photos_is_list_name Hit) as [o Hc].
  destruct (map_array _ photos) as [photos'|].
  2:{ outcome_idle. }
  rewrite Hc.
  destruct (ChecklistDetail.saveChecklist id _ s _) as [[s1|] w2] eqn:Hrun;
    [|save_completes Hrun].
  right. do 5 eexists. split; [exact Hc|].
  split; [|split; [|split; [exact Hrun|]]].
  - exact photos_not_kept.
  - reflexivity.
  - eexists. split; reflexivity.
Qed.

Lemma deletePhoto_outcome id photoId s w :
  outcome id s w (ChecklistDetail.deletePhoto id photoId s w).
Proof.
  unfold ChecklistDetail.deletePhoto.
  destruct (negb (truthy (ChecklistDetail.checklist s))) eqn:Et.
  { unfold ret. outcome_idle. }
  apply negb_false_iff in Et.
  unfold bind at 1. unfold eval at 1. unfold get_prop.
  rewrite (truthy_not_nullish _ Et). cbn [completion_bind].
  destruct (array_receiver (read_prop (ChecklistDetail.checklist s) "photos"))
    as [photos|] eqn:Hit; cbn [completion_bind].
  2:{ outcome_idle. }
  destruct (array_receiver_object _ "photos" _ photos_is_list_name Hit) as [o Hc].
  destruct (filter_array _ photos) as [photos'|].
  2:{ outcome_idle. }
  rewrite Hc.
  destruct (ChecklistDetail.saveChecklist id _ s _) as [[s1|] w2] eqn:Hrun;
    [|save_completes Hrun].
  right. do 5 eexists. split; [exact Hc|].
  split; [|split; [|split; [exact Hrun|]]].
  - exact photos_not_kept.
  - reflexivity.
  - eexists. split; reflexivity.
Qed.

Lemma addPhoto_outcome id granted picked s w :
  outcome id s w (ChecklistDetail.addPhoto id granted picked s w).
Proof.
  unfold ChecklistDetail.addPhoto.
  destruct granted; cbn [negb].
  2:{ run_handler. outcome_idle. }
  destruct picked as [base64|].
  2:{ run_handler. outcome_idle. }
  destruct (truthy (VString base64)).
  2:{ run_handler. outcome_idle. }
  unfold try_catch, bind at 1 2 3, Date_now_toString, new_Date_toISOString.
  unfold bind at 1 2, read_clock, ret at 1 2, eval.
  cbn [fst snd storage clock reads shown].
  destruct (completion_bind (get_prop (ChecklistDetail.checklist s) "photos") iterate)
    as [photos|] eqn:Hit.
  2:{ unfold bind, show, ret. cbn [fst snd storage clock reads shown]. outcome_idle. }
  assert (Hit' : iterate (read_prop (ChecklistDetail.checklist s) "photos") = Normal photos).
  { unfold get_prop in Hit. now destruct (nullish (ChecklistDetail.checklist s)). }
  destruct (iterate_object _ "photos" _ photos_is_list_name Hit') as [o Hc].
  rewrite Hc.
  destruct (ChecklistDetail.saveChecklist id _ s _) as [[s1|] w2] eqn:Hrun;
    [|save_completes Hrun].
  right. do 5 eexists. split; [exact Hc|].
  split; [|split; [|split; [exact Hrun|]]].
  - exact photos_not_kept.
  - reflexivity.
  - eexists. split; reflexivity.
Qed.

Lemma section_key_task_list sec : In (section_key sec) task_lists.
Proof. destruct sec; unfold task_lists; simpl; tauto. Qed.

Lemma perform_outcome id a s w : outcome id s w (perform id a s w).
Proof.
  destruct a as [text|sec|sec|sec itemId|granted picked|photoId description|photoId];
    cbn [perform].
  - unfold ret. outcome_idle.
  - unfold ret. outcome_idle.
  - apply addItem_outcome, section_key_task_list.
  - apply toggleItem_outcome, section_key_task_list.
  - apply addPhoto_outcome.
  - apply updatePhotoDescription_outcome.
  - apply deletePhoto_outcome.
Qed.

Lemma outcome_frame id s w r key :
  outcome id s w r -> key <> record_key id -> key <> index_key ->
  storage (snd r) !! key = storage w !! key.
Proof.
  intros [[Hst _]|(o & k & x & w0 & s1 & _ & _ & Hst & Hrun & _)] H1 H2.
  - now rewrite Hst.
  - rewrite <- Hst, <- (saveChecklist_frame id (spread_with (VObject o) k x) s w0 key H1 H2).
    now rewrite Hrun.
Qed.

Lemma outcome_throws id s w r :
  outcome id s w r -> fst r = TypeError -> storage (snd r) = storage w.
Proof.
  intros [[Hst _]|(o & k & x & w0 & s1 & _ & _ & _ & _ & s' & Hs' & _)] H.
  - exact Hst.
  - congruence.
Qed.

Lemma outcome_handled id s w r :
  reachable w -> shows_record id s w -> outcome id s w r ->
  reachable (snd r) /\ shows_record id (fst (settle s r)) (snd (settle s r)).
Proof.
  intros Hw Hs [[Hst Hc]|(o & k & x & w0 & s1 & Hc & Hk & Hst & Hrun & s' & Hs' & Hc')].
  - split; [now apply (reachable_idle w)|].
    destruct r as [[s'|] w']; cbn [settle fst snd] in *.
    + apply (shows_record_checklist id s); [now apply Hc|].
      now apply (shows_record_idle id s w).
    + now apply (shows_record_idle id s w).
  - destruct (saveChecklist_step id o k x s w w0 Hc Hk Hst Hs) as [Hstep Hshow].
    rewrite Hrun in Hstep, Hshow. cbn [fst snd] in Hstep, Hshow.
    split.
    + apply (reachable_step w0); [now apply (reachable_idle w)|exact Hstep].
    + destruct r as [[s2|] w']; cbn [settle fst snd] in *; [|discriminate].
      injection Hs' as ->. apply (shows_record_checklist id s1); [exact Hc'|].
      now apply Hshow.
Qed.

(** X12.  Whatever the user does on the detail screen of [id], the only
    keys of the store that can change are [checklist_<id>] and
    [vehicle_checklists]: the record of every other checklist, and every
    other key, is after the visit what it was before.  And a handler that
    throws has written nothing. *)
Theorem visit_writes_two_keys
    (id : string) (actions : list action) (s : ChecklistDetail.State) (w : World) :
  (forall key, key <> record_key id -> key <> index_key ->
     storage (snd (visit id actions s w)) !! key = storage w !! key) /\
  (forall id', id' <> id ->
     storage (snd (visit id actions s w)) !! record_key id' =
     storage w !! record_key id') /\
  (forall a, fst (perform id a s w) = TypeError ->
     storage (snd (perform id a s w)) = storage w).
Proof.
  assert (H : forall key, key <> record_key id -> key <> index_key ->
            storage (snd (visit id actions s w)) !! key = storage w !! key).
  { intros key H1 H2. revert s w.
    induction actions as [|a actions IH]; intros s w; cbn [visit]; [reflexivity|].
    pose proof (outcome_frame id s w _ key (perform_outcome id a s w) H1 H2) as Hf.
    destruct (perform id a s w) as [[s'|] w']; cbn [settle snd] in *;
      now rewrite IH. }
  split; [exact H|]. split.
  - intros id' Hne. apply H; [|apply record_key_not_index].
    intros E%record_key_inj. contradiction.
  - intros a. apply (outcome_throws id s w), perform_outcome.
Qed.

Lemma reachable_consistent w : reachable w -> consistent w.
Proof.
  induction 1 as [w H|w w' _ IH Hstep];
    [now apply consistent_empty|now apply (consistent_step w)].
Qed.

Lemma holds_record_shows id s w : holds_record id s w -> shows_record id s w.
Proof.
  intros [Htext Hkept]. exists (JSON_stringify (ChecklistDetail.checklist s)).
  split; [exact Htext|]. intros k Hk. symmetry. now apply Hkept.
Qed.

(** Opening the detail screen on a stored record gives a screen that
    holds it. *)
Lemma get_holds_record id w text :
  storage w !! record_key id = Some text ->
  holds_record id (ChecklistDetail.mkState (JSON_parse text) "" None) w.
Proof.
  intros H. split; cbn [ChecklistDetail.checklist].
  - now rewrite JSON_stringify_parse.
  - intros k _. now rewrite stored_parse.
Qed.

Lemma outcome_holds id s w r :
  reachable w -> holds_record id s w -> outcome id s w r ->
  holds_record id (fst (settle s r)) (snd (settle s r)).
Proof.
  intros Hw Hs Hout.
  destruct (outcome_handled id s w r Hw (holds_record_shows id s w Hs) Hout)
    as [_ (text & Htext & Hkept)].
  assert (H1 : storage (snd (settle s r)) !! record_key id =
               Some (JSON_stringify (ChecklistDetail.checklist (fst (settle s r))))).
  { destruct Hs as [Hst _].
    destruct Hout as [[Hsame Hc]|(o & k & x & w0 & s1 & Hc & Hk & Hst0 & Hrun & s' & Hs' & Hc')].
    - destruct r as [[s'|] w']; cbn [settle fst snd] in *.
      + now rewrite Hsame, (Hc s' eq_refl).
      + now rewrite Hsame.
    - destruct (reachable_consistent w Hw) as (l & Hl & _ & Hentries).
      assert (Hl0 : listed w0 = Normal l)
        by (rewrite <- Hl; apply listed_same; now rewrite Hst0).
      pose proof (saveChecklist_state id (spread_with (VObject o) k x) s w0 l Hl0
                    (entries_not_null _ _ Hentries)) as Hstate.
      pose proof (saveChecklist_persists id (spread_with (VObject o) k x) s w0) as Hp.
      rewrite Hrun in Hstate, Hp. cbn [fst snd] in Hstate, Hp.
      injection Hstate as ->.
      destruct r as [[s2|] w']; cbn [settle fst snd] in *; [|discriminate].
      injection Hs' as ->. rewrite Hc'. exact Hp. }
  split; [exact H1|].
  intros k Hk. rewrite H1 in Htext. injection Htext as <-.
  symmetry. now apply Hkept.
Qed.

(** X13.  A visit of the detail screen keeps list and records in
    agreement, and the screen on the stored record.  Take a store that
    the application has got into from an empty one, by creations that
    drew an id not in use, saves and deletions, and a detail screen of
    [id] that holds the record stored for [id], as it does when it has
    just loaded it.  After any sequence of actions on the screen the
    store is again such a store and its list agrees with its records;
    what is stored under [checklist_<id>] is the checklist that the
    screen then holds, as [JSON.stringify] writes it out; and opening the
    screen again loads that checklist, as it comes back from JSON. *)
Theorem visit_keeps_list_and_records_agreeing
    (id : string) (actions : list action) (s : ChecklistDetail.State) (w : World) :
  reachable w -> holds_record id s w ->
  let s' := fst (visit id actions s w) in
  let w' := snd (visit id actions s w) in
  reachable w' /\
  consistent w' /\
  holds_record id s' w' /\
  storage w' !! record_key id = Some (JSON_stringify (ChecklistDetail.checklist s')) /\
  get id w' =
    (Normal (ChecklistDetail.mkState (stored (ChecklistDetail.checklist s')) "" None), w').
Proof.
  intros Hw Hs s' w'.
  assert (H : reachable w' /\ holds_record id s' w').
  { subst s' w'. revert s w Hw Hs.
    induction actions as [|a actions IH]; intros s w Hw Hs; cbn [visit]; [now split|].
    pose proof (perform_outcome id a s w) as Hout.
    destruct (outcome_handled id s w _ Hw (holds_record_shows id s w Hs) Hout) as [Hr _].
    pose proof (outcome_holds id s w _ Hw Hs Hout) as Hh.
    destruct (settle s (perform id a s w)) as [s1 w1] eqn:E.
    cbn [fst snd] in Hh. apply IH; [|exact Hh].
    destruct (perform id a s w) as [[s2|] w2]; cbn [settle snd] in *;
      injection E as _ <-; exact Hr. }
  destruct H as [Hr Hh]. split; [exact Hr|]. split; [now apply reachable_consistent|].
  split; [exact Hh|]. destruct Hh as [Htext _]. split; [exact Htext|].
  now rewrite (get_found id w' _ Htext).
Qed.


(** ** The records of a store the application has got into *)

Lemma append_not_empty s c t : s +:+ String c t <> "".
Proof. destruct s; discriminate. Qed.

Lemma title_or_default_not_empty data :
  exists title, title <> "" /\ CreateChecklist.title_or_default data = VString title.
Proof.
  unfold CreateChecklist.title_or_default, js_or. cbn [truthy].
  destruct (String.eqb_spec (CreateChecklist.title data) "") as [E|E]; cbn [negb].
  - eexists. split; [|reflexivity]. apply append_not_empty.
  - eexists. split; [exact E|reflexivity].
Qed.

Lemma stored_vehicle_info_literal v :
  stored (CreateChecklist.vehicle_info_literal v) = CreateChecklist.vehicle_info_literal v.
Proof. destruct v. reflexivity. Qed.

Lemma well_formed_created data w :
  well_formed (created_id w) (stored (created_record data w)).
Proof.
  unfold well_formed, created_record, CreateChecklist.newChecklist.
  rewrite !read_prop_stored. cbn [read_prop lookup_prop String.eqb Ascii.eqb Bool.eqb default
    from_option id stored_prop].
  split; [reflexivity|]. split; [|split; [|split]].
  - destruct (title_or_default_not_empty data) as (title & Hne & ->).
    exists title. split; [exact Hne|reflexivity].
  - exists (CreateChecklist.vehicleInfo data).
    change (stored_prop (CreateChecklist.vehicle_info_literal (CreateChecklist.vehicleInfo data)))
      with (stored (CreateChecklist.vehicle_info_literal (CreateChecklist.vehicleInfo data))).
    apply stored_vehicle_info_literal.
  - eexists. reflexivity.
  - eexists. reflexivity.
Qed.

Lemma well_formed_updated id text o w :
  (forall k, In k kept_fields ->
             read_prop (VObject o) k = read_prop (JSON_parse text) k) ->
  well_formed id (JSON_parse text) ->
  well_formed id (stored (updated_record (VObject o) w)).
Proof.
  intros Hkept (Hid & Htitle & Hvehicle & Hcreated & _).
  assert (Hread : forall k, In k kept_fields ->
            read_prop (stored (updated_record (VObject o) w)) k =
            read_prop (JSON_parse text) k).
  { intros k Hk. destruct (kept_field_other _ Hk) as (Hne & _).
    unfold updated_record, spread_with. rewrite read_prop_stored.
    fold (spread_with (VObject o) "updated_at" (VString (toISOString (clock w (reads w))))).
    fold (updated_record (VObject o) w).
    rewrite read_updated_kept by exact Hne. rewrite (Hkept k Hk).
    apply stored_prop_read_parse. }
  unfold well_formed. rewrite !Hread by (unfold kept_fields; simpl; tauto).
  repeat split; try assumption.
  exists (clock w (reads w)). unfold updated_record, spread_with.
  rewrite read_prop_stored.
  fold (spread_with (VObject o) "updated_at" (VString (toISOString (clock w (reads w))))).
  now rewrite read_prop_spread_with_eq.
Qed.

Lemma delete_frame id w key :
  key <> index_key -> storage (snd (delete id w)) !! key = storage w !! key.
Proof.
  intros Hk. unfold delete, bind. rewrite listSummaries_run.
  unfold Index.handleDeleteChecklist. run_handler.
  destruct (array_receiver _) as [l|]; [|reflexivity].
  destruct (filter_array _ l); cbn; [|reflexivity].
  now rewrite lookup_insert_ne by congruence.
Qed.

Lemma onSubmit_frame data w key :
  key <> index_key -> key <> record_key (created_id w) ->
  storage (snd (CreateChecklist.onSubmit data w)) !! key = storage w !! key.
Proof.
  intros H1 H2. destruct (listed w) as [l|] eqn:Hl.
  - rewrite (onSubmit_run data w l Hl). cbn [snd storage].
    now rewrite !lookup_insert_ne by congruence.
  - now rewrite (onSubmit_failed data w Hl).
Qed.

Lemma record_key_ne id id' : id <> id' -> record_key id <> record_key id'.
Proof. intros H E%record_key_inj. contradiction. Qed.

Lemma step_well_formed w w' :
  consistent w -> step w w' ->
  (forall id text, storage w !! record_key id = Some text ->
                   well_formed id (JSON_parse text)) ->
  forall id text, storage w' !! record_key id = Some text ->
                  well_formed id (JSON_parse text).
Proof.
  intros Hcons Hstep. revert Hcons.
  destruct Hstep as [data w0 Hfresh|id0 text0 o s w0 Htext0 Hkept|id0 w0|w0 w0' Hst];
    intros (l & Hl & _) IH id text Htext.
  - destruct (String.eqb_spec id (created_id w0)) as [->|Hne].
    + rewrite (onSubmit_run data w0 l Hl) in Htext. cbn [snd storage] in Htext.
      rewrite lookup_insert_eq in Htext. injection Htext as <-.
      apply well_formed_created.
    + rewrite onSubmit_frame in Htext
        by (try apply record_key_not_index; now apply record_key_ne).
      now apply IH.
  - destruct (String.eqb_spec id id0) as [->|Hne].
    + rewrite saveChecklist_persists in Htext. injection Htext as <-.
      apply (well_formed_updated id0 text0); [exact Hkept|now apply IH].
    + rewrite saveChecklist_frame in Htext
        by (try apply record_key_not_index; now apply record_key_ne).
      now apply IH.
  - rewrite delete_frame in Htext by apply record_key_not_index. now apply IH.
  - rewrite Hst in Htext. now apply IH.
Qed.

(** X14.  In a store that the application has got into from an empty
    one, whatever is stored under [checklist_<id>] is a record with that
    id, a title that is a string and not empty, as [vehicle_info] the
    object that [onSubmit] built from the form (no handler changes it
    afterwards), and as [created_at] and [updated_at] two readings of the
    clock as [toISOString] writes them. *)
Theorem stored_records_are_well_formed (w : World) (id : string) (text : json) :
  reachable w ->
  storage w !! record_key id = Some text ->
  well_formed id (JSON_parse text).
Proof.
  intros Hw. revert id text.
  induction Hw as [w Hempty|w w' Hw IH Hstep]; intros id text Htext.
  - rewrite Hempty, lookup_empty in Htext. discriminate.
  - pose proof (reachable_consistent w Hw) as Hcons.
    exact (step_well_formed w w' Hcons Hstep IH id text Htext).
Qed.

Lemma stored_records_are_well_formed_witness :
  reachable camry_created /\
  storage camry_created !! record_key camry_id =
    Some (JSON_stringify (created_record camry (fresh_install 1700000000000))) /\
  well_formed camry_id camry_record.
Proof.
  assert (H : storage camry_created !! record_key camry_id =
              Some (JSON_stringify (created_record camry (fresh_install 1700000000000))))
    by (vm_compute; reflexivity).
  split; [exact camry_created_reachable|]. split; [exact H|].
  exact (stored_records_are_well_formed camry_created camry_id _ camry_created_reachable H).
Defined.

(** ** What the list screen and the detail screen put up *)








Example slice_last_of_vin :
  ChecklistDetail.slice_last 6 (VString "JT2BG22K1W0123456") = Normal (VString "123456") /\
  ChecklistDetail.slice_last 6 (VString "W0123") = Normal (VString "W0123") /\
  ChecklistDetail.slice_last 6 (VNumber 12345) = TypeError.
Proof. repeat split. Qed.



(** ** The rows of the vehicle information screen *)

Lemma omap_InfoRow rows :
  omap (fun r : (string * value)%type => VehicleInfo.InfoRow (fst r) (snd r)) rows =
  List.filter (fun r => truthy (snd r)) rows.
Proof.
  induction rows as [|[label v] rows IH]; [reflexivity|].
  cbn [omap list_omap List.filter fst snd]. unfold VehicleInfo.InfoRow at 1.
  rewrite IH. now destruct (truthy v).
Qed.

Lemma displayed_run checklist :
  VehicleInfo.displayed checklist =
  Normal (if truthy checklist
          then Some (List.filter (fun r => truthy (snd r)) (shown_rows checklist))
          else None).
Proof.
  unfold VehicleInfo.displayed, VehicleInfo.render, shown_rows.
  destruct (truthy checklist) eqn:E; cbn [negb]; [|reflexivity].
  rewrite !row_values_run by exact E. cbn [completion_bind option_map].
  now rewrite omap_InfoRow.
Qed.

Lemma shown_value_without_objects checklist camel snake field :
  nullish (read_prop checklist camel) = true ->
  nullish (read_prop checklist snake) = true ->
  shown_value checklist camel snake field = VString "".
Proof. intros Ha Hb. unfold shown_value, optional_chain. now rewrite Ha, Hb. Qed.

(** X17.  The vehicle information screen puts up the rows whose value is
    truthy, in the order of the screen, and no others: every row it shows
    has a value that is not empty.  For a checklist that has neither
    [vehicleInfo] nor [vehicle_info], and neither [engineInfo] nor
    [engine_info], it shows the section titles without a single row. *)
Theorem displayed_rows_have_values (checklist : value) :
  truthy checklist = true ->
  let rows := List.filter (fun r => truthy (snd r)) (shown_rows checklist) in
  VehicleInfo.displayed checklist = Normal (Some rows) /\
  Forall (fun r => snd r <> VString "" /\ In r (shown_rows checklist)) rows /\
  (nullish (read_prop checklist "vehicleInfo") = true ->
   nullish (read_prop checklist "vehicle_info") = true ->
   nullish (read_prop checklist "engineInfo") = true ->
   nullish (read_prop checklist "engine_info") = true ->
   rows = []).
Proof.
  intros Ht rows. split; [|split].
  - now rewrite displayed_run, Ht.
  - apply List.Forall_forall. intros r [Hin Hr]%List.filter_In.
    split; [|exact Hin]. intros E. now rewrite E in Hr.
  - intros H1 H2 H3 H4. subst rows. unfold shown_rows.
    rewrite List.filter_app.
    assert (Hnone : forall camel snake (rs : list (string * string)),
              nullish (read_prop checklist camel) = true ->
              nullish (read_prop checklist snake) = true ->
              List.filter (fun r => truthy (snd r))
                (map (fun r => (fst r, shown_value checklist camel snake (snd r))) rs) = []).
    { intros camel snake rs Ha Hb. induction rs as [|r rs IH]; [reflexivity|].
      cbn [map List.filter snd].
      now rewrite (shown_value_without_objects _ _ _ _ Ha Hb). }
    now rewrite !Hnone.
Qed.

Lemma displayed_rows_have_values_witness :
  truthy (JSON_parse bare_record) = true /\
  VehicleInfo.displayed (JSON_parse bare_record) = Normal (Some []).
Proof.
  assert (H : truthy (JSON_parse bare_record) = true) by reflexivity.
  split; [exact H|].
  destruct (displayed_rows_have_values (JSON_parse bare_record) H) as (Hd & _ & Hnone).
  rewrite Hd. now rewrite Hnone.
Defined.

Lemma js_or_string s : js_or (VString s) (VString "") = VString s.
Proof.
  unfold js_or. cbn [truthy]. now destruct (String.eqb_spec s "") as [->|].
Qed.

Lemma shown_value_created data w camel snake (info : props) field s :
  read_prop (created_record data w) camel = VUndefined ->
  stored_prop (read_prop (created_record data w) snake) = VObject info ->
  read_prop (VObject info) field = VString s ->
  shown_value (stored (created_record data w)) camel snake field = VString s.
Proof.
  intros Ha Hb Hs. unfold shown_value.
  unfold created_record, CreateChecklist.newChecklist in *.
  rewrite !read_prop_stored, Ha, Hb. cbn [stored_prop optional_chain nullish].
  rewrite Hs. unfold js_or at 2. cbn [truthy]. apply js_or_string.
Qed.

Lemma shown_rows_created data w :
  shown_rows (stored (created_record data w)) = form_rows data.
Proof.
  unfold shown_rows, form_rows. f_equal.
  - apply map_ext_Forall. unfold VehicleInfo.vehicle_rows.
    destruct data as [title v e]. destruct v.
    repeat (constructor;
      [cbn [fst snd]; f_equal;
       eapply shown_value_created; [reflexivity|reflexivity|reflexivity]|]).
    constructor.
  - apply map_ext_Forall. unfold VehicleInfo.engine_rows.
    destruct data as [title v e]. destruct e.
    repeat (constructor;
      [cbn [fst snd]; f_equal;
       eapply shown_value_created; [reflexivity|reflexivity|reflexivity]|]).
    constructor.
Qed.

(** X18.  From the form to the vehicle information screen.  When
    [onSubmit] has stored a checklist (the stored list being an array),
    the vehicle information screen opened on its id loads the record and
    shows, under their labels and in the order of the screen, the texts
    typed into the fields of the form, leaving out the fields that were
    left empty. *)
Theorem created_record_shows_form_fields
    (data : CreateChecklist.FormData) (w : World) (l : list value) :
  listed w = Normal l ->
  let w' := snd (CreateChecklist.onSubmit data w) in
  exists checklist,
    VehicleInfo.loadChecklist (created_id w) VNull w' = (Normal checklist, w') /\
    VehicleInfo.displayed checklist =
      Normal (Some (List.filter (fun r => truthy (snd r)) (form_rows data))).
Proof.
  intros Hl w'. exists (stored (created_record data w)). split.
  - unfold VehicleInfo.loadChecklist. run_handler.
    assert (H : storage w' !! record_key (created_id w) =
                Some (JSON_stringify (created_record data w))).
    { subst w'. rewrite (onSubmit_run data w l Hl). apply lookup_insert_eq. }
    now rewrite H.
  - rewrite displayed_run. cbn [truthy]. now rewrite shown_rows_created.
Qed.

Lemma created_record_shows_form_fields_witness :
  listed (fresh_install 1700000000000) = Normal [] /\
  VehicleInfo.displayed camry_record =
    Normal (Some [("Make", VString "Toyota"); ("Model", VString "Camry");
                  ("Model Year", VString "2023")]).
Proof.
  assert (H : listed (fresh_install 1700000000000) = Normal []) by reflexivity.
  split; [exact H|].
  destruct (created_record_shows_form_fields camry _ _ H) as (c & Hload & Hshown).
  assert (Hc : fst (VehicleInfo.loadChecklist (created_id (fresh_install 1700000000000))
                      VNull camry_created) = Normal camry_record)
    by (vm_compute; reflexivity).
  apply (f_equal fst) in Hload. cbn [fst] in Hload.
  fold camry_created in Hload. rewrite Hc in Hload. injection Hload as <-.
  rewrite Hshown. vm_compute. reflexivity.
Defined.

(** ** Items of a checklist that lacks the list *)

(** X19.  On a screen that holds a checklist object in which [section]
    is missing, or is neither an array nor a string, [addItem] (with a
    text that is not blank) and [toggleItem] throw an exception that
    nothing catches: no alert is shown and nothing is written; [addItem]
    has read the clock by then. *)
Theorem item_handlers_need_the_list
    (id section itemId : string) (s : ChecklistDetail.State) (w : World) (o : props) :
  ChecklistDetail.checklist s = VObject o ->
  iterate (read_prop (VObject o) section) = TypeError ->
  (trim (ChecklistDetail.newItemText s) <> "" ->
   ChecklistDetail.addItem id section s w = (TypeError, tick w)) /\
  ChecklistDetail.toggleItem id section itemId s w = (TypeError, w).
Proof.
  intros Hc Hit. split.
  - intros Htext. unfold ChecklistDetail.addItem. rewrite Hc. cbn [truthy negb orb].
    destruct (String.eqb_spec (trim (ChecklistDetail.newItemText s)) ""); [contradiction|].
    cbn [negb]. run_handler. unfold get_prop. cbn [nullish completion_bind].
    now rewrite Hit.
  - unfold ChecklistDetail.toggleItem. rewrite Hc. cbn [truthy negb].
    unfold bind at 1. unfold eval at 1. unfold get_prop.
    cbn [nullish completion_bind]. now rewrite Hit.
Qed.

Lemma item_handlers_need_the_list_witness :
  ChecklistDetail.checklist (ChecklistDetail.mkState (JSON_parse legacy_record) "Check oil" None)
    = VObject (spread_props (JSON_parse legacy_record)) /\
  iterate (read_prop (VObject (spread_props (JSON_parse legacy_record))) "tasks") = TypeError /\
  ChecklistDetail.toggleItem "1600000000000" "tasks" "1"
    (ChecklistDetail.mkState (JSON_parse legacy_record) "Check oil" None)
    (fresh_install 1700000000000) = (TypeError, fresh_install 1700000000000).
Proof.
  assert (H1 : ChecklistDetail.checklist
                 (ChecklistDetail.mkState (JSON_parse legacy_record) "Check oil" None)
               = VObject (spread_props (JSON_parse legacy_record))) by reflexivity.
  assert (H2 : iterate (read_prop (VObject (spread_props (JSON_parse legacy_record))) "tasks")
               = TypeError) by reflexivity.
  split; [exact H1|]. split; [exact H2|].
  exact (proj2 (item_handlers_need_the_list "1600000000000" "tasks" "1" _
                 (fresh_install 1700000000000) _ H1 H2)).
Defined.

Lemma camry_screen_holds_record text : holds_record camry_id (camry_screen text) camry_created.
Proof.
  split; [vm_compute; reflexivity|].
  intros k _. cbn [camry_screen ChecklistDetail.checklist].
  exact (f_equal (fun v => read_prop v k)
           (stored_parse (JSON_stringify (created_record camry (fresh_install 1700000000000))))).
Qed.

Lemma visit_keeps_list_and_records_agreeing_witness :
  reachable camry_created /\
  holds_record camry_id (camry_screen "Replace timing belt") camry_created /\
  consistent
    (snd (visit camry_id
            [PressAdd TasksToBeCompleted;
             PressItem TasksToBeCompleted "1700000000003";
             PressCamera true (Some "abc123");
             ConfirmDeletePhoto "1700000000007"]
            (camry_screen "Replace timing belt") camry_created)).
Proof.
  split; [exact camry_created_reachable|].
  split; [apply camry_screen_holds_record|].
  exact (proj1 (proj2 (visit_keeps_list_and_records_agreeing camry_id _ _ _
                         camry_created_reachable
                         (camry_screen_holds_record "Replace timing belt")))).
Defined.
